(** * AppleALC [kern_mach.cpp]: a shallow embedding of [MachInfo]

    [MachInfo] locates the running kernel (or a kext), parses the Mach-O
    header of its on-disk file, reads [__LINKEDIT] and resolves symbol names
    to slid runtime addresses.  The methods are embedded as computations in a
    state monad over a [Machine]: the [MachInfo] object itself, the processor
    registers the code touches, the VFS references it holds, the services of
    the surrounding kernel, and a chronological trace of the hardware and
    memory accesses it performs.  Raw pointer reads become reads through a
    [view]; a read outside the viewed object is undefined behaviour in the
    source and is the outcome [Fault] here, which keeps the state it
    happened in. *)

From Stdlib.Strings Require Import Byte String.
From Stdlib Require Import ZArith List Bool Lia.
Import ListNotations.
Local Open Scope Z_scope.

(** ** Machine integers *)

Definition wrap32 (z : Z) : Z := z mod 2 ^ 32.
Definition wrap64 (z : Z) : Z := z mod 2 ^ 64.

Definition u32 (z : Z) : Prop := 0 <= z < 2 ^ 32.
Definition u64 (z : Z) : Prop := 0 <= z < 2 ^ 64.

(** ** Bytes and raw objects *)

Definition Z_of_byte (b : byte) : Z := Z.of_N (Byte.to_N b).

Definition byte_of_Z (z : Z) : byte :=
  match Byte.of_N (Z.to_N (z mod 256)) with
  | Some b => b
  | None => x00
  end.

(** A [view] is an object seen through a pointer: the byte at each offset
    from the pointer, [None] outside the object. *)
Definition view := Z -> option byte.

Definition buf_view (buf : list byte) : view :=
  fun off => if off <? 0 then None else nth_error buf (Z.to_nat off).

(** Little-endian value of [n] bytes at offset [off]. *)
Fixpoint view_le (v : view) (off : Z) (n : nat) : option Z :=
  match n with
  | O => Some 0
  | S n' =>
      match v off, view_le v (off + 1) n' with
      | Some b, Some hi => Some (Z_of_byte b + 256 * hi)
      | _, _ => None
      end
  end.

(** Little-endian encoding, used to lay out concrete images. *)
Fixpoint le_bytes (n : nat) (z : Z) : list byte :=
  match n with
  | O => []
  | S n' => byte_of_Z z :: le_bytes n' (z / 256)
  end.

Definition le16 := le_bytes 2.
Definition le32 := le_bytes 4.
Definition le64 := le_bytes 8.
Definition zeros (n : nat) : list byte := repeat x00 n.

(** [_OSSwapInt32]: byte swap of a 32-bit value. *)
Definition OSSwapInt32 (z : Z) : Z :=
  Z.lor (Z.lor (Z.shiftl (Z.land z 255) 24)
               (Z.shiftl (Z.land (Z.shiftr z 8) 255) 16))
        (Z.lor (Z.shiftl (Z.land (Z.shiftr z 16) 255) 8)
               (Z.land (Z.shiftr z 24) 255)).

(** ** The [MachInfo] object *)

(** Modelled from the spec: the member declarations of [class MachInfo]
    live in [kern_mach.hpp]; the fields are the ones the methods use, with
    the widths of the spec's data model (offsets, sizes and addresses are
    64-bit, the symbol count is 32-bit).  A null buffer pointer is [None]. *)
Record MachInfo := mkMachInfo {
  isKernel : bool;
  running_text_addr : Z;
  disk_text_addr : Z;
  kaslr_slide : Z;
  file_buf : option (list byte);
  linkedit_buf : option (list byte);
  linkedit_fileoff : Z;
  linkedit_size : Z;
  symboltable_fileoff : Z;
  symboltable_nr_symbols : Z;
  stringtable_fileoff : Z;
  running_mh : Z;
  fat_offset : Z;
  memory_size : Z;
  kaslr_slide_set : bool
}.

(** The ranges the C++ member types impose. *)
Definition wf_MachInfo (h : MachInfo) : Prop :=
  u64 (running_text_addr h) /\ u64 (disk_text_addr h) /\ u64 (kaslr_slide h) /\
  u64 (linkedit_fileoff h) /\ u64 (linkedit_size h) /\
  u64 (symboltable_fileoff h) /\ u32 (symboltable_nr_symbols h) /\
  u64 (stringtable_fileoff h) /\ u64 (running_mh h).

(** Member assignments. *)

Definition set_running_text_addr (x : Z) (h : MachInfo) : MachInfo :=
  mkMachInfo (isKernel h) x (disk_text_addr h) (kaslr_slide h) (file_buf h)
    (linkedit_buf h) (linkedit_fileoff h) (linkedit_size h)
    (symboltable_fileoff h) (symboltable_nr_symbols h)
    (stringtable_fileoff h) (running_mh h) (fat_offset h) (memory_size h)
    (kaslr_slide_set h).

Definition set_disk_text_addr (x : Z) (h : MachInfo) : MachInfo :=
  mkMachInfo (isKernel h) (running_text_addr h) x (kaslr_slide h)
    (file_buf h) (linkedit_buf h) (linkedit_fileoff h) (linkedit_size h)
    (symboltable_fileoff h) (symboltable_nr_symbols h)
    (stringtable_fileoff h) (running_mh h) (fat_offset h) (memory_size h)
    (kaslr_slide_set h).

Definition set_kaslr_slide (x : Z) (h : MachInfo) : MachInfo :=
  mkMachInfo (isKernel h) (running_text_addr h) (disk_text_addr h) x
    (file_buf h) (linkedit_buf h) (linkedit_fileoff h) (linkedit_size h)
    (symboltable_fileoff h) (symboltable_nr_symbols h)
    (stringtable_fileoff h) (running_mh h) (fat_offset h) (memory_size h)
    (kaslr_slide_set h).

Definition set_file_buf (x : option (list byte)) (h : MachInfo) : MachInfo :=
  mkMachInfo (isKernel h) (running_text_addr h) (disk_text_addr h)
    (kaslr_slide h) x (linkedit_buf h) (linkedit_fileoff h)
    (linkedit_size h) (symboltable_fileoff h) (symboltable_nr_symbols h)
    (stringtable_fileoff h) (running_mh h) (fat_offset h) (memory_size h)
    (kaslr_slide_set h).

Definition set_linkedit_buf (x : option (list byte)) (h : MachInfo) : MachInfo :=
  mkMachInfo (isKernel h) (running_text_addr h) (disk_text_addr h)
    (kaslr_slide h) (file_buf h) x (linkedit_fileoff h) (linkedit_size h)
    (symboltable_fileoff h) (symboltable_nr_symbols h)
    (stringtable_fileoff h) (running_mh h) (fat_offset h) (memory_size h)
    (kaslr_slide_set h).

Definition set_linkedit_fileoff (x : Z) (h : MachInfo) : MachInfo :=
  mkMachInfo (isKernel h) (running_text_addr h) (disk_text_addr h)
    (kaslr_slide h) (file_buf h) (linkedit_buf h) x (linkedit_size h)
    (symboltable_fileoff h) (symboltable_nr_symbols h)
    (stringtable_fileoff h) (running_mh h) (fat_offset h) (memory_size h)
    (kaslr_slide_set h).

Definition set_linkedit_size (x : Z) (h : MachInfo) : MachInfo :=
  mkMachInfo (isKernel h) (running_text_addr h) (disk_text_addr h)
    (kaslr_slide h) (file_buf h) (linkedit_buf h) (linkedit_fileoff h) x
    (symboltable_fileoff h) (symboltable_nr_symbols h)
    (stringtable_fileoff h) (running_mh h) (fat_offset h) (memory_size h)
    (kaslr_slide_set h).

Definition set_symboltable_fileoff (x : Z) (h : MachInfo) : MachInfo :=
  mkMachInfo (isKernel h) (running_text_addr h) (disk_text_addr h)
    (kaslr_slide h) (file_buf h) (linkedit_buf h) (linkedit_fileoff h)
    (linkedit_size h) x (symboltable_nr_symbols h) (stringtable_fileoff h)
    (running_mh h) (fat_offset h) (memory_size h) (kaslr_slide_set h).

Definition set_symboltable_nr_symbols (x : Z) (h : MachInfo) : MachInfo :=
  mkMachInfo (isKernel h) (running_text_addr h) (disk_text_addr h)
    (kaslr_slide h) (file_buf h) (linkedit_buf h) (linkedit_fileoff h)
    (linkedit_size h) (symboltable_fileoff h) x (stringtable_fileoff h)
    (running_mh h) (fat_offset h) (memory_size h) (kaslr_slide_set h).

Definition set_stringtable_fileoff (x : Z) (h : MachInfo) : MachInfo :=
  mkMachInfo (isKernel h) (running_text_addr h) (disk_text_addr h)
    (kaslr_slide h) (file_buf h) (linkedit_buf h) (linkedit_fileoff h)
    (linkedit_size h) (symboltable_fileoff h) (symboltable_nr_symbols h) x
    (running_mh h) (fat_offset h) (memory_size h) (kaslr_slide_set h).

Definition set_running_mh (x : Z) (h : MachInfo) : MachInfo :=
  mkMachInfo (isKernel h) (running_text_addr h) (disk_text_addr h)
    (kaslr_slide h) (file_buf h) (linkedit_buf h) (linkedit_fileoff h)
    (linkedit_size h) (symboltable_fileoff h) (symboltable_nr_symbols h)
    (stringtable_fileoff h) x (fat_offset h) (memory_size h)
    (kaslr_slide_set h).

Definition set_fat_offset (x : Z) (h : MachInfo) : MachInfo :=
  mkMachInfo (isKernel h) (running_text_addr h) (disk_text_addr h)
    (kaslr_slide h) (file_buf h) (linkedit_buf h) (linkedit_fileoff h)
    (linkedit_size h) (symboltable_fileoff h) (symboltable_nr_symbols h)
    (stringtable_fileoff h) (running_mh h) x (memory_size h)
    (kaslr_slide_set h).

Definition set_memory_size (x : Z) (h : MachInfo) : MachInfo :=
  mkMachInfo (isKernel h) (running_text_addr h) (disk_text_addr h)
    (kaslr_slide h) (file_buf h) (linkedit_buf h) (linkedit_fileoff h)
    (linkedit_size h) (symboltable_fileoff h) (symboltable_nr_symbols h)
    (stringtable_fileoff h) (running_mh h) (fat_offset h) x
    (kaslr_slide_set h).

Definition set_kaslr_slide_set (x : bool) (h : MachInfo) : MachInfo :=
  mkMachInfo (isKernel h) (running_text_addr h) (disk_text_addr h)
    (kaslr_slide h) (file_buf h) (linkedit_buf h) (linkedit_fileoff h)
    (linkedit_size h) (symboltable_fileoff h) (symboltable_nr_symbols h)
    (stringtable_fileoff h) (running_mh h) (fat_offset h) (memory_size h) x.

(** ** Machine state, trace and the monad *)

Inductive region := RLinkedit | RHeader | RKernel.

Definition vnode := Z.

Inductive event :=
| EvLoad (r : region) (addr : Z) (width : nat)
| EvCli
| EvSti
| EvGetCr0
| EvSetCr0 (v : Z)
| EvSidt
| EvVnodeLookup (path : string)
| EvVnodePut (vp : vnode).

(** The services of the running kernel and of the hardware that the methods
    call.  None of them is code of this repository; each is left arbitrary
    so that every behaviour the callers test for can occur. *)
Record Kernel := mkKernel {
  (* [sidt]: the base of the IDT *)
  idtr_base : Z;
  (* a write to cr0: current value, value written, resulting value *)
  mov_cr0 : Z -> Z -> Z;
  (* the kernel address space *)
  kmem : view;
  (* [kernproc], the current thread, its context and credential are set *)
  has_credential : bool;
  (* [Buffer::create], by size: the contents found in the new buffer, or
     null *)
  sys_buffer_create : Z -> option (list byte);
  (* [None]: a nonzero errno *)
  sys_vnode_lookup : string -> option vnode;
  (* by file offset; [false]: null *)
  sys_uio_create : Z -> bool;
  (* by size: the errno *)
  sys_uio_addiov : Z -> Z;
  (* vnode, offset, size: the errno and the bytes transferred *)
  sys_VNOP_READ : vnode -> Z -> Z -> Z * list byte;
  (* algorithm, decompressed size, compressed bytes *)
  sys_decompressData : Z -> Z -> list byte -> option (list byte)
}.

Record Machine := mkMachine {
  this : MachInfo;
  cr0 : Z;
  interrupts : bool;                   (* the interrupt flag *)
  iocounts : list vnode;               (* vnode references held, one entry each *)
  contexts : nat;                      (* live [vfs_context_t] objects *)
  trace : list event;
  kern : Kernel
}.

Inductive Res (A : Type) :=
| Ret (a : A) (m : Machine)
| Fault (m : Machine)                  (* access outside an object, in state [m] *)
| OutOfFuel.                           (* the loop or recursion did not end *)
Arguments Ret {A} a m.
Arguments Fault {A} m.
Arguments OutOfFuel {A}.

Definition M (A : Type) := Machine -> Res A.

Definition ret {A} (a : A) : M A := fun m => Ret a m.

Definition bind {A B} (c : M A) (k : A -> M B) : M B :=
  fun m => match c m with
           | Ret a m' => k a m'
           | Fault m' => Fault m'
           | OutOfFuel => OutOfFuel
           end.

Definition fault {A} : M A := fun m => Fault m.
Definition out_of_fuel {A} : M A := fun _ => OutOfFuel.

Declare Scope mach_scope.
Delimit Scope mach_scope with mach.
Notation "x <- c ;; k" := (bind c (fun x => k))
  (at level 61, c at next level, right associativity) : mach_scope.
Notation "' pat <- c ;; k" := (bind c (fun x => match x with pat => k end))
  (at level 61, pat pattern, c at next level, right associativity) : mach_scope.
Notation "c ;; k" := (bind c (fun _ => k))
  (at level 61, right associativity) : mach_scope.
Local Open Scope mach_scope.

Definition get_this : M MachInfo := fun m => Ret (this m) m.
Definition get_kern : M Kernel := fun m => Ret (kern m) m.

Definition modify_this (f : MachInfo -> MachInfo) : M unit :=
  fun m => Ret tt (mkMachine (f (this m)) (cr0 m) (interrupts m) (iocounts m)
                             (contexts m) (trace m) (kern m)).

Definition emit (e : event) : M unit :=
  fun m => Ret tt (mkMachine (this m) (cr0 m) (interrupts m) (iocounts m)
                             (contexts m) (trace m ++ [e]) (kern m)).

(** Dereference of [width] bytes at [addr] in the object [v]. *)
Definition load (r : region) (v : view) (addr : Z) (width : nat) : M Z :=
  emit (EvLoad r addr width) ;;
  match view_le v addr width with
  | Some z => ret z
  | None => fault
  end.

Definition load8 r v addr := load r v addr 1.
Definition load16 r v addr := load r v addr 2.
Definition load32 r v addr := load r v addr 4.
Definition load64 r v addr := load r v addr 8.

Definition KERN_SUCCESS : Z := 0.
Definition KERN_FAILURE : Z := 5.
Definition EINVAL : Z := 22.

(** ** libc string functions *)

(** [strlen] of a C string given by its bytes: the terminator follows the
    list, and a zero byte inside it ends the string early. *)
Fixpoint strlen (s : list byte) : Z :=
  match s with
  | [] => 0
  | c :: s' => if Z_of_byte c =? 0 then 0 else 1 + strlen s'
  end.

(** A string operand of [strncmp]: a literal or caller-owned C string, or
    the bytes at a pointer into a viewed object. *)
Inductive cstr :=
| Lit (s : list byte)
| At (r : region) (v : view) (addr : Z).

Definition cstr_get (s : cstr) (i : Z) : M Z :=
  match s with
  | Lit l => ret (Z_of_byte (nth (Z.to_nat i) l x00))
  | At r v addr => load8 r v (addr + i)
  end.

(** [strncmp(s1, s2, n)]: compares at most [n] characters and stops at the
    first difference or at a terminator. *)
Fixpoint strncmp_from (s1 s2 : cstr) (i : Z) (n : nat) : M Z :=
  match n with
  | O => ret 0
  | S n' =>
      c1 <- cstr_get s1 i ;;
      c2 <- cstr_get s2 i ;;
      if negb (c1 =? c2) then ret (c1 - c2)
      else if c1 =? 0 then ret 0
      else strncmp_from s1 s2 (i + 1) n'
  end.

Definition strncmp (s1 s2 : cstr) (n : Z) : M Z :=
  strncmp_from s1 s2 0 (Z.to_nat n).

(** ** [MachInfo::solveSymbol] *)

(** [struct nlist_64] of <mach-o/nlist.h>. *)
Definition sizeof_nlist_64 : Z := 16.
Definition nlist_64_n_strx : Z := 0.
Definition nlist_64_n_value : Z := 8.

Fixpoint solveSymbol_scan (h : MachInfo) (buf : view) (symbol : list byte)
    (symbolOff stringOff : Z) (todo : nat) (i : Z) : M Z :=
  match todo with
  | O => ret 0
  | S todo' =>
      let nlist64 := symbolOff + i * sizeof_nlist_64 in
      n_strx <- load32 RLinkedit buf (nlist64 + nlist_64_n_strx) ;;
      c <- strncmp (Lit symbol) (At RLinkedit buf (stringOff + n_strx))
                   (strlen symbol + 1) ;;
      if c =? 0 then
        n_value <- load64 RLinkedit buf (nlist64 + nlist_64_n_value) ;;
        ret (wrap64 (n_value + kaslr_slide h))
      else solveSymbol_scan h buf symbol symbolOff stringOff todo' (i + 1)
  end.

Definition solveSymbol (symbol : list byte) : M Z :=
  h <- get_this ;;
  match linkedit_buf h with
  | None => ret 0
  | Some buf =>
      if symboltable_fileoff h =? 0 then ret 0
      else if negb (kaslr_slide_set h) then ret 0
      else
        let symbolOff := wrap64 (symboltable_fileoff h - linkedit_fileoff h) in
        if symbolOff >? symboltable_fileoff h then ret 0
        else
          let stringOff := wrap64 (stringtable_fileoff h - linkedit_fileoff h) in
          if stringOff >? stringtable_fileoff h then ret 0
          else
            solveSymbol_scan h (buf_view buf) symbol symbolOff stringOff
                             (Z.to_nat (symboltable_nr_symbols h)) 0
  end.

(** ** Mach-O layout (<mach-o/loader.h>, <mach-o/fat.h>) *)

Definition MH_MAGIC_64 : Z := 0xfeedfacf.
Definition FAT_MAGIC : Z := 0xcafebabe.
Definition LC_SEGMENT_64 : Z := 0x19.
Definition LC_SYMTAB : Z := 0x2.
Definition LC_UUID : Z := 0x1b.
Definition CPU_TYPE_X86_64 : Z := 0x01000007.

Definition sizeof_mach_header_64 : Z := 32.
Definition mach_header_64_ncmds : Z := 16.
Definition load_command_cmd : Z := 0.
Definition load_command_cmdsize : Z := 4.
Definition segment_command_64_segname : Z := 8.
Definition segment_command_64_vmaddr : Z := 24.
Definition segment_command_64_fileoff : Z := 40.
Definition segment_command_64_filesize : Z := 48.
Definition symtab_command_symoff : Z := 8.
Definition symtab_command_nsyms : Z := 12.
Definition symtab_command_stroff : Z := 16.
Definition uuid_command_uuid : Z := 8.
Definition sizeof_fat_header : Z := 8.
Definition fat_header_nfat_arch : Z := 4.
Definition sizeof_fat_arch : Z := 20.
Definition fat_arch_cputype : Z := 0.
Definition fat_arch_offset : Z := 8.

Definition str_TEXT : list byte := list_byte_of_string "__TEXT".
Definition str_LINKEDIT : list byte := list_byte_of_string "__LINKEDIT".

(** ** [MachInfo::processMachHeader] *)

(** The [for] loop over the load commands: [addr] is the current command,
    [todo] the iterations left of the [ncmds].  Nothing writes to the header
    during the walk, so [mh->ncmds] is loaded once, before it. *)
Fixpoint processMachHeader_walk (r : region) (header : view) (todo : nat)
    (addr : Z) : M unit :=
  match todo with
  | O => ret tt
  | S todo' =>
      cmd <- load32 r header (addr + load_command_cmd) ;;
      (if cmd =? LC_SEGMENT_64 then
         isText <- strncmp (At r header (addr + segment_command_64_segname))
                           (Lit str_TEXT) 16 ;;
         if isText =? 0 then
           vmaddr <- load64 r header (addr + segment_command_64_vmaddr) ;;
           modify_this (set_disk_text_addr vmaddr)
         else
           isLinkedit <- strncmp (At r header (addr + segment_command_64_segname))
                                 (Lit str_LINKEDIT) 16 ;;
           if isLinkedit =? 0 then
             fileoff <- load64 r header (addr + segment_command_64_fileoff) ;;
             modify_this (set_linkedit_fileoff fileoff) ;;
             filesize <- load64 r header (addr + segment_command_64_filesize) ;;
             modify_this (set_linkedit_size filesize)
           else ret tt
       else if cmd =? LC_SYMTAB then
         symoff <- load32 r header (addr + symtab_command_symoff) ;;
         modify_this (set_symboltable_fileoff symoff) ;;
         nsyms <- load32 r header (addr + symtab_command_nsyms) ;;
         modify_this (set_symboltable_nr_symbols nsyms) ;;
         stroff <- load32 r header (addr + symtab_command_stroff) ;;
         modify_this (set_stringtable_fileoff stroff)
       else ret tt) ;;
      cmdsize <- load32 r header (addr + load_command_cmdsize) ;;
      processMachHeader_walk r header todo' (addr + cmdsize)
  end.

(** [header] is the pointer, an address in the object [mem]. *)
Definition processMachHeader (r : region) (mem : view) (header : Z) : M unit :=
  ncmds <- load32 r mem (header + mach_header_64_ncmds) ;;
  processMachHeader_walk r mem (Z.to_nat ncmds) (header + sizeof_mach_header_64).

(** ** [MachInfo::getUUID] *)

Fixpoint getUUID_walk (r : region) (mem : view) (todo : nat) (addr : Z)
    : M (option Z) :=
  match todo with
  | O => ret None
  | S todo' =>
      cmd <- load32 r mem (addr + load_command_cmd) ;;
      if cmd =? LC_UUID then ret (Some (addr + uuid_command_uuid))
      else
        cmdsize <- load32 r mem (addr + load_command_cmdsize) ;;
        getUUID_walk r mem todo' (addr + cmdsize)
  end.

(** A pointer argument: [None] is [nullptr], [Some a] the address [a] in
    the object it points into. *)
Definition pointer := option Z.

Definition pointer_of_address (a : Z) : pointer :=
  if a =? 0 then None else Some a.

(** The result is the pointer to the 16 bytes of the identifier, or null. *)
Definition getUUID (r : region) (mem : view) (header : pointer) : M (option Z) :=
  match header with
  | None => ret None
  | Some mh =>
      ncmds <- load32 r mem (mh + mach_header_64_ncmds) ;;
      getUUID_walk r mem (Z.to_nat ncmds) (mh + sizeof_mach_header_64)
  end.

(** ** Locating the running kernel *)

Definition getIDTAddress : M Z :=
  emit EvSidt ;;
  k <- get_kern ;;
  ret (idtr_base k).

(** Modelled from the spec: [descriptor_idt] is declared in
    [kern_mach.hpp]; the address of the handler is in three fields of the
    entry, laid out as the processor lays out a 64-bit interrupt gate. *)
Definition sizeof_descriptor_idt : Z := 16.
Definition descriptor_idt_offset_low : Z := 0.
Definition descriptor_idt_offset_middle : Z := 6.
Definition descriptor_idt_offset_high : Z := 8.

Definition calculateInt80Address : M Z :=
  idtAddr <- getIDTAddress ;;
  k <- get_kern ;;
  let int80Descr := idtAddr + sizeof_descriptor_idt * 0x80 in
  offset_high <- load32 RKernel (kmem k)
                        (int80Descr + descriptor_idt_offset_high) ;;
  let high := wrap64 (Z.shiftl offset_high 32) in
  offset_middle <- load16 RKernel (kmem k)
                          (int80Descr + descriptor_idt_offset_middle) ;;
  let middle := wrap32 (Z.shiftl offset_middle 16) in
  offset_low <- load16 RKernel (kmem k)
                       (int80Descr + descriptor_idt_offset_low) ;;
  ret (wrap64 (high + middle + offset_low)).

(** The backward search.  The loop variable is carried twice, as the
    address [tmp] under test and as the natural number [n] of the same
    value, which counts the loop down: the loop ends when it reaches zero. *)
Fixpoint findKernelBase_scan (mem : view) (n : nat) (tmp : Z) : M Z :=
  match n with
  | O => ret 0
  | S n' =>
      magic <- load32 RKernel mem tmp ;;
      found <-
        (if magic =? MH_MAGIC_64 then
           let segmentCommand := tmp + sizeof_mach_header_64 in
           c <- strncmp (At RKernel mem
                            (segmentCommand + segment_command_64_segname))
                        (Lit str_TEXT) 16 ;;
           ret (c =? 0)
         else ret false) ;;
      if (found : bool) then ret tmp
      else if wrap64 (tmp - 1) >? tmp then ret 0
      else findKernelBase_scan mem n' (tmp - 1)
  end.

Definition findKernelBase : M Z :=
  tmp <- calculateInt80Address ;;
  k <- get_kern ;;
  findKernelBase_scan (kmem k) (Z.to_nat tmp) tmp.

(** ** [MachInfo::getRunningAddresses] *)

Fixpoint getRunningAddresses_walk (mem : view) (mh : Z) (todo : nat)
    (addr : Z) : M unit :=
  match todo with
  | O => ret tt
  | S todo' =>
      cmd <- load32 RKernel mem (addr + load_command_cmd) ;;
      found <-
        (if cmd =? LC_SEGMENT_64 then
           c <- strncmp (At RKernel mem (addr + segment_command_64_segname))
                        (Lit str_TEXT) 16 ;;
           ret (c =? 0)
         else ret false) ;;
      if (found : bool) then
        vmaddr <- load64 RKernel mem (addr + segment_command_64_vmaddr) ;;
        modify_this (set_running_text_addr vmaddr) ;;
        modify_this (set_running_mh mh)
      else
        cmdsize <- load32 RKernel mem (addr + load_command_cmdsize) ;;
        getRunningAddresses_walk mem mh todo' (addr + cmdsize)
  end.

Definition getRunningAddresses (slide size : Z) : M Z :=
  h <- get_this ;;
  if kaslr_slide_set h then ret KERN_SUCCESS
  else
    (if size >? 0 then modify_this (set_memory_size size) else ret tt) ;;
    base <- (if negb (slide =? 0) then ret slide else findKernelBase) ;;
    (if negb (base =? 0) then
       k <- get_kern ;;
       ncmds <- load32 RKernel (kmem k) (base + mach_header_64_ncmds) ;;
       getRunningAddresses_walk (kmem k) base (Z.to_nat ncmds)
                                (base + sizeof_mach_header_64)
     else ret tt) ;;
    h <- get_this ;;
    if negb (running_text_addr h =? 0) && negb (running_mh h =? 0) then
      (if slide =? 0 then
         modify_this (set_kaslr_slide
                        (wrap64 (running_text_addr h - disk_text_addr h)))
       else modify_this (set_kaslr_slide slide)) ;;
      modify_this (set_kaslr_slide_set true) ;;
      ret KERN_SUCCESS
    else ret KERN_FAILURE.

(** ** [MachInfo::isCurrentKernel] *)

Definition isCurrentKernel (kernelHeader : list byte) : M bool :=
  kernelBase <- findKernelBase ;;
  k <- get_kern ;;
  (* the header buffer is a non-null pointer to the start of its object *)
  uuid1 <- getUUID RHeader (buf_view kernelHeader) (Some 0) ;;
  uuid2 <- getUUID RKernel (kmem k) (pointer_of_address kernelBase) ;;
  match uuid1, uuid2 with
  | Some p1, Some p2 =>
      a0 <- load64 RHeader (buf_view kernelHeader) p1 ;;
      b0 <- load64 RKernel (kmem k) p2 ;;
      if a0 =? b0 then
        a1 <- load64 RHeader (buf_view kernelHeader) (p1 + 8) ;;
        b1 <- load64 RKernel (kmem k) (p2 + 8) ;;
        ret (a1 =? b1)
      else ret false
  | _, _ => ret false
  end.

(** ** Write protection: [MachInfo::setWPBit], [MachInfo::setKernelWriting] *)

Definition CR0_WP : Z := 0x00010000.

Definition get_cr0 : M Z :=
  emit EvGetCr0 ;;
  fun m => Ret (cr0 m) m.

Definition set_cr0 (v : Z) : M unit :=
  emit (EvSetCr0 v) ;;
  fun m => Ret tt (mkMachine (this m) (mov_cr0 (kern m) (cr0 m) v)
                             (interrupts m) (iocounts m) (contexts m)
                             (trace m) (kern m)).

Definition cli : M unit :=
  emit EvCli ;;
  fun m => Ret tt (mkMachine (this m) (cr0 m) false (iocounts m) (contexts m)
                             (trace m) (kern m)).

Definition sti : M unit :=
  emit EvSti ;;
  fun m => Ret tt (mkMachine (this m) (cr0 m) true (iocounts m) (contexts m)
                             (trace m) (kern m)).

Definition setWPBit (enable : bool) : M Z :=
  cr0 <- get_cr0 ;;
  let cr0 := if enable then Z.lor cr0 CR0_WP
             else Z.land cr0 (Z.lnot CR0_WP) in
  set_cr0 cr0 ;;
  (* ((get_cr0() & CR0_WP) != 0 && enable)
     || ((get_cr0() & CR0_WP) == 0 && !enable) *)
  v1 <- get_cr0 ;;
  if negb (Z.land v1 CR0_WP =? 0) && enable then ret KERN_SUCCESS
  else
    v2 <- get_cr0 ;;
    if (Z.land v2 CR0_WP =? 0) && negb enable then ret KERN_SUCCESS
    else ret KERN_FAILURE.

Definition setKernelWriting (enable : bool) : M Z :=
  (if enable then cli else ret tt) ;;
  r <- setWPBit (negb enable) ;;
  let '(enable, res) :=
    if negb (r =? KERN_SUCCESS) then (false, KERN_FAILURE)
    else (enable, KERN_SUCCESS) in
  (if negb enable then sti else ret tt) ;;
  ret res.

(** ** File access *)

(** A buffer of exactly [n] bytes with the contents [junk] the allocator
    left in it. *)
Definition resize (n : Z) (junk : list byte) : list byte :=
  firstn (Z.to_nat n) junk ++ zeros (Z.to_nat n - List.length junk).

Definition Buffer_create (n : Z) : M (option (list byte)) :=
  k <- get_kern ;;
  ret (option_map (resize n) (sys_buffer_create k n)).

(** The [n] bytes at [off] of [buf], when they lie inside it. *)
Definition slice (buf : list byte) (off n : Z) : option (list byte) :=
  if (0 <=? off) && (0 <=? n) && (off + n <=? Z.of_nat (List.length buf))
  then Some (firstn (Z.to_nat n) (skipn (Z.to_nat off) buf))
  else None.

(** [memcpy(dst, src + off, n)]: the new contents of [dst]. *)
Definition memcpy (dst src : list byte) (off n : Z) : M (list byte) :=
  match slice src off n with
  | Some bytes => ret (bytes ++ skipn (List.length bytes) dst)
  | None => fault
  end.

Definition vfs_context_create : M unit :=
  fun m => Ret tt (mkMachine (this m) (cr0 m) (interrupts m) (iocounts m)
                             (S (contexts m)) (trace m) (kern m)).

Definition vfs_context_rele : M unit :=
  fun m => Ret tt (mkMachine (this m) (cr0 m) (interrupts m) (iocounts m)
                             (Nat.pred (contexts m)) (trace m) (kern m)).

(** A successful lookup returns the vnode with an iocount taken on it. *)
Definition vnode_lookup (path : string) : M (option vnode) :=
  emit (EvVnodeLookup path) ;;
  k <- get_kern ;;
  match sys_vnode_lookup k path with
  | Some vp =>
      fun m => Ret (Some vp)
                   (mkMachine (this m) (cr0 m) (interrupts m) (vp :: iocounts m)
                              (contexts m) (trace m) (kern m))
  | None => ret None
  end.

Fixpoint drop_one (vp : vnode) (l : list vnode) : list vnode :=
  match l with
  | [] => []
  | x :: l' => if x =? vp then l' else x :: drop_one vp l'
  end.

Definition vnode_put (vp : vnode) : M unit :=
  emit (EvVnodePut vp) ;;
  fun m => Ret tt (mkMachine (this m) (cr0 m) (interrupts m)
                             (drop_one vp (iocounts m)) (contexts m) (trace m)
                             (kern m)).

(** [MachInfo::readFileData]: the errno and the new contents of [buffer]. *)
Definition readFileData (buffer : list byte) (off sz : Z) (vp : vnode)
    : M (Z * list byte) :=
  let error := 0 in
  k <- get_kern ;;
  if negb (sys_uio_create k off) then ret (error, buffer)
  else
    let error := sys_uio_addiov k sz in
    if negb (error =? 0) then ret (error, buffer)
    else
      let '(error, data) := sys_VNOP_READ k vp off sz in
      let got := firstn (Z.to_nat sz) data in
      let buffer := got ++ skipn (List.length got) buffer in
      let uio_resid := sz - Z.of_nat (List.length got) in
      if negb (error =? 0) then ret (error, buffer)
      else if negb (uio_resid =? 0) then ret (EINVAL, buffer)
      else ret (error, buffer).

(** [MachInfo::readLinkedit] *)
Definition readLinkedit (vp : vnode) : M Z :=
  h <- get_this ;;
  b <- Buffer_create (linkedit_size h) ;;
  modify_this (set_linkedit_buf b) ;;
  match b with
  | None => ret KERN_FAILURE
  | Some buf =>
      match file_buf h with
      | None =>
          '(error, buf) <- readFileData buf
                             (wrap64 (fat_offset h + linkedit_fileoff h))
                             (linkedit_size h) vp ;;
          modify_this (set_linkedit_buf (Some buf)) ;;
          if negb (error =? 0) then ret KERN_FAILURE
          else ret KERN_SUCCESS
      | Some fb =>
          buf <- memcpy buf fb (linkedit_fileoff h) (linkedit_size h) ;;
          modify_this (set_linkedit_buf (Some buf)) ;;
          ret KERN_SUCCESS
      end
  end.

Definition deinit : M unit :=
  modify_this (set_linkedit_buf None).

Section Declarations.

(** Constants and the layout of [CompressedHeader], which [kern_mach.hpp]
    declares. *)
Variable HeaderSize : Z.
Variable CompressedMagic : Z.
Variable sizeof_CompressedHeader : Z.
Variable CompressedHeader_compression : Z.
Variable CompressedHeader_decompressed : Z.
Variable CompressedHeader_compressed : Z.

(** The search of the [fat_arch] records for the x86_64 slice: the file
    offset of the first one found. *)
Fixpoint readMachHeader_arch (buffer : view) (todo : nat) (i : Z)
    : M (option Z) :=
  match todo with
  | O => ret None
  | S todo' =>
      let arch := i * sizeof_fat_arch + sizeof_fat_header in
      cputype <- load32 RHeader buffer (arch + fat_arch_cputype) ;;
      if OSSwapInt32 cputype =? CPU_TYPE_X86_64 then
        offset <- load32 RHeader buffer (arch + fat_arch_offset) ;;
        ret (Some (OSSwapInt32 offset))
      else readMachHeader_arch buffer todo' (i + 1)
  end.

(** [MachInfo::readMachHeader]: the result and the new contents of
    [buffer].  [fuel] bounds the depth of the recursion and the turns of
    the [while (1)] loop, which the source leaves unbounded. *)
Fixpoint readMachHeader (fuel : nat) (buffer : list byte) (vp : vnode)
    (off : Z) {struct fuel} : M (Z * list byte) :=
  match fuel with
  | O => out_of_fuel
  | S fuel' =>
      '(error, buffer) <- readFileData buffer off HeaderSize vp ;;
      if negb (error =? 0) then ret (KERN_FAILURE, buffer)
      else
        (fix loop (n : nat) (buffer : list byte) {struct n}
           : M (Z * list byte) :=
           match n with
           | O => out_of_fuel
           | S n' =>
               magic <- load32 RHeader (buf_view buffer) 0 ;;
               if magic =? MH_MAGIC_64 then
                 modify_this (set_fat_offset off) ;;
                 ret (KERN_SUCCESS, buffer)
               else if magic =? FAT_MAGIC then
                 nfat_arch <- load32 RHeader (buf_view buffer)
                                     fat_header_nfat_arch ;;
                 r <- readMachHeader_arch (buf_view buffer)
                        (Z.to_nat (OSSwapInt32 nfat_arch)) 0 ;;
                 match r with
                 | Some offset => readMachHeader fuel' buffer vp offset
                 | None => ret (KERN_FAILURE, buffer)
                 end
               else if magic =? CompressedMagic then
                 compressed <- load32 RHeader (buf_view buffer)
                                      CompressedHeader_compressed ;;
                 let compressed := OSSwapInt32 compressed in
                 cb <- Buffer_create compressed ;;
                 match cb with
                 | None => ret (KERN_FAILURE, buffer)
                 | Some compressedBuf =>
                     '(error, compressedBuf) <-
                        readFileData compressedBuf
                          (wrap64 (off + sizeof_CompressedHeader))
                          compressed vp ;;
                     if negb (error =? KERN_SUCCESS) then
                       ret (KERN_FAILURE, buffer)
                     else
                       compression <- load32 RHeader (buf_view buffer)
                                             CompressedHeader_compression ;;
                       decompressed <- load32 RHeader (buf_view buffer)
                                              CompressedHeader_decompressed ;;
                       k <- get_kern ;;
                       let fb := sys_decompressData k compression
                                   (OSSwapInt32 decompressed)
                                   compressedBuf in
                       modify_this (set_file_buf fb) ;;
                       match fb with
                       | Some f =>
                           buffer <- memcpy buffer f 0 HeaderSize ;;
                           loop n' buffer
                       | None => ret (KERN_FAILURE, buffer)
                       end
                 end
               else ret (KERN_FAILURE, buffer)
           end) fuel' buffer
  end.

(** The [for] loop of [MachInfo::init] over the candidate paths: the
    vnode of the candidate it stopped at ([break]) and the header read
    from it, or [None] when the list is exhausted. *)
Fixpoint init_search (fuel : nat) (machHeader : list byte)
    (paths : list string) : M (option vnode * list byte) :=
  match paths with
  | [] => ret (None, machHeader)
  | path :: rest =>
      vfs_context_create ;;
      vp <- vnode_lookup path ;;
      '(found, machHeader) <-
        match vp with
        | Some vnode =>
            '(readError, machHeader) <- readMachHeader fuel machHeader vnode 0 ;;
            if readError =? KERN_SUCCESS then
              h <- get_this ;;
              mismatch <- (if isKernel h then
                             cur <- isCurrentKernel machHeader ;;
                             ret (negb cur)
                           else ret false) ;;
              if (mismatch : bool) then
                vnode_put vnode ;;
                ret (None, machHeader)
              else ret (Some vnode, machHeader)
            else ret (None, machHeader)
        | None => ret (None, machHeader)
        end ;;
      match found with
      | Some vnode => ret (Some vnode, machHeader)
      | None =>
          vfs_context_rele ;;
          init_search fuel machHeader rest
      end
  end.

(** [MachInfo::init] *)
Definition init (fuel : nat) (paths : list string) : M Z :=
  let error := KERN_FAILURE in
  k <- get_kern ;;
  if negb (has_credential k) then ret error
  else
    mh <- Buffer_create HeaderSize ;;
    match mh with
    | None => ret error
    | Some machHeader =>
        '(found, machHeader) <- init_search fuel machHeader paths ;;
        match found with
        | None => ret error
        | Some vnode =>
            processMachHeader RHeader (buf_view machHeader) 0 ;;
            h <- get_this ;;
            error <-
              (if negb (linkedit_fileoff h =? 0)
                  && negb (symboltable_fileoff h =? 0)
               then readLinkedit vnode
               else ret error) ;;
            vfs_context_rele ;;
            vnode_put vnode ;;
            modify_this (set_file_buf None) ;;
            ret error
        end
    end.

End Declarations.

(** ** What a header walk visits *)

(** The addresses of [n] load commands from [addr] on: each is the one
    before plus the size that one declares. *)
Fixpoint command_addresses (header : view) (n : nat) (addr : Z) : list Z :=
  match n with
  | O => []
  | S n' =>
      addr ::
      match view_le header (addr + load_command_cmdsize) 4 with
      | Some cmdsize => command_addresses header n' (addr + cmdsize)
      | None => []
      end
  end.

(** A computation that comes to an end, by a return or at a fault, in
    every state. *)
Definition ends {A} (c : M A) : Prop :=
  forall m, c m <> OutOfFuel.

(** A computation that never shortens the trace. *)
Definition extends_trace {A} (c : M A) : Prop :=
  forall m a m', c m = Ret a m' -> exists t, trace m' = trace m ++ t.

(** ** What the symbol table of a handle holds

    The link-edit buffer read as data: the records of the symbol table and
    the names they point to.  These definitions state what [solveSymbol] is
    expected to find; they are not used by the embedding above. *)

(** The C string [s], without terminator inside, stored at [a] and
    followed by its terminator. *)
Fixpoint cstring_at (v : view) (a : Z) (s : list byte) : bool :=
  match v a with
  | None => false
  | Some b =>
      match s with
      | [] => Z_of_byte b =? 0
      | c :: s' =>
          (Z_of_byte b =? Z_of_byte c) && negb (Z_of_byte c =? 0)
          && cstring_at v (a + 1) s'
      end
  end.

Definition symbolOff_of (h : MachInfo) : Z :=
  symboltable_fileoff h - linkedit_fileoff h.

Definition stringOff_of (h : MachInfo) : Z :=
  stringtable_fileoff h - linkedit_fileoff h.

(** Record [i] of the symbol table of [h] is named [s]. *)
Definition symbol_named (h : MachInfo) (buf : list byte) (i : Z)
    (s : list byte) : bool :=
  match view_le (buf_view buf) (symbolOff_of h + i * sizeof_nlist_64) 4 with
  | Some n_strx => cstring_at (buf_view buf) (stringOff_of h + n_strx) s
  | None => false
  end.

(** The static value of record [i]. *)
Definition symbol_value (h : MachInfo) (buf : list byte) (i : Z) : option Z :=
  view_le (buf_view buf) (symbolOff_of h + i * sizeof_nlist_64 + 8) 8.

(** The scan of [solveSymbol] at the offsets relative to the buffer. *)
Definition scan_table (h : MachInfo) (buf symbol : list byte)
    : nat -> Z -> M Z :=
  solveSymbol_scan h (buf_view buf) symbol (symbolOff_of h) (stringOff_of h).

(** The preconditions of resolution: buffer loaded, symbol table recorded
    inside the link-edit region, slide known. *)
Definition resolvable (h : MachInfo) (buf : list byte) : Prop :=
  linkedit_buf h = Some buf /\
  symboltable_fileoff h <> 0 /\
  kaslr_slide_set h = true /\
  linkedit_fileoff h <= symboltable_fileoff h /\
  linkedit_fileoff h <= stringtable_fileoff h.

(** Everything of a machine but its trace. *)
Definition with_trace (m : Machine) (t : list event) : Machine :=
  mkMachine (this m) (cr0 m) (interrupts m) (iocounts m) (contexts m) t
            (kern m).

(** A C string proper: no terminator among its characters. *)
Definition c_string (s : list byte) : Prop :=
  Forall (fun c => Z_of_byte c <> 0) s.

(** A computation that at most extends the trace: it ends, normally or at
    a fault, in the state it started from. *)
Definition reads_only {A} (c : M A) : Prop :=
  forall m, exists t,
    (exists a, c m = Ret a (with_trace m (trace m ++ t)))
    \/ c m = Fault (with_trace m (trace m ++ t)).


(** ** A concrete system

    A running kernel whose header sits at [0x5000], the file it was booted
    from, and the kernel services around them. *)

Definition bytes_of (s : string) : list byte := list_byte_of_string s.

(** A 16-byte segment name. *)
Definition segname16 (s : string) : list byte :=
  bytes_of s ++ zeros (16 - String.length s).

Definition mach_header_64_bytes (ncmds sizeofcmds : Z) : list byte :=
  le32 MH_MAGIC_64 ++ le32 CPU_TYPE_X86_64 ++ le32 3 ++ le32 2
  ++ le32 ncmds ++ le32 sizeofcmds ++ le32 0 ++ le32 0.

Definition segment_command_64_bytes (name : string)
    (vmaddr vmsize fileoff filesize : Z) : list byte :=
  le32 LC_SEGMENT_64 ++ le32 72 ++ segname16 name
  ++ le64 vmaddr ++ le64 vmsize ++ le64 fileoff ++ le64 filesize
  ++ le32 7 ++ le32 5 ++ le32 0 ++ le32 0.

Definition symtab_command_bytes (cmdsize symoff nsyms stroff strsize : Z)
    : list byte :=
  le32 LC_SYMTAB ++ le32 cmdsize ++ le32 symoff ++ le32 nsyms ++ le32 stroff
  ++ le32 strsize.

Definition uuid_command_bytes (lo hi : Z) : list byte :=
  le32 LC_UUID ++ le32 24 ++ le64 lo ++ le64 hi.

Definition nlist_64_bytes (n_strx n_value : Z) : list byte :=
  le32 n_strx ++ [x0f; x01] ++ le16 0 ++ le64 n_value.

Definition pad_to (n : nat) (l : list byte) : list byte :=
  l ++ zeros (n - List.length l).

Definition demo_HeaderSize : Z := 8192.

(** [__LINKEDIT] of the file: two symbols, "foobar" before "foo". *)
Definition demo_linkedit : list byte :=
  Eval vm_compute in
  (nlist_64_bytes 1 0x2020 ++ nlist_64_bytes 8 0x1010
   ++ [x00] ++ bytes_of "foobar" ++ [x00] ++ bytes_of "foo" ++ [x00]).

Definition demo_file_header : list byte :=
  Eval vm_compute in
  (mach_header_64_bytes 4 192
   ++ segment_command_64_bytes "__TEXT" 0x1000 0x2000 0 8192
   ++ segment_command_64_bytes "__LINKEDIT" 0x3000 0x1000 8192 44
   ++ symtab_command_bytes 24 8192 2 8224 12
   ++ uuid_command_bytes 0x1122334455667788 0x99aabbccddeeff00).

Definition demo_file : list byte :=
  Eval vm_compute in
  (pad_to (Z.to_nat demo_HeaderSize) demo_file_header ++ demo_linkedit).

(** A file that opens and is large enough, but is no Mach-O image. *)
Definition demo_junk_file : list byte :=
  Eval vm_compute in
  (pad_to (Z.to_nat demo_HeaderSize) (bytes_of "#!/bin/sh")).

(** The header of the running kernel, slid by [0x4000]. *)
Definition demo_running_header : list byte :=
  Eval vm_compute in
  (mach_header_64_bytes 2 96
   ++ segment_command_64_bytes "__TEXT" 0x5000 0x2000 0 8192
   ++ uuid_command_bytes 0x1122334455667788 0x99aabbccddeeff00).

(** The IDT: gate [0x80] points to [0x5100], inside the kernel text. *)
Definition demo_idt : list byte :=
  Eval vm_compute in
  (zeros (16 * 128)
   ++ le16 0x5100 ++ le16 8 ++ [x00; x8e] ++ le16 0 ++ le32 0 ++ le32 0).

Definition demo_kmem : view :=
  fun a =>
    if (0x5000 <=? a) && (a <? 0x7000) then
      Some (nth (Z.to_nat (a - 0x5000)) demo_running_header x00)
    else if (0x8000 <=? a) && (a <? 0x9000) then
      Some (nth (Z.to_nat (a - 0x8000)) demo_idt x00)
    else None.

Definition demo_good_vnode : vnode := 7.
Definition demo_junk_vnode : vnode := 9.

Definition demo_lookup (path : string) : option vnode :=
  if String.eqb path "/good/path" then Some demo_good_vnode
  else if String.eqb path "/junk/path" then Some demo_junk_vnode
  else None.

Definition demo_contents (vp : vnode) : list byte :=
  if vp =? demo_good_vnode then demo_file
  else if vp =? demo_junk_vnode then demo_junk_file
  else [].

(** A read of a regular file: the bytes between [off] and the end of the
    file, at most [sz] of them. *)
Definition demo_read (vp : vnode) (off sz : Z) : Z * list byte :=
  (0, firstn (Z.to_nat sz) (skipn (Z.to_nat off) (demo_contents vp))).

Definition demo_kernel : Kernel :=
  mkKernel 0x8000 (fun _ v => v) demo_kmem true
           (fun _ => Some []) demo_lookup (fun _ => true) (fun _ => 0)
           demo_read (fun _ _ _ => None).

(** Modelled from the spec: the member initialisers are in
    [kern_mach.hpp]; every field starts at its "absent" value. *)
Definition MachInfo_new (isKernel : bool) : MachInfo :=
  mkMachInfo isKernel 0 0 0 None None 0 0 0 0 0 0 0 0 false.

Definition demo_boot : Machine :=
  mkMachine (MachInfo_new true) 0x80010033 true [] 0 [] demo_kernel.

(** The handle once [init] and [getRunningAddresses] are done. *)
Definition demo_handle : MachInfo :=
  mkMachInfo true 0x5000 0x1000 0x4000 None (Some demo_linkedit)
             8192 44 8192 2 8224 0x5000 0 0 true.

Definition demo_ready : Machine :=
  mkMachine demo_handle 0x80010033 true [] 0 [] demo_kernel.

Definition demo_init := init demo_HeaderSize 0x706D6F63 0x180 4 12 16.

(** A kernel booted without KASLR, and a table whose only symbol "foo" is
    undefined ([N_UNDF | N_EXT], value 0). *)
Definition demo_unslid_linkedit : list byte :=
  Eval vm_compute in
  (le32 1 ++ [x01; x00] ++ le16 0 ++ le64 0
   ++ [x00] ++ bytes_of "foo" ++ [x00]).

Definition demo_unslid_handle : MachInfo :=
  mkMachInfo true 0x1000 0x1000 0 None (Some demo_unslid_linkedit)
             8192 21 8192 1 8208 0x1000 0 0 true.

Definition demo_unslid : Machine :=
  mkMachine demo_unslid_handle 0x80010033 true [] 0 [] demo_kernel.

(** A handle whose symbol table was recorded before the link-edit region
    of the file. *)
Definition demo_underflow_handle : MachInfo :=
  mkMachInfo true 0x5000 0x1000 0x4000 None (Some demo_linkedit)
             8192 44 4096 2 8224 0x5000 0 0 true.

Definition demo_underflow : Machine :=
  mkMachine demo_underflow_handle 0x80010033 true [] 0 [] demo_kernel.

(** The handle after [init], before the slide is computed. *)
Definition demo_loaded_handle : MachInfo :=
  mkMachInfo true 0 0x1000 0 None (Some demo_linkedit)
             8192 44 8192 2 8224 0 0 0 false.

Definition demo_loaded : Machine :=
  mkMachine demo_loaded_handle 0x80010033 true [] 0 [] demo_kernel.

(** The write-protect bit of a value of [cr0] is set. *)
Definition wp_set (c : Z) : bool := negb (Z.land c CR0_WP =? 0).

(** A computation that leaves the static text address alone. *)
Definition keeps_disk {A} (c : M A) : Prop :=
  forall m a m', c m = Ret a m' ->
                 disk_text_addr (this m') = disk_text_addr (this m).

(** Tests on the outcome of a run, for the evaluation of concrete systems. *)
Definition returns {A} (r : Res A) (p : A -> Machine -> bool) : bool :=
  match r with
  | Ret a m => p a m
  | _ => false
  end.

Definition faults {A} (r : Res A) (p : Machine -> bool) : bool :=
  match r with
  | Fault m => p m
  | _ => false
  end.

(** The addresses loaded from, in order. *)
Definition load_addresses (t : list event) : list Z :=
  flat_map (fun e => match e with EvLoad _ a _ => [a] | _ => [] end) t.

(** The vnodes released with [vnode_put], in order. *)
Definition vnode_puts (t : list event) : list vnode :=
  flat_map (fun e => match e with EvVnodePut vp => [vp] | _ => [] end) t.

Fixpoint list_eqb {A} (eqb : A -> A -> bool) (l1 l2 : list A) : bool :=
  match l1, l2 with
  | [], [] => true
  | x :: l1', y :: l2' => eqb x y && list_eqb eqb l1' l2'
  | _, _ => false
  end.

(** A header whose first load command declares a size of zero, followed
    by the text segment. *)
Definition demo_zero_cmdsize_header : list byte :=
  Eval vm_compute in
  (pad_to (Z.to_nat demo_HeaderSize)
     (mach_header_64_bytes 2 96
      ++ symtab_command_bytes 0 8192 2 8224 12
      ++ segment_command_64_bytes "__TEXT" 0x1000 0x2000 0 8192)).

(** A header whose first load command declares a size that reaches beyond
    the [HeaderSize] bytes read from the file. *)
Definition demo_huge_cmdsize_header : list byte :=
  Eval vm_compute in
  (pad_to (Z.to_nat demo_HeaderSize)
     (mach_header_64_bytes 2 96
      ++ symtab_command_bytes 0x4000 8192 2 8224 12
      ++ segment_command_64_bytes "__TEXT" 0x1000 0x2000 0 8192)).

(** A kernel in which [uio_create] returns null for the read of
    [__LINKEDIT], at file offset 8192. *)
Definition demo_kernel_no_uio : Kernel :=
  mkKernel 0x8000 (fun _ v => v) demo_kmem true
           (fun _ => Some []) demo_lookup (fun off => off <? 8192)
           (fun _ => 0) demo_read (fun _ _ _ => None).

Definition demo_boot_no_uio : Machine :=
  mkMachine (MachInfo_new true) 0x80010033 true [] 0 [] demo_kernel_no_uio.

(** The handle after [processMachHeader], before [readLinkedit]. *)
Definition demo_parsed_handle : MachInfo :=
  mkMachInfo true 0 0x1000 0 None None 8192 44 8192 2 8224 0 0 0 false.

Definition demo_no_uio : Machine :=
  mkMachine demo_parsed_handle 0x80010033 true [demo_good_vnode] 1 []
            demo_kernel_no_uio.

(** A processor, or a hypervisor under it, that keeps the write-protect
    bit set whatever is written to [cr0]. *)
Definition demo_kernel_pinned_wp : Kernel :=
  mkKernel 0x8000 (fun _ v => Z.lor v CR0_WP) demo_kmem true
           (fun _ => Some []) demo_lookup (fun _ => true) (fun _ => 0)
           demo_read (fun _ _ _ => None).

Definition demo_pinned_wp : Machine :=
  mkMachine demo_handle 0x80010033 true [] 0 [] demo_kernel_pinned_wp.

Definition option_eqb {A} (eqb : A -> A -> bool) (o1 o2 : option A) : bool :=
  match o1, o2 with
  | Some x, Some y => eqb x y
  | None, None => true
  | _, _ => false
  end.

(** The state in which [init] reads the header of a candidate: a context
    created and the lookup of [path] done, with an iocount taken on [vp]. *)
Definition looked_up (path : string) (vp : vnode) (m : Machine) : Machine :=
  mkMachine (this m) (cr0 m) (interrupts m) (vp :: iocounts m)
            (S (contexts m)) (trace m ++ [EvVnodeLookup path]) (kern m).

(** The context of a candidate released, and nothing else. *)
Definition context_released (m : Machine) : Machine :=
  mkMachine (this m) (cr0 m) (interrupts m) (iocounts m)
            (Nat.pred (contexts m)) (trace m) (kern m).

(** ** Further definitions: the rest of [MachInfo] and what its methods find *)

Section Position.

Variable HeaderSize : Z.

(** [MachInfo::getRunningPosition]: the two reference parameters, [header]
    and [size], as the result. *)
Definition getRunningPosition : M (Z * Z) :=
  h <- get_this ;;
  ret (running_mh h,
       if memory_size h >? 0 then memory_size h else HeaderSize).

End Position.

(** A computation that, when it returns, leaves the observation [f] of the
    machine as it was. *)
Definition preserves {A B} (f : Machine -> B) (c : M A) : Prop :=
  forall m a m', c m = Ret a m' -> f m' = f m.

(** The command code of the load command at [a]. *)
Definition command_at (mem : view) (a : Z) : option Z :=
  view_le mem (a + load_command_cmd) 4.

(** What [findKernelBase] looks for at an address: the magic number of a
    64-bit header, and "__TEXT" as the segment name of the command that
    follows the header. *)
Definition kernel_signature (mem : view) (a : Z) : bool :=
  match view_le mem a 4 with
  | Some magic =>
      (magic =? MH_MAGIC_64)
      && cstring_at mem (a + sizeof_mach_header_64 + segment_command_64_segname)
                    str_TEXT
  | None => false
  end.

(** The load command at [a] is the segment command of "__TEXT". *)
Definition text_segment_at (mem : view) (a : Z) : bool :=
  match command_at mem a with
  | Some cmd =>
      (cmd =? LC_SEGMENT_64)
      && cstring_at mem (a + segment_command_64_segname) str_TEXT
  | None => false
  end.

(** The fields of the handle that parsing a header does not assign. *)
Definition unparsed_fields (h : MachInfo) :=
  (isKernel h, running_text_addr h, kaslr_slide h, file_buf h, linkedit_buf h,
   running_mh h, fat_offset h, memory_size h, kaslr_slide_set h).

(** The machine around the handle, the trace apart. *)
Definition surroundings (m : Machine) :=
  (cr0 m, interrupts m, iocounts m, contexts m, kern m).

(** A handle whose file was decompressed: the whole image is in
    [file_buf]. *)
Definition demo_decompressed_handle : MachInfo :=
  mkMachInfo true 0 0x1000 0 (Some demo_file) None 8192 44 8192 2 8224 0 0 0
             false.

Definition demo_decompressed : Machine :=
  mkMachine demo_decompressed_handle 0x80010033 true [demo_good_vnode] 1 []
            demo_kernel.

(** The fields of the handle that reading a header does not assign: all
    but the decompressed image and the container offset. *)
Definition unread_fields (h : MachInfo) :=
  (isKernel h, running_text_addr h, disk_text_addr h, kaslr_slide h,
   linkedit_buf h, linkedit_fileoff h, linkedit_size h,
   symboltable_fileoff h, symboltable_nr_symbols h, stringtable_fileoff h,
   running_mh h, memory_size h, kaslr_slide_set h).

(** What holds of a header read that returned [r] with the buffer
    [buffer'], from the state [m] to the state [m']. *)
Definition header_read (m : Machine) (r : Z) (buffer' : list byte)
    (m' : Machine) : Prop :=
  (r = KERN_SUCCESS \/ r = KERN_FAILURE)
  /\ (r = KERN_SUCCESS ->
      view_le (buf_view buffer') 0 4 = Some MH_MAGIC_64)
  /\ surroundings m' = surroundings m
  /\ unread_fields (this m') = unread_fields (this m).

(** The processor state and the services of the system: what no file
    operation changes. *)
Definition processor (m : Machine) :=
  (cr0 m, interrupts m, kern m).

(** The machine with another handle. *)
Definition with_this (m : Machine) (h : MachInfo) : Machine :=
  mkMachine h (cr0 m) (interrupts m) (iocounts m) (contexts m) (trace m)
            (kern m).

Definition res_with_this {A} (r : Res A) (h : MachInfo) : Res A :=
  match r with
  | Ret a m => Ret a (with_this m h)
  | Fault m => Fault (with_this m h)
  | OutOfFuel => OutOfFuel
  end.

(** A computation that neither reads nor assigns the handle: run with
    another handle, it does the same and leaves that handle in place. *)
Definition handle_blind {A} (c : M A) : Prop :=
  forall m h, c (with_this m h) = res_with_this (c m) h.

(** The header at [base] declares its text at [v]: among its [ncmds] load
    commands, each at the distance the one before declares, the first
    segment command named "__TEXT" has [v] as its [vmaddr]. *)
Definition text_found_at (mem : view) (base v : Z) : Prop :=
  exists ncmds before a rest,
    view_le mem (base + mach_header_64_ncmds) 4 = Some ncmds
    /\ command_addresses mem (Z.to_nat ncmds) (base + sizeof_mach_header_64)
       = before ++ a :: rest
    /\ Forall (fun b => text_segment_at mem b = false) before
    /\ text_segment_at mem a = true
    /\ view_le mem (a + segment_command_64_vmaddr) 8 = Some v.

(** The machine with [linkedit_buf] assigned and nothing else changed. *)
Definition with_linkedit_buf (m : Machine) (b : option (list byte))
    : Machine :=
  mkMachine (set_linkedit_buf b (this m)) (cr0 m) (interrupts m) (iocounts m)
            (contexts m) (trace m) (kern m).

(** * Properties *)

(** ** Bytes and machine integers *)

Lemma Z_of_byte_range (b : byte) : 0 <= Z_of_byte b < 256.
Proof. destruct b; vm_compute; split; congruence. Qed.

Lemma Z_of_byte_inj (a b : byte) : Z_of_byte a = Z_of_byte b -> a = b.
Proof.
  unfold Z_of_byte. intros H. apply N2Z.inj in H.
  pose proof (Byte.of_to_N a) as Ha. pose proof (Byte.of_to_N b) as Hb.
  rewrite H in Ha. congruence.
Qed.

Lemma wrap64_small (z : Z) : u64 z -> wrap64 z = z.
Proof. unfold u64, wrap64. intros H. apply Z.mod_small. exact H. Qed.

Lemma wrap64_underflow (a b : Z) :
  u64 a -> u64 b -> a < b -> wrap64 (a - b) > a.
Proof.
  unfold u64, wrap64. intros Ha Hb Hlt.
  replace (a - b) with (a - b + 2 ^ 64 + (-1) * 2 ^ 64) by ring.
  rewrite Z.mod_add by lia. rewrite Z.mod_small; lia.
Qed.

(** ** The monad *)

Lemma with_trace_id (m : Machine) : with_trace m (trace m) = m.
Proof. destruct m. reflexivity. Qed.

Lemma with_trace_app_nil (m : Machine) : with_trace m (trace m ++ []) = m.
Proof. rewrite app_nil_r. apply with_trace_id. Qed.

Lemma reads_only_ret {A} (a : A) : reads_only (ret a).
Proof.
  intros m. exists []. left. exists a. rewrite with_trace_app_nil. reflexivity.
Qed.

Lemma reads_only_bind {A B} (c : M A) (k : A -> M B) :
  reads_only c -> (forall a, reads_only (k a)) -> reads_only (bind c k).
Proof.
  intros Hc Hk m. destruct (Hc m) as [t [[a Ha] | Hf]]; unfold bind.
  - rewrite Ha. destruct (Hk a (with_trace m (trace m ++ t))) as [t' H].
    exists (t ++ t'). simpl in H. rewrite <- app_assoc in H. exact H.
  - rewrite Hf. exists t. right. reflexivity.
Qed.

Lemma load_eq r v a w m :
  load r v a w m =
  match view_le v a w with
  | Some z => Ret z (with_trace m (trace m ++ [EvLoad r a w]))
  | None => Fault (with_trace m (trace m ++ [EvLoad r a w]))
  end.
Proof. unfold load, bind, emit. simpl. destruct (view_le v a w); reflexivity. Qed.

Lemma reads_only_load r v a w : reads_only (load r v a w).
Proof.
  intros m. exists [EvLoad r a w]. rewrite load_eq.
  destruct (view_le v a w); [left; eexists|right]; reflexivity.
Qed.

Lemma reads_only_cstr_get s i : reads_only (cstr_get s i).
Proof. destruct s; simpl; [apply reads_only_ret | apply reads_only_load]. Qed.

Lemma reads_only_strncmp_from s1 s2 n :
  forall i, reads_only (strncmp_from s1 s2 i n).
Proof.
  induction n as [|n IH]; intros i; simpl.
  - apply reads_only_ret.
  - apply reads_only_bind; [apply reads_only_cstr_get|]. intros c1.
    apply reads_only_bind; [apply reads_only_cstr_get|]. intros c2.
    destruct (negb (c1 =? c2)); [apply reads_only_ret|].
    destruct (c1 =? 0); [apply reads_only_ret | apply IH].
Qed.

Lemma reads_only_solveSymbol_scan h buf symbol symbolOff stringOff todo :
  forall i, reads_only (solveSymbol_scan h buf symbol symbolOff stringOff todo i).
Proof.
  induction todo as [|todo IH]; intros i; simpl.
  - apply reads_only_ret.
  - apply reads_only_bind; [apply reads_only_load|]. intros n_strx.
    apply reads_only_bind; [apply reads_only_strncmp_from|]. intros c.
    destruct (c =? 0); [|apply IH].
    apply reads_only_bind; [apply reads_only_load|]. intros v.
    apply reads_only_ret.
Qed.

Lemma reads_only_solveSymbol symbol : reads_only (solveSymbol symbol).
Proof.
  unfold solveSymbol. intros m. unfold bind, get_this.
  destruct (linkedit_buf (this m)); [|apply reads_only_ret].
  destruct (symboltable_fileoff (this m) =? 0); [apply reads_only_ret|].
  destruct (negb (kaslr_slide_set (this m))); [apply reads_only_ret|].
  destruct (_ >? _); [apply reads_only_ret|].
  destruct (_ >? _); [apply reads_only_ret|].
  apply reads_only_solveSymbol_scan.
Qed.

(** ** [strncmp] against a name stored in an object *)

Lemma strlen_c_string (s : list byte) :
  c_string s -> strlen s = Z.of_nat (List.length s).
Proof.
  induction 1 as [|c s Hc _ IH]; [reflexivity|].
  cbn [strlen List.length]. rewrite IH, Nat2Z.inj_succ.
  destruct (Z.eqb_spec (Z_of_byte c) 0); [contradiction|]. lia.
Qed.

Lemma cstring_at_c_string v s : forall a, cstring_at v a s = true -> c_string s.
Proof.
  induction s as [|c s IH]; intros a H; [constructor|].
  simpl in H. destruct (v a); [|discriminate].
  apply andb_prop in H. destruct H as [H Hs].
  apply andb_prop in H. destruct H as [_ Hc].
  constructor; [|eapply IH; eassumption].
  apply negb_true_iff in Hc. apply Z.eqb_neq in Hc. exact Hc.
Qed.

Lemma load8_eq r v a m :
  load8 r v a m =
  match v a with
  | Some b => Ret (Z_of_byte b) (with_trace m (trace m ++ [EvLoad r a 1]))
  | None => Fault (with_trace m (trace m ++ [EvLoad r a 1]))
  end.
Proof.
  unfold load8. rewrite load_eq. cbn [view_le]. destruct (v a); [|reflexivity].
  rewrite Z.mul_0_r, Z.add_0_r. reflexivity.
Qed.

Lemma strncmp_from_step r v a (l : list byte) i n m b :
  v (a + i) = Some b ->
  strncmp_from (Lit l) (At r v a) i (S n) m =
  let c1 := Z_of_byte (nth (Z.to_nat i) l x00) in
  let m' := with_trace m (trace m ++ [EvLoad r (a + i) 1]) in
  if negb (c1 =? Z_of_byte b) then Ret (c1 - Z_of_byte b) m'
  else if c1 =? 0 then Ret 0 m'
  else strncmp_from (Lit l) (At r v a) (i + 1) n m'.
Proof.
  intros Hv. cbn [strncmp_from cstr_get]. unfold bind at 1. unfold ret at 1.
  unfold bind at 1. rewrite load8_eq, Hv. cbv zeta.
  destruct (negb _); [reflexivity|]. destruct (_ =? 0); reflexivity.
Qed.

(** Comparing the rest [suf] of a literal with the string [s] stored at
    index [i] of the operand: the result is zero exactly when they agree. *)
Lemma strncmp_from_stored r v a (suf : list byte) :
  forall (pre s : list byte) (m : Machine),
    c_string suf ->
    cstring_at v (a + Z.of_nat (List.length pre)) s = true ->
    exists c t,
      strncmp_from (Lit (pre ++ suf)) (At r v a) (Z.of_nat (List.length pre))
                   (S (List.length suf)) m
      = Ret c (with_trace m (trace m ++ t))
      /\ (c = 0 <-> s = suf).
Proof.
  induction suf as [|x suf IH]; intros pre s m Hsuf Hs;
    destruct s as [|c s]; cbn [cstring_at] in Hs;
    destruct (v (a + Z.of_nat (List.length pre))) as [b|] eqn:Hv;
    try discriminate;
    rewrite (strncmp_from_step _ _ _ _ _ _ _ _ Hv); cbv zeta;
    rewrite Nat2Z.id, app_nth2, Nat.sub_diag by lia; cbn [nth].
  - (* both strings end here *)
    apply Z.eqb_eq in Hs. rewrite Hs. change (Z_of_byte x00) with 0.
    cbn [Z.eqb negb]. eexists _, _. split; [reflexivity|]. tauto.
  - (* the literal ends, the stored string goes on *)
    apply andb_prop in Hs. destruct Hs as [Hs _].
    apply andb_prop in Hs. destruct Hs as [Hb Hc].
    apply Z.eqb_eq in Hb. apply negb_true_iff, Z.eqb_neq in Hc.
    change (Z_of_byte x00) with 0.
    destruct (Z.eqb_spec 0 (Z_of_byte b)) as [E|E]; [congruence|].
    cbn [negb]. eexists _, _. split; [reflexivity|].
    split; [lia|discriminate].
  - (* the stored string ends, the literal goes on *)
    inversion Hsuf as [|? ? Hx Hsuf']; subst.
    apply Z.eqb_eq in Hs. rewrite Hs.
    destruct (Z.eqb_spec (Z_of_byte x) 0) as [E|E]; [contradiction|].
    cbn [negb]. eexists _, _. split; [reflexivity|].
    split; [lia|discriminate].
  - inversion Hsuf as [|? ? Hx Hsuf']; subst.
    apply andb_prop in Hs. destruct Hs as [Hs Hrest].
    apply andb_prop in Hs. destruct Hs as [Hb Hc].
    apply Z.eqb_eq in Hb. apply negb_true_iff, Z.eqb_neq in Hc.
    destruct (Z.eqb_spec (Z_of_byte x) (Z_of_byte b)) as [E|E]; cbn [negb].
    + destruct (Z.eqb_spec (Z_of_byte x) 0) as [E0|_]; [contradiction|].
      assert (Hxc : x = c) by (apply Z_of_byte_inj; congruence).
      specialize (IH (pre ++ [x]) s
                     (with_trace m
                        (trace m
                         ++ [EvLoad r (a + Z.of_nat (List.length pre)) 1]))
                     Hsuf').
      rewrite length_app in IH. cbn [List.length] in IH.
      rewrite Nat2Z.inj_add in IH. change (Z.of_nat 1) with 1 in IH.
      rewrite Z.add_assoc in IH. specialize (IH Hrest).
      destruct IH as (c' & t & Hrun & Hiff).
      rewrite <- app_assoc in Hrun. cbn [app] in Hrun.
      cbn [List.length]. rewrite Hrun.
      cbn [with_trace this cr0 interrupts iocounts contexts trace kern].
      rewrite <- app_assoc.
      eexists _, _. split; [reflexivity|].
      rewrite Hiff. subst c. split; congruence.
    + eexists _, _. split; [reflexivity|].
      split; [lia|]. intros Heq. inversion Heq. subst. congruence.
Qed.

Lemma strncmp_symbol r v a (symbol s : list byte) (m : Machine) :
  c_string symbol ->
  cstring_at v a s = true ->
  exists c t,
    strncmp (Lit symbol) (At r v a) (strlen symbol + 1) m
    = Ret c (with_trace m (trace m ++ t))
    /\ (c = 0 <-> s = symbol).
Proof.
  intros Hsym Hs. unfold strncmp. rewrite strlen_c_string by assumption.
  replace (Z.to_nat (Z.of_nat (List.length symbol) + 1))
    with (S (List.length symbol)) by lia.
  apply (strncmp_from_stored r v a symbol [] s m Hsym).
  simpl. rewrite Z.add_0_r. exact Hs.
Qed.

(** ** [solveSymbol]: the scan of the symbol table *)

Lemma view_le_range v n :
  forall a z, view_le v a n = Some z -> 0 <= z < 256 ^ Z.of_nat n.
Proof.
  induction n as [|n IH]; intros a z H.
  - simpl in H. inversion H. simpl. lia.
  - cbn [view_le] in H. destruct (v a) as [b|]; [|discriminate].
    destruct (view_le v (a + 1) n) as [hi|] eqn:Hhi; [|discriminate].
    assert (Hz : z = Z_of_byte b + 256 * hi) by congruence.
    subst z. clear H. apply IH in Hhi.
    pose proof (Z_of_byte_range b).
    rewrite Nat2Z.inj_succ, Z.pow_succ_r by lia.
    set (P := 256 ^ Z.of_nat n) in *. lia.
Qed.

Section Scan.

Variable h : MachInfo.
Variable buf : list byte.
Variable symbol : list byte.
Hypothesis symbol_c_string : c_string symbol.

(** A record with another name is passed over. *)
Lemma solveSymbol_scan_skip (s : list byte) (todo : nat) (i : Z) (m : Machine) :
  symbol_named h buf i s = true -> s <> symbol ->
  exists t, scan_table h buf symbol (S todo) i m
            = scan_table h buf symbol todo (i + 1)
                         (with_trace m (trace m ++ t)).
Proof.
  intros Hname Hne. unfold scan_table. cbn [solveSymbol_scan].
  unfold symbol_named in Hname.
  destruct (view_le (buf_view buf) (symbolOff_of h + i * sizeof_nlist_64) 4)
    as [n_strx|] eqn:Hstrx; [|discriminate].
  unfold bind at 1. unfold load32, nlist_64_n_strx. rewrite load_eq.
  rewrite Z.add_0_r, Hstrx.
  destruct (strncmp_symbol RLinkedit (buf_view buf) (stringOff_of h + n_strx)
              symbol s
              (with_trace m
                 (trace m
                  ++ [EvLoad RLinkedit
                             (symbolOff_of h + i * sizeof_nlist_64) 4]))
              symbol_c_string Hname) as (c & t & Hrun & Hiff).
  unfold bind at 1. rewrite Hrun.
  destruct (Z.eqb_spec c 0) as [E|E]; [apply Hiff in E; contradiction|].
  cbn [with_trace this cr0 interrupts iocounts contexts trace kern].
  rewrite <- app_assoc. eexists. reflexivity.
Qed.

(** A record with the requested name ends the scan with its slid value. *)
Lemma solveSymbol_scan_hit (value : Z) (todo : nat) (i : Z) (m : Machine) :
  symbol_named h buf i symbol = true -> symbol_value h buf i = Some value ->
  exists t, scan_table h buf symbol (S todo) i m
            = Ret (wrap64 (value + kaslr_slide h)) (with_trace m (trace m ++ t)).
Proof.
  intros Hname Hval. unfold scan_table. cbn [solveSymbol_scan].
  unfold symbol_named in Hname.
  destruct (view_le (buf_view buf) (symbolOff_of h + i * sizeof_nlist_64) 4)
    as [n_strx|] eqn:Hstrx; [|discriminate].
  unfold bind at 1. unfold load32, nlist_64_n_strx. rewrite load_eq.
  rewrite Z.add_0_r, Hstrx.
  destruct (strncmp_symbol RLinkedit (buf_view buf) (stringOff_of h + n_strx)
              symbol symbol
              (with_trace m
                 (trace m
                  ++ [EvLoad RLinkedit
                             (symbolOff_of h + i * sizeof_nlist_64) 4]))
              symbol_c_string Hname) as (c & t & Hrun & Hiff).
  unfold bind at 1. rewrite Hrun.
  destruct (Z.eqb_spec c 0) as [E|E]; [|exfalso; apply E, Hiff; reflexivity].
  unfold bind at 1. unfold load64, nlist_64_n_value. rewrite load_eq.
  unfold symbol_value in Hval. rewrite Hval. unfold ret.
  cbn [with_trace this cr0 interrupts iocounts contexts trace kern].
  rewrite <- !app_assoc. eexists. reflexivity.
Qed.

Lemma solveSymbol_scan_first_match (k value : Z) :
  symbol_named h buf k symbol = true -> symbol_value h buf k = Some value ->
  forall (todo : nat) (i : Z) (m : Machine),
    i <= k < i + Z.of_nat todo ->
    (forall j, i <= j < k ->
               exists s, symbol_named h buf j s = true /\ s <> symbol) ->
    exists t, scan_table h buf symbol todo i m
              = Ret (wrap64 (value + kaslr_slide h)) (with_trace m (trace m ++ t)).
Proof.
  intros Hname Hval. induction todo as [|todo IH]; intros i m Hk Hbefore.
  - lia.
  - destruct (Z.eq_dec i k) as [->|Hik].
    + apply solveSymbol_scan_hit; assumption.
    + destruct (Hbefore i ltac:(lia)) as (s & Hs & Hne).
      destruct (solveSymbol_scan_skip s todo i m Hs Hne) as [t Hstep].
      rewrite Hstep.
      destruct (IH (i + 1) (with_trace m (trace m ++ t)) ltac:(lia)) as [t' Hrun].
      { intros j Hj. apply Hbefore. lia. }
      rewrite Hrun.
      cbn [with_trace this cr0 interrupts iocounts contexts trace kern].
      rewrite <- app_assoc. eexists. reflexivity.
Qed.

Lemma solveSymbol_scan_no_match :
  forall (todo : nat) (i : Z) (m : Machine),
    (forall j, i <= j < i + Z.of_nat todo ->
               exists s, symbol_named h buf j s = true /\ s <> symbol) ->
    exists t, scan_table h buf symbol todo i m = Ret 0 (with_trace m (trace m ++ t)).
Proof.
  induction todo as [|todo IH]; intros i m Hall.
  - exists []. unfold scan_table. simpl. unfold ret. rewrite with_trace_app_nil.
    reflexivity.
  - destruct (Hall i ltac:(lia)) as (s & Hs & Hne).
    destruct (solveSymbol_scan_skip s todo i m Hs Hne) as [t Hstep].
    rewrite Hstep.
    destruct (IH (i + 1) (with_trace m (trace m ++ t))) as [t' Hrun].
    { intros j Hj. apply Hall. lia. }
    rewrite Hrun.
    cbn [with_trace this cr0 interrupts iocounts contexts trace kern].
    rewrite <- app_assoc. eexists. reflexivity.
Qed.

End Scan.

(** With its preconditions met, [solveSymbol] is the scan of the whole
    table at the offsets relative to the buffer. *)
Lemma solveSymbol_resolvable (symbol buf : list byte) (m : Machine) :
  wf_MachInfo (this m) -> resolvable (this m) buf ->
  solveSymbol symbol m =
  scan_table (this m) buf symbol
             (Z.to_nat (symboltable_nr_symbols (this m))) 0 m.
Proof.
  intros Hwf (Hbuf & Hsym & Hset & Hso & Hst).
  destruct Hwf as (_ & _ & _ & Hlf & _ & Hstf & _ & Hstrf & _).
  unfold solveSymbol, bind, get_this. rewrite Hbuf, Hset.
  destruct (Z.eqb_spec (symboltable_fileoff (this m)) 0); [contradiction|].
  cbn [negb]. unfold u64 in *.
  rewrite !wrap64_small by (unfold u64; lia).
  destruct (Z.gtb_spec (symboltable_fileoff (this m) - linkedit_fileoff (this m))
                       (symboltable_fileoff (this m))); [lia|].
  destruct (Z.gtb_spec (stringtable_fileoff (this m) - linkedit_fileoff (this m))
                       (stringtable_fileoff (this m))); [lia|].
  reflexivity.
Qed.

(** C1: with a loaded link-edit buffer, a recorded symbol table and a known
    slide, [solveSymbol] scans the records in order and returns the static
    value plus the slide (in 64-bit arithmetic) of the first record whose
    name is the requested one, terminator included: a record named by a
    longer string with the same prefix is one of the records passed over. *)
Theorem solveSymbol_first_match (m : Machine) (buf symbol : list byte)
    (k value : Z) :
  wf_MachInfo (this m) ->
  resolvable (this m) buf ->
  0 <= k < symboltable_nr_symbols (this m) ->
  (forall j, 0 <= j < k ->
             exists s, symbol_named (this m) buf j s = true /\ s <> symbol) ->
  symbol_named (this m) buf k symbol = true ->
  symbol_value (this m) buf k = Some value ->
  exists t,
    solveSymbol symbol m
    = Ret (wrap64 (value + kaslr_slide (this m))) (with_trace m (trace m ++ t)).
Proof.
  intros Hwf Hres Hk Hbefore Hname Hval.
  rewrite (solveSymbol_resolvable symbol buf m Hwf Hres).
  assert (Hsym : c_string symbol).
  { unfold symbol_named in Hname.
    destruct (view_le _ _ 4); [|discriminate].
    eapply cstring_at_c_string; eassumption. }
  apply (solveSymbol_scan_first_match (this m) buf symbol Hsym k value Hname Hval).
  - lia.
  - exact Hbefore.
Qed.

(** The scenario of the specification: static text at [0x1000], running
    text at [0x5000], "foo" of static value [0x1010] stored after "foobar". *)
Lemma solveSymbol_first_match_witness :
  disk_text_addr demo_handle = 0x1000 /\
  running_text_addr demo_handle = 0x5000 /\
  kaslr_slide demo_handle = 0x5000 - 0x1000 /\
  symbol_named demo_handle demo_linkedit 0 (bytes_of "foobar") = true /\
  exists t,
    solveSymbol (bytes_of "foo") demo_ready
    = Ret 0x5010 (with_trace demo_ready (trace demo_ready ++ t)).
Proof.
  repeat (split; [reflexivity|]).
  apply (solveSymbol_first_match demo_ready demo_linkedit (bytes_of "foo") 1 0x1010).
  - unfold wf_MachInfo, u64, u32. simpl. lia.
  - unfold resolvable. simpl. repeat split; try reflexivity; lia.
  - simpl. lia.
  - intros j Hj. assert (j = 0) as -> by lia.
    exists (bytes_of "foobar"). split; [reflexivity | discriminate].
  - reflexivity.
  - reflexivity.
Defined.

Lemma solveSymbol_unmet (symbol : list byte) (m : Machine) :
  linkedit_buf (this m) = None \/ symboltable_fileoff (this m) = 0
  \/ kaslr_slide_set (this m) = false ->
  solveSymbol symbol m = Ret 0 m.
Proof.
  intros H. unfold solveSymbol, bind, get_this.
  destruct (linkedit_buf (this m)) as [buf|]; [|reflexivity].
  destruct (Z.eqb_spec (symboltable_fileoff (this m)) 0); [reflexivity|].
  destruct (kaslr_slide_set (this m)); [|reflexivity].
  destruct H as [H | [H | H]]; [discriminate | contradiction | discriminate].
Qed.

Lemma wrap64_sum_zero (a b : Z) :
  u64 a -> u64 b -> (wrap64 (a + b) = 0 <-> a + b = 0 \/ a + b = 2 ^ 64).
Proof.
  unfold u64, wrap64. intros Ha Hb. split.
  - intros H. apply Z.mod_divide in H; [|lia]. destruct H as [q Hq]. lia.
  - intros [H | H]; rewrite H; reflexivity.
Qed.

(** C2, amended: [solveSymbol] returns 0 when the link-edit buffer is not
    loaded, when no symbol-table offset is recorded or when the slide is
    not known, and after a scan of all the records that finds no matching
    name (none at all when the count is 0).  When exactly one record
    matches it returns the record's value plus the slide modulo 2^64, which
    is 0 only when that sum is 0 or 2^64. *)
Theorem solveSymbol_sentinel (m : Machine) (symbol : list byte) :
  wf_MachInfo (this m) ->
  c_string symbol ->
  (linkedit_buf (this m) = None \/ symboltable_fileoff (this m) = 0
   \/ kaslr_slide_set (this m) = false ->
   solveSymbol symbol m = Ret 0 m)
  /\
  (forall buf,
      resolvable (this m) buf ->
      (forall j, 0 <= j < symboltable_nr_symbols (this m) ->
                 exists s, symbol_named (this m) buf j s = true /\ s <> symbol) ->
      exists t, solveSymbol symbol m = Ret 0 (with_trace m (trace m ++ t)))
  /\
  (forall buf k value,
      resolvable (this m) buf ->
      0 <= k < symboltable_nr_symbols (this m) ->
      symbol_named (this m) buf k symbol = true ->
      symbol_value (this m) buf k = Some value ->
      (forall j, 0 <= j < symboltable_nr_symbols (this m) -> j <> k ->
                 exists s, symbol_named (this m) buf j s = true /\ s <> symbol) ->
      (exists t, solveSymbol symbol m
                 = Ret (wrap64 (value + kaslr_slide (this m)))
                       (with_trace m (trace m ++ t)))
      /\ (wrap64 (value + kaslr_slide (this m)) = 0 <->
          value + kaslr_slide (this m) = 0
          \/ value + kaslr_slide (this m) = 2 ^ 64)).
Proof.
  intros Hwf Hsym. split; [apply solveSymbol_unmet|]. split.
  - intros buf Hres Hall.
    rewrite (solveSymbol_resolvable symbol buf m Hwf Hres).
    apply (solveSymbol_scan_no_match (this m) buf symbol Hsym).
    intros j Hj. apply Hall.
    destruct Hwf as (_ & _ & _ & _ & _ & _ & Hn & _). unfold u32 in Hn. lia.
  - intros buf k value Hres Hk Hname Hval Hothers. split.
    + rewrite (solveSymbol_resolvable symbol buf m Hwf Hres).
      apply (solveSymbol_scan_first_match (this m) buf symbol Hsym k value
                                          Hname Hval); [lia|].
      intros j Hj. apply Hothers; lia.
    + apply wrap64_sum_zero.
      * unfold symbol_value in Hval. apply view_le_range in Hval.
        unfold u64. change (256 ^ Z.of_nat 8) with (2 ^ 64) in Hval. exact Hval.
      * destruct Hwf as (_ & _ & Hslide & _). exact Hslide.
Qed.

Lemma demo_ready_wf : wf_MachInfo (this demo_ready).
Proof. unfold wf_MachInfo, u64, u32. simpl. lia. Defined.

Lemma demo_ready_resolvable : resolvable (this demo_ready) demo_linkedit.
Proof. unfold resolvable. simpl. repeat split; try reflexivity; lia. Defined.

Lemma c_string_bytes_of_bar : c_string (bytes_of "bar").
Proof. repeat constructor; discriminate. Defined.

Lemma solveSymbol_sentinel_witness :
  solveSymbol (bytes_of "bar") demo_boot = Ret 0 demo_boot /\
  exists t, solveSymbol (bytes_of "bar") demo_ready
            = Ret 0 (with_trace demo_ready (trace demo_ready ++ t)).
Proof.
  split.
  - apply (solveSymbol_sentinel demo_boot (bytes_of "bar")).
    + unfold wf_MachInfo, u64, u32. simpl. lia.
    + exact c_string_bytes_of_bar.
    + left. reflexivity.
  - destruct (solveSymbol_sentinel demo_ready (bytes_of "bar") demo_ready_wf
                                   c_string_bytes_of_bar) as (_ & Hnone & _).
    apply (Hnone demo_linkedit demo_ready_resolvable).
    intros j Hj. simpl in Hj.
    assert (j = 0 \/ j = 1) as [-> | ->] by lia.
    + exists (bytes_of "foobar"). split; [reflexivity | discriminate].
    + exists (bytes_of "foo"). split; [reflexivity | discriminate].
Defined.

(** C2 as stated fails: a handle with every precondition met and exactly
    one record named "foo" for which [solveSymbol] returns 0. *)
Lemma solveSymbol_match_returns_zero :
  ~ (forall (m : Machine) (buf symbol : list byte) (k : Z),
        wf_MachInfo (this m) ->
        resolvable (this m) buf ->
        0 <= k < symboltable_nr_symbols (this m) ->
        symbol_named (this m) buf k symbol = true ->
        (forall j, 0 <= j < symboltable_nr_symbols (this m) -> j <> k ->
                   exists s, symbol_named (this m) buf j s = true /\ s <> symbol) ->
        forall v m', solveSymbol symbol m = Ret v m' -> v <> 0).
Proof.
  intros H.
  apply (H demo_unslid demo_unslid_linkedit (bytes_of "foo") 0) with
    (v := 0)
    (m' := with_trace demo_unslid
             [EvLoad RLinkedit 0 4; EvLoad RLinkedit 17 1; EvLoad RLinkedit 18 1;
              EvLoad RLinkedit 19 1; EvLoad RLinkedit 20 1; EvLoad RLinkedit 8 8]).
  - unfold wf_MachInfo, u64, u32. simpl. lia.
  - unfold resolvable. simpl. repeat split; try reflexivity; lia.
  - simpl. lia.
  - reflexivity.
  - intros j Hj Hne. simpl in Hj. lia.
  - reflexivity.
  - reflexivity.
Qed.

(** C6: when the symbol table or the string table was recorded before the
    link-edit region, so that the offset relative to the buffer would wrap
    around, [solveSymbol] returns 0 in the state it was called in: the
    trace is not extended, no load through the buffer has taken place. *)
Theorem solveSymbol_underflow_guard (m : Machine) (symbol : list byte) :
  wf_MachInfo (this m) ->
  symboltable_fileoff (this m) < linkedit_fileoff (this m)
  \/ stringtable_fileoff (this m) < linkedit_fileoff (this m) ->
  solveSymbol symbol m = Ret 0 m.
Proof.
  intros (_ & _ & _ & Hlf & _ & Hstf & _ & Hstrf & _) Hunder.
  unfold solveSymbol, bind, get_this.
  destruct (linkedit_buf (this m)) as [buf|]; [|reflexivity].
  destruct (symboltable_fileoff (this m) =? 0); [reflexivity|].
  destruct (negb (kaslr_slide_set (this m))); [reflexivity|].
  destruct (Z.gtb_spec
              (wrap64 (symboltable_fileoff (this m) - linkedit_fileoff (this m)))
              (symboltable_fileoff (this m))) as [|Hs]; [reflexivity|].
  destruct (Z.gtb_spec
              (wrap64 (stringtable_fileoff (this m) - linkedit_fileoff (this m)))
              (stringtable_fileoff (this m))) as [|Hstr]; [reflexivity|].
  exfalso. destruct Hunder as [Hu | Hu].
  - pose proof (wrap64_underflow _ _ Hstf Hlf Hu). lia.
  - pose proof (wrap64_underflow _ _ Hstrf Hlf Hu). lia.
Qed.

Lemma solveSymbol_underflow_guard_witness :
  symboltable_fileoff (this demo_underflow)
  < linkedit_fileoff (this demo_underflow) /\
  solveSymbol (bytes_of "foo") demo_underflow = Ret 0 demo_underflow.
Proof.
  split; [simpl; lia|].
  apply solveSymbol_underflow_guard.
  - unfold wf_MachInfo, u64, u32. simpl. lia.
  - left. simpl. lia.
Defined.

(** C10: [solveSymbol] is read-only on the handle.  Whatever the state and
    the name, it ends (with an address, with the sentinel 0, or at a fault)
    in a state whose [MachInfo] has every field as it was; the rest of
    the machine is unchanged too, the trace of loads apart. *)
Theorem solveSymbol_read_only (symbol : list byte) (m : Machine) :
  exists m',
    (solveSymbol symbol m = Fault m'
     \/ exists a, solveSymbol symbol m = Ret a m')
    /\ this m' = this m
    /\ m' = with_trace m (trace m').
Proof.
  destruct (reads_only_solveSymbol symbol m) as [t [[a H] | H]];
    exists (with_trace m (trace m ++ t)); rewrite H.
  - split; [right; exists a; reflexivity|]. split; reflexivity.
  - split; [left; reflexivity|]. split; reflexivity.
Qed.

(** ** [getRunningAddresses] *)

Lemma bind_Ret_inv {A B} (c : M A) (k : A -> M B) (m m' : Machine) (b : B) :
  bind c k m = Ret b m' ->
  exists a m1, c m = Ret a m1 /\ k a m1 = Ret b m'.
Proof.
  unfold bind. destruct (c m) as [a m1| |]; try discriminate.
  intros H. exists a, m1. split; [reflexivity | exact H].
Qed.

Lemma getRunningAddresses_known (slide size : Z) (m : Machine) :
  kaslr_slide_set (this m) = true ->
  getRunningAddresses slide size m = Ret KERN_SUCCESS m.
Proof.
  intros H. unfold getRunningAddresses, bind, get_this. rewrite H. reflexivity.
Qed.

(** A computation that leaves the static text address alone. *)
Lemma keeps_disk_bind {A B} (c : M A) (k : A -> M B) :
  keeps_disk c -> (forall a, keeps_disk (k a)) -> keeps_disk (bind c k).
Proof.
  intros Hc Hk m b m' H. apply bind_Ret_inv in H.
  destruct H as (a & m1 & H1 & H2).
  rewrite (Hk a m1 b m' H2). exact (Hc m a m1 H1).
Qed.

Lemma keeps_disk_ret {A} (a : A) : keeps_disk (ret a).
Proof. intros m b m' H. inversion H. reflexivity. Qed.

Lemma keeps_disk_reads_only {A} (c : M A) : reads_only c -> keeps_disk c.
Proof.
  intros Hc m a m' H. destruct (Hc m) as [t [[a' Ha] | Hf]].
  - rewrite Ha in H. inversion H. reflexivity.
  - rewrite Hf in H. discriminate.
Qed.

Lemma keeps_disk_modify (f : MachInfo -> MachInfo) :
  (forall h, disk_text_addr (f h) = disk_text_addr h) ->
  keeps_disk (modify_this f).
Proof. intros Hf m a m' H. inversion H. simpl. apply Hf. Qed.

Lemma keeps_disk_walk mem mh todo :
  forall addr, keeps_disk (getRunningAddresses_walk mem mh todo addr).
Proof.
  induction todo as [|todo IH]; intros addr; cbn [getRunningAddresses_walk].
  - apply keeps_disk_ret.
  - apply keeps_disk_bind;
      [apply keeps_disk_reads_only, reads_only_load|]. intros cmd.
    apply keeps_disk_bind.
    { apply keeps_disk_reads_only.
      destruct (cmd =? LC_SEGMENT_64); [|apply reads_only_ret].
      apply reads_only_bind; [apply reads_only_strncmp_from|].
      intros c. apply reads_only_ret. }
    intros found. destruct found.
    + apply keeps_disk_bind;
        [apply keeps_disk_reads_only, reads_only_load|]. intros vmaddr.
      apply keeps_disk_bind; [apply keeps_disk_modify; reflexivity|].
      intros _. apply keeps_disk_modify; reflexivity.
    + apply keeps_disk_bind;
        [apply keeps_disk_reads_only, reads_only_load|]. intros cmdsize.
      apply IH.
Qed.

Lemma reads_only_get_kern : reads_only get_kern.
Proof.
  intros m. exists []. left. exists (kern m). rewrite with_trace_app_nil.
  reflexivity.
Qed.

Lemma reads_only_emit e : reads_only (emit e).
Proof. intros m. exists [e]. left. exists tt. reflexivity. Qed.

Lemma reads_only_findKernelBase_scan mem n :
  forall tmp, reads_only (findKernelBase_scan mem n tmp).
Proof.
  induction n as [|n IH]; intros tmp; cbn [findKernelBase_scan].
  - apply reads_only_ret.
  - apply reads_only_bind; [apply reads_only_load|]. intros magic.
    apply reads_only_bind.
    { destruct (magic =? MH_MAGIC_64); [|apply reads_only_ret].
      apply reads_only_bind; [apply reads_only_strncmp_from|].
      intros c. apply reads_only_ret. }
    intros found. destruct found; [apply reads_only_ret|].
    destruct (_ >? _); [apply reads_only_ret | apply IH].
Qed.

Lemma reads_only_findKernelBase : reads_only findKernelBase.
Proof.
  unfold findKernelBase, calculateInt80Address, getIDTAddress.
  repeat (first [ apply reads_only_ret | apply reads_only_load
                | apply reads_only_get_kern | apply reads_only_emit
                | apply reads_only_findKernelBase_scan
                | apply reads_only_bind; [|intros ?] ]).
Qed.

Lemma ends_ret {A} (a : A) : ends (ret a).
Proof. intros m. discriminate. Qed.

Lemma ends_bind {A B} (c : M A) (k : A -> M B) :
  ends c -> (forall a, ends (k a)) -> ends (bind c k).
Proof.
  intros Hc Hk m. unfold bind. specialize (Hc m).
  destruct (c m) as [a m1|m1|]; [apply Hk | discriminate | contradiction].
Qed.

Lemma ends_reads_only {A} (c : M A) : reads_only c -> ends c.
Proof.
  intros Hc m. destruct (Hc m) as [t [[a H] | H]]; rewrite H; discriminate.
Qed.

Lemma ends_modify (f : MachInfo -> MachInfo) : ends (modify_this f).
Proof. intros m. discriminate. Qed.

Lemma ends_getRunningAddresses_walk mem mh todo :
  forall addr, ends (getRunningAddresses_walk mem mh todo addr).
Proof.
  induction todo as [|todo IH]; intros addr; cbn [getRunningAddresses_walk].
  - apply ends_ret.
  - apply ends_bind; [apply ends_reads_only, reads_only_load|]. intros cmd.
    apply ends_bind.
    { apply ends_reads_only.
      destruct (cmd =? LC_SEGMENT_64); [|apply reads_only_ret].
      apply reads_only_bind; [apply reads_only_strncmp_from|].
      intros c. apply reads_only_ret. }
    intros found. destruct found.
    + apply ends_bind; [apply ends_reads_only, reads_only_load|].
      intros vmaddr. apply ends_bind; [apply ends_modify|].
      intros _. apply ends_modify.
    + apply ends_bind; [apply ends_reads_only, reads_only_load|].
      intros cmdsize. apply IH.
Qed.

(** [getRunningAddresses] always comes to an end: the search for the base
    stops at address zero and the walk after [ncmds] commands. *)
Lemma ends_getRunningAddresses (slide size : Z) :
  ends (getRunningAddresses slide size).
Proof.
  unfold getRunningAddresses.
  apply ends_bind; [intros m; discriminate|]. intros h.
  destruct (kaslr_slide_set h); [apply ends_ret|].
  apply ends_bind.
  { destruct (size >? 0); [apply ends_modify | apply ends_ret]. }
  intros _. apply ends_bind.
  { destruct (negb (slide =? 0));
      [apply ends_ret | apply ends_reads_only, reads_only_findKernelBase]. }
  intros base. apply ends_bind.
  { destruct (negb (base =? 0)); [|apply ends_ret].
    apply ends_bind; [apply ends_reads_only, reads_only_get_kern|].
    intros k. apply ends_bind; [apply ends_reads_only, reads_only_load|].
    intros ncmds. apply ends_getRunningAddresses_walk. }
  intros _. apply ends_bind; [intros m; discriminate|]. intros h'.
  destruct (_ && _); [|apply ends_ret].
  apply ends_bind.
  { destruct (slide =? 0); apply ends_modify. }
  intros _. apply ends_bind; [apply ends_modify|]. intros _. apply ends_ret.
Qed.

(** What a call that has to compute the slide leaves behind on success. *)
Lemma getRunningAddresses_computed (slide size : Z) (m m' : Machine) :
  kaslr_slide_set (this m) = false ->
  getRunningAddresses slide size m = Ret KERN_SUCCESS m' ->
  kaslr_slide_set (this m') = true /\
  running_text_addr (this m') <> 0 /\
  running_mh (this m') <> 0 /\
  disk_text_addr (this m') = disk_text_addr (this m) /\
  kaslr_slide (this m') =
    (if slide =? 0
     then wrap64 (running_text_addr (this m') - disk_text_addr (this m'))
     else slide).
Proof.
  intros Hunset Hrun. unfold getRunningAddresses in Hrun.
  apply bind_Ret_inv in Hrun. destruct Hrun as (h & m0 & Hget & Hrun).
  inversion Hget. subst h m0. clear Hget. rewrite Hunset in Hrun.
  apply bind_Ret_inv in Hrun. destruct Hrun as ([] & m1 & Hsize & Hrun).
  apply bind_Ret_inv in Hrun. destruct Hrun as (base & m2 & Hbase & Hrun).
  apply bind_Ret_inv in Hrun. destruct Hrun as ([] & m3 & Hwalk & Hrun).
  assert (Hdisk : disk_text_addr (this m3) = disk_text_addr (this m)).
  { transitivity (disk_text_addr (this m2)).
    - revert Hwalk. destruct (negb (base =? 0)).
      + apply (keeps_disk_bind get_kern).
        * apply keeps_disk_reads_only, reads_only_get_kern.
        * intros k. apply keeps_disk_bind;
            [apply keeps_disk_reads_only, reads_only_load|].
          intros ncmds. apply keeps_disk_walk.
      + apply keeps_disk_ret.
    - transitivity (disk_text_addr (this m1)).
      + revert Hbase. destruct (negb (slide =? 0)).
        * apply keeps_disk_ret.
        * apply keeps_disk_reads_only, reads_only_findKernelBase.
      + revert Hsize. destruct (size >? 0).
        * apply keeps_disk_modify. reflexivity.
        * apply keeps_disk_ret. }
  unfold bind at 1 in Hrun. unfold get_this at 1 in Hrun.
  destruct (Z.eqb_spec (running_text_addr (this m3)) 0) as [|Hrt];
    [discriminate|].
  destruct (Z.eqb_spec (running_mh (this m3)) 0) as [|Hmh]; [discriminate|].
  cbn [negb andb] in Hrun.
  destruct (slide =? 0); inversion Hrun; subst m'; cbn;
    rewrite ?Hdisk; repeat split; auto.
Qed.

Lemma getRunningAddresses_success_known (slide size : Z) (m m' : Machine) :
  getRunningAddresses slide size m = Ret KERN_SUCCESS m' ->
  kaslr_slide_set (this m') = true.
Proof.
  intros H. destruct (kaslr_slide_set (this m)) eqn:Hset.
  - rewrite (getRunningAddresses_known slide size m Hset) in H.
    inversion H. subst m'. exact Hset.
  - apply (getRunningAddresses_computed slide size m m' Hset H).
Qed.

Lemma returns_Ret {A} (r : Res A) (p : A -> Machine -> bool) :
  returns r p = true -> exists a m', r = Ret a m' /\ p a m' = true.
Proof.
  destruct r as [a m'| |]; try discriminate.
  intros H. exists a, m'. split; [reflexivity | exact H].
Defined.

Lemma faults_Fault {A} (r : Res A) (p : Machine -> bool) :
  faults r p = true -> exists m', r = Fault m' /\ p m' = true.
Proof.
  destruct r as [| m' |]; try discriminate.
  intros H. exists m'. split; [reflexivity | exact H].
Defined.

Lemma demo_loaded_discovers :
  exists m', getRunningAddresses 0 0 demo_loaded = Ret KERN_SUCCESS m'
             /\ running_text_addr (this m') = 0x5000.
Proof.
  destruct (returns_Ret (getRunningAddresses 0 0 demo_loaded)
              (fun a m' => (a =? KERN_SUCCESS)
                           && (running_text_addr (this m') =? 0x5000)))
    as (a & m' & Hrun & Hp); [vm_compute; reflexivity|].
  apply andb_prop in Hp. destruct Hp as [Ha Hrt].
  apply Z.eqb_eq in Ha, Hrt. subst a. exists m'. split; assumption.
Defined.

Lemma demo_loaded_supplied :
  exists m', getRunningAddresses 0x5000 0 demo_loaded = Ret KERN_SUCCESS m'
             /\ running_text_addr (this m') = 0x5000.
Proof.
  destruct (returns_Ret (getRunningAddresses 0x5000 0 demo_loaded)
              (fun a m' => (a =? KERN_SUCCESS)
                           && (running_text_addr (this m') =? 0x5000)))
    as (a & m' & Hrun & Hp); [vm_compute; reflexivity|].
  apply andb_prop in Hp. destruct Hp as [Ha Hrt].
  apply Z.eqb_eq in Ha, Hrt. subst a. exists m'. split; assumption.
Defined.

(** C3 as stated fails for a supplied base: the kernel header at [0x5000]
    declares its text at [0x5000], the file has it at [0x1000], and the
    slide recorded is the base [0x5000], not the displacement [0x4000]. *)
Lemma getRunningAddresses_supplied_base_is_slide :
  ~ (forall (slide size : Z) (m m' : Machine),
        kaslr_slide_set (this m) = false ->
        slide <> 0 ->
        getRunningAddresses slide size m = Ret KERN_SUCCESS m' ->
        kaslr_slide (this m')
        = wrap64 (running_text_addr (this m') - disk_text_addr (this m'))).
Proof.
  intros H.
  destruct (returns_Ret (getRunningAddresses 0x5000 0 demo_loaded)
              (fun a m' => (a =? KERN_SUCCESS)
                           && (kaslr_slide (this m') =? 0x5000)
                           && (running_text_addr (this m') =? 0x5000)
                           && (disk_text_addr (this m') =? 0x1000)))
    as (a & m' & Hrun & Hp); [vm_compute; reflexivity|].
  repeat (apply andb_prop in Hp; destruct Hp as [Hp ?]).
  repeat match goal with E : (_ =? _) = true |- _ => apply Z.eqb_eq in E end.
  subst a.
  specialize (H 0x5000 0 demo_loaded m' eq_refl ltac:(discriminate) Hrun).
  replace (kaslr_slide (this m')) with 0x5000 in H by congruence.
  replace (running_text_addr (this m')) with 0x5000 in H by congruence.
  replace (disk_text_addr (this m')) with 0x1000 in H by congruence.
  vm_compute in H. discriminate.
Qed.

(** C9: [getRunningAddresses] is idempotent.  With the slide known it
    returns success in the state it was called in: no field changes, and
    the trace shows neither [sidt] nor a load, so the base is not searched
    for and no header is walked again.  Hence a call that follows a
    successful one returns success and leaves the slide as it is. *)
Theorem getRunningAddresses_idempotent (slide size : Z) (m : Machine) :
  (kaslr_slide_set (this m) = true ->
   getRunningAddresses slide size m = Ret KERN_SUCCESS m)
  /\
  (forall m1, getRunningAddresses slide size m = Ret KERN_SUCCESS m1 ->
              forall slide' size',
                getRunningAddresses slide' size' m1 = Ret KERN_SUCCESS m1).
Proof.
  split.
  - apply getRunningAddresses_known.
  - intros m1 H slide' size'. apply getRunningAddresses_known.
    exact (getRunningAddresses_success_known slide size m m1 H).
Qed.

Lemma getRunningAddresses_idempotent_witness :
  getRunningAddresses 0 0 demo_ready = Ret KERN_SUCCESS demo_ready /\
  exists m1,
    getRunningAddresses 0 0 demo_loaded = Ret KERN_SUCCESS m1 /\
    getRunningAddresses 0 0 m1 = Ret KERN_SUCCESS m1.
Proof.
  split.
  - apply (proj1 (getRunningAddresses_idempotent 0 0 demo_ready)). reflexivity.
  - destruct demo_loaded_discovers as (m1 & Hrun & _). exists m1.
    split; [exact Hrun|].
    exact (proj2 (getRunningAddresses_idempotent 0 0 demo_loaded) m1 Hrun 0 0).
Defined.

(** ** [setKernelWriting] *)

(** C8: [setKernelWriting].  When enabling, [cli] comes before the write
    that clears the write-protect bit; when restoring, [sti] comes after
    the write that sets it.  The result is decided by reading [cr0] again
    after the write: success exactly when the bit then has the requested
    value.  Interrupts are left disabled only after a successful enable:
    whenever the update fails the function returns failure with interrupts
    enabled. *)
Theorem setKernelWriting_interrupts (enable : bool) (m : Machine) :
  let written := if enable then Z.land (cr0 m) (Z.lnot CR0_WP)
                 else Z.lor (cr0 m) CR0_WP in
  let cr0' := mov_cr0 (kern m) (cr0 m) written in
  let updated := Bool.eqb (wp_set cr0') (negb enable) in
  exists m' reads,
    setKernelWriting enable m
    = Ret (if updated then KERN_SUCCESS else KERN_FAILURE) m'
    /\ cr0 m' = cr0'
    /\ trace m' = trace m
                  ++ (if enable then [EvCli] else [])
                  ++ [EvGetCr0; EvSetCr0 written]
                  ++ reads
                  ++ (if enable && updated then [] else [EvSti])
    /\ (reads = [EvGetCr0] \/ reads = [EvGetCr0; EvGetCr0])
    /\ interrupts m' = negb (enable && updated)
    /\ this m' = this m.
Proof.
  intros written cr0' updated. subst written cr0' updated. unfold wp_set.
  destruct enable;
    unfold setKernelWriting, setWPBit, cli, sti, get_cr0, set_cr0, bind,
           emit, ret;
    cbn [negb this cr0 interrupts iocounts contexts trace kern andb];
    rewrite ?andb_false_r, ?andb_true_r;
    destruct (Z.land (mov_cr0 _ _ _) CR0_WP =? 0) eqn:Hbit;
    cbn [negb andb this cr0 interrupts iocounts contexts trace kern];
    rewrite ?Hbit;
    cbn [negb andb Bool.eqb Z.eqb KERN_SUCCESS KERN_FAILURE
         this cr0 interrupts iocounts contexts trace kern];
    rewrite <- ?app_assoc; cbn [app].
  - eexists; exists [EvGetCr0; EvGetCr0]. repeat split. right. reflexivity.
  - eexists; exists [EvGetCr0; EvGetCr0]. repeat split. right. reflexivity.
  - eexists; exists [EvGetCr0; EvGetCr0]. repeat split. right. reflexivity.
  - eexists; exists [EvGetCr0]. repeat split. left. reflexivity.
Qed.

(** Both outcomes occur: a processor that takes the write, and one that
    keeps the bit set. *)
Example setKernelWriting_enable_ok :
  returns (setKernelWriting true demo_ready)
          (fun r m' => (r =? KERN_SUCCESS) && negb (interrupts m')
                       && negb (wp_set (cr0 m'))) = true.
Proof. vm_compute. reflexivity. Qed.

Example setKernelWriting_enable_refused :
  returns (setKernelWriting true demo_pinned_wp)
          (fun r m' => (r =? KERN_FAILURE) && interrupts m'
                       && wp_set (cr0 m')) = true.
Proof. vm_compute. reflexivity. Qed.

(** ** [processMachHeader] and the declared command sizes *)

Lemma list_eqb_Z (l1 l2 : list Z) : list_eqb Z.eqb l1 l2 = true -> l1 = l2.
Proof.
  revert l2. induction l1 as [|x l1 IH]; intros [|y l2] H;
    try discriminate; [reflexivity|].
  cbn [list_eqb] in H. apply andb_prop in H. destruct H as [Hx Hl].
  apply Z.eqb_eq in Hx. subst y. f_equal. apply IH. exact Hl.
Qed.

Lemma list_eqb_byte (l1 l2 : list byte) :
  list_eqb Byte.eqb l1 l2 = true -> l1 = l2.
Proof.
  revert l2. induction l1 as [|x l1 IH]; intros [|y l2] H;
    try discriminate; [reflexivity|].
  cbn [list_eqb] in H. apply andb_prop in H. destruct H as [Hx Hl].
  apply Byte.byte_dec_bl in Hx. subst y. f_equal. apply IH. exact Hl.
Qed.

Lemma extends_trace_ret {A} (a : A) : extends_trace (ret a).
Proof. intros m b m' H. inversion H. exists []. symmetry. apply app_nil_r. Qed.

Lemma extends_trace_bind {A B} (c : M A) (k : A -> M B) :
  extends_trace c -> (forall a, extends_trace (k a)) ->
  extends_trace (bind c k).
Proof.
  intros Hc Hk m b m' H. apply bind_Ret_inv in H.
  destruct H as (a & m1 & H1 & H2).
  destruct (Hc m a m1 H1) as [t1 E1]. destruct (Hk a m1 b m' H2) as [t2 E2].
  exists (t1 ++ t2). rewrite E2, E1. symmetry. apply app_assoc.
Qed.

Lemma extends_trace_reads_only {A} (c : M A) : reads_only c -> extends_trace c.
Proof.
  intros Hc m a m' H. destruct (Hc m) as [t [[a' Ha] | Hf]].
  - rewrite Ha in H. inversion H. exists t. reflexivity.
  - rewrite Hf in H. discriminate.
Qed.

Lemma extends_trace_modify (f : MachInfo -> MachInfo) :
  extends_trace (modify_this f).
Proof. intros m a m' H. inversion H. exists []. symmetry. apply app_nil_r. Qed.

(** What a walk that returns has done: each of the [todo] commands had its
    [cmd] and its [cmdsize] loaded, and the next one was taken at the
    distance the [cmdsize] says, whatever that is. *)
Lemma processMachHeader_walk_visits (r : region) (header : view) (todo : nat) :
  forall (addr : Z) (m m' : Machine),
    processMachHeader_walk r header todo addr m = Ret tt m' ->
    List.length (command_addresses header todo addr) = todo
    /\ exists t,
         trace m' = trace m ++ t
         /\ Forall (fun a => In (EvLoad r (a + load_command_cmd) 4) t
                             /\ In (EvLoad r (a + load_command_cmdsize) 4) t)
                   (command_addresses header todo addr).
Proof.
  induction todo as [|todo IH]; intros addr m m' Hrun.
  - inversion Hrun. split; [reflexivity|]. exists [].
    split; [symmetry; apply app_nil_r | constructor].
  - cbn [processMachHeader_walk] in Hrun.
    apply bind_Ret_inv in Hrun. destruct Hrun as (cmd & m1 & Hcmd & Hrun).
    apply bind_Ret_inv in Hrun. destruct Hrun as ([] & m2 & Hbody & Hrun).
    apply bind_Ret_inv in Hrun. destruct Hrun as (cmdsize & m3 & Hsize & Hrun).
    unfold load32 in Hcmd, Hsize. rewrite load_eq in Hcmd, Hsize.
    destruct (view_le header (addr + load_command_cmd) 4); [|discriminate].
    destruct (view_le header (addr + load_command_cmdsize) 4) as [sz|] eqn:Hsz;
      [|discriminate].
    inversion Hcmd. subst m1. inversion Hsize. subst m3 sz. clear Hcmd Hsize.
    assert (Hmid : exists t2, trace m2
                   = (trace m ++ [EvLoad r (addr + load_command_cmd) 4]) ++ t2).
    { revert Hbody.
      match goal with
      | |- ?c _ = _ -> _ => enough (E : extends_trace c)
      end.
      { intros Hbody. apply (E _ _ _ Hbody). }
      repeat (first
        [ apply extends_trace_ret | apply extends_trace_modify
        | apply extends_trace_reads_only, reads_only_load
        | apply extends_trace_reads_only, reads_only_strncmp_from
        | apply extends_trace_bind; [|intros ?]
        | match goal with
          | |- extends_trace (if ?b then _ else _) => destruct b
          end ]). }
    destruct Hmid as [t2 Hmid].
    destruct (IH _ _ _ Hrun) as (Hlen & t3 & Htr & Hall).
    cbn [command_addresses]. rewrite Hsz. cbn [List.length].
    split; [rewrite Hlen; reflexivity|].
    exists ([EvLoad r (addr + load_command_cmd) 4] ++ t2
            ++ [EvLoad r (addr + load_command_cmdsize) 4] ++ t3).
    split.
    + rewrite Htr. cbn [with_trace trace]. rewrite Hmid.
      rewrite <- !app_assoc. reflexivity.
    + constructor.
      * split; [apply in_or_app; left; left; reflexivity|].
        do 2 (apply in_or_app; right).
        apply in_or_app. left. left. reflexivity.
      * eapply Forall_impl; [|exact Hall]. intros a [H1 H2].
        split; do 3 (apply in_or_app; right); assumption.
Qed.

(** C4, at the inputs that break it.  A first load command of declared
    size zero is not reported: the walk returns normally, having read the
    command at offset 32 twice and never reached the text segment behind
    it.  A declared size of [0x4000] is not reported either: the second
    command is read at offset [32 + 0x4000], past the 8192 bytes of the
    header buffer. *)
Theorem processMachHeader_trusts_cmdsize :
  (exists m',
      processMachHeader RHeader (buf_view demo_zero_cmdsize_header) 0 demo_boot
      = Ret tt m'
      /\ load_addresses (trace m')
         = [16; 32; 40; 44; 48; 36; 32; 40; 44; 48; 36]
      /\ symboltable_fileoff (this m') = 8192
      /\ disk_text_addr (this m') = 0)
  /\
  (exists m',
      processMachHeader RHeader (buf_view demo_huge_cmdsize_header) 0 demo_boot
      = Fault m'
      /\ load_addresses (trace m') = [16; 32; 40; 44; 48; 36; 32 + 0x4000]
      /\ Z.of_nat (List.length demo_huge_cmdsize_header) = demo_HeaderSize).
Proof.
  split.
  - destruct (returns_Ret
                (processMachHeader RHeader (buf_view demo_zero_cmdsize_header)
                                   0 demo_boot)
                (fun _ m' =>
                   list_eqb Z.eqb (load_addresses (trace m'))
                            [16; 32; 40; 44; 48; 36; 32; 40; 44; 48; 36]
                   && (symboltable_fileoff (this m') =? 8192)
                   && (disk_text_addr (this m') =? 0)))
      as ([] & m' & Hrun & Hp); [vm_compute; reflexivity|].
    exists m'. split; [exact Hrun|].
    apply andb_prop in Hp. destruct Hp as [Hp Hdisk].
    apply andb_prop in Hp. destruct Hp as [Hloads Hsym].
    apply Z.eqb_eq in Hdisk, Hsym.
    split; [|split; assumption].
    apply list_eqb_Z. exact Hloads.
  - destruct (faults_Fault
                (processMachHeader RHeader (buf_view demo_huge_cmdsize_header)
                                   0 demo_boot)
                (fun m' =>
                   list_eqb Z.eqb (load_addresses (trace m'))
                            [16; 32; 40; 44; 48; 36; 32 + 0x4000]))
      as (m' & Hrun & Hloads); [vm_compute; reflexivity|].
    exists m'. split; [exact Hrun|]. split; [|vm_compute; reflexivity].
    apply list_eqb_Z. exact Hloads.
Qed.

(** ** [init]: the candidate paths and the vnode references *)

Section Candidates.

Variable HeaderSize : Z.
Variable CompressedMagic : Z.
Variable sizeof_CompressedHeader : Z.
Variable CompressedHeader_compression : Z.
Variable CompressedHeader_decompressed : Z.
Variable CompressedHeader_compressed : Z.

(** A candidate that opens but whose header is not accepted: the loop goes
    on to the next one having released the context only.  The iocount that
    [vnode_lookup] took on [vp] is in the state [m2] the header read ends
    in, and nothing between there and the next candidate drops it. *)
Lemma init_search_unparsed (fuel : nat) (machHeader machHeader' : list byte)
    (path : string) (rest : list string) (vp : vnode) (readError : Z)
    (m m2 : Machine) :
  sys_vnode_lookup (kern m) path = Some vp ->
  readMachHeader HeaderSize CompressedMagic sizeof_CompressedHeader
                 CompressedHeader_compression CompressedHeader_decompressed
                 CompressedHeader_compressed fuel machHeader vp 0
                 (looked_up path vp m)
  = Ret (readError, machHeader') m2 ->
  readError <> KERN_SUCCESS ->
  init_search HeaderSize CompressedMagic sizeof_CompressedHeader
              CompressedHeader_compression CompressedHeader_decompressed
              CompressedHeader_compressed fuel machHeader (path :: rest) m
  = init_search HeaderSize CompressedMagic sizeof_CompressedHeader
                CompressedHeader_compression CompressedHeader_decompressed
                CompressedHeader_compressed fuel machHeader' rest
                (context_released m2).
Proof.
  intros Hlookup Hread Herr. cbn [init_search].
  unfold bind at 1. unfold vfs_context_create at 1.
  unfold bind at 1. unfold vnode_lookup. unfold bind at 1. unfold emit at 1.
  unfold bind at 1. unfold get_kern at 1. cbn [kern]. rewrite Hlookup.
  cbn [this cr0 interrupts iocounts contexts trace kern].
  unfold bind at 1. unfold bind at 1.
  change (mkMachine (this m) (cr0 m) (interrupts m) (vp :: iocounts m)
                    (S (contexts m)) (trace m ++ [EvVnodeLookup path]) (kern m))
    with (looked_up path vp m).
  rewrite Hread.
  destruct (Z.eqb_spec readError KERN_SUCCESS) as [E|_]; [contradiction|].
  unfold ret at 1. unfold bind at 1. unfold vfs_context_rele at 1.
  reflexivity.
Qed.

End Candidates.

(** The outcome of [init] on the concrete system that the two runs below
    are tested for. *)
Lemma demo_init_outcome (paths : list string) (held : list vnode) :
  returns (demo_init 3 paths demo_boot)
          (fun r m' =>
             (r =? KERN_SUCCESS)
             && list_eqb Z.eqb (iocounts m') held
             && list_eqb Z.eqb (vnode_puts (trace m')) [demo_good_vnode]
             && Nat.eqb (contexts m') 0
             && (disk_text_addr (this m') =? 0x1000)
             && option_eqb (list_eqb Byte.eqb) (linkedit_buf (this m'))
                           (Some demo_linkedit)) = true ->
  exists m',
    demo_init 3 paths demo_boot = Ret KERN_SUCCESS m'
    /\ iocounts m' = held
    /\ vnode_puts (trace m') = [demo_good_vnode]
    /\ contexts m' = 0%nat
    /\ disk_text_addr (this m') = 0x1000
    /\ linkedit_buf (this m') = Some demo_linkedit.
Proof.
  intros H. apply returns_Ret in H. destruct H as (r & m' & Hrun & Hp).
  apply andb_prop in Hp. destruct Hp as [Hp Hbuf].
  apply andb_prop in Hp. destruct Hp as [Hp Hdisk].
  apply andb_prop in Hp. destruct Hp as [Hp Hctx].
  apply andb_prop in Hp. destruct Hp as [Hp Hputs].
  apply andb_prop in Hp. destruct Hp as [Hr Hio].
  apply Z.eqb_eq in Hr. subst r. exists m'. split; [exact Hrun|].
  split; [apply list_eqb_Z; exact Hio|].
  split; [apply list_eqb_Z; exact Hputs|].
  split; [apply Nat.eqb_eq; exact Hctx|].
  split; [apply Z.eqb_eq; exact Hdisk|].
  destruct (linkedit_buf (this m')) as [b|]; [|discriminate].
  f_equal. apply list_eqb_byte. exact Hbuf.
Qed.

(** C5, at the input that breaks it, and at the scenario of the
    specification.  A first candidate that opens but is no Mach-O image is
    given up without [vnode_put]: when [init] returns, with the handle built
    from the second candidate, the only vnode released is the second one
    and the reference on the first is still held.  A first candidate that
    does not open leaves nothing behind. *)
Theorem init_keeps_vnode_of_unparsed_candidate :
  (exists m',
      demo_init 3 ["/junk/path"; "/good/path"]%string demo_boot
      = Ret KERN_SUCCESS m'
      /\ iocounts m' = [demo_junk_vnode]
      /\ vnode_puts (trace m') = [demo_good_vnode]
      /\ contexts m' = 0%nat
      /\ disk_text_addr (this m') = 0x1000
      /\ linkedit_buf (this m') = Some demo_linkedit)
  /\
  (exists m',
      demo_init 3 ["/bad/path"; "/good/path"]%string demo_boot
      = Ret KERN_SUCCESS m'
      /\ iocounts m' = []
      /\ vnode_puts (trace m') = [demo_good_vnode]
      /\ contexts m' = 0%nat
      /\ disk_text_addr (this m') = 0x1000
      /\ linkedit_buf (this m') = Some demo_linkedit).
Proof.
  split.
  - apply demo_init_outcome. vm_compute. reflexivity.
  - apply demo_init_outcome. vm_compute. reflexivity.
Qed.

(** The whole pipeline on the concrete system: locate and load the image,
    find the slide, resolve "foo". *)
Example demo_pipeline :
  returns ((demo_init 3 ["/bad/path"; "/good/path"]%string ;;
            getRunningAddresses 0 0 ;;
            solveSymbol (bytes_of "foo")) demo_boot)
          (fun a m' => (a =? 0x5010) && (kaslr_slide (this m') =? 0x4000))
  = true.
Proof. vm_compute. reflexivity. Qed.

(** ** [readLinkedit]: what counts as read *)

Lemma readFileData_with_uio (buffer : list byte) (off sz : Z) (vp : vnode)
    (m : Machine) :
  sys_uio_create (kern m) off = true ->
  exists error buffer',
    readFileData buffer off sz vp m = Ret (error, buffer') m
    /\ (error = 0 ->
        exists data,
          sys_VNOP_READ (kern m) vp off sz = (0, data)
          /\ Z.of_nat (List.length (firstn (Z.to_nat sz) data)) = sz
          /\ buffer' = firstn (Z.to_nat sz) data
                       ++ skipn (List.length (firstn (Z.to_nat sz) data)) buffer).
Proof.
  intros Huio. unfold readFileData, bind, get_kern. rewrite Huio. cbn [negb].
  destruct (Z.eqb_spec (sys_uio_addiov (kern m) sz) 0) as [Hadd|Hadd];
    cbn [negb].
  2:{ eexists _, _. split; [reflexivity|]. intros E. contradiction. }
  destruct (sys_VNOP_READ (kern m) vp off sz) as [error data].
  destruct (Z.eqb_spec error 0) as [Herr|Herr]; cbn [negb].
  2:{ eexists _, _. split; [reflexivity|]. intros E. contradiction. }
  destruct (Z.eqb_spec (sz - Z.of_nat (List.length (firstn (Z.to_nat sz) data))) 0)
    as [Hres|Hres]; cbn [negb].
  - eexists _, _. split; [reflexivity|]. intros _. exists data. subst error.
    split; [reflexivity|]. split; [lia | reflexivity].
  - eexists _, _. split; [reflexivity|]. unfold EINVAL. intros E. discriminate.
Qed.

(** With the [uio] created, [readLinkedit] reports success from the file
    only after a read of exactly [linkedit_size] bytes: a read that ends
    with a residue is a failure. *)
Lemma readLinkedit_from_file (vp : vnode) (m m' : Machine) :
  file_buf (this m) = None ->
  sys_uio_create (kern m)
    (wrap64 (fat_offset (this m) + linkedit_fileoff (this m))) = true ->
  readLinkedit vp m = Ret KERN_SUCCESS m' ->
  exists data,
    sys_VNOP_READ (kern m) vp
      (wrap64 (fat_offset (this m) + linkedit_fileoff (this m)))
      (linkedit_size (this m)) = (0, data)
    /\ Z.of_nat (List.length (firstn (Z.to_nat (linkedit_size (this m))) data))
       = linkedit_size (this m)
    /\ exists rest,
         linkedit_buf (this m')
         = Some (firstn (Z.to_nat (linkedit_size (this m))) data ++ rest).
Proof.
  intros Hfb Huio Hrun. unfold readLinkedit in Hrun.
  unfold bind at 1 in Hrun. unfold get_this at 1 in Hrun.
  unfold bind at 1 in Hrun. unfold Buffer_create, bind, get_kern, ret in Hrun.
  unfold modify_this at 1 in Hrun.
  destruct (sys_buffer_create (kern m) (linkedit_size (this m))) as [junk|];
    cbn [option_map] in Hrun; [|discriminate].
  rewrite Hfb in Hrun.
  match type of Hrun with
  | context [readFileData ?b ?o ?s ?v ?mm] =>
      destruct (readFileData_with_uio b o s v mm Huio)
        as (error & buffer' & Hread & Hok)
  end.
  cbn [kern this] in Hread, Hok. rewrite Hread in Hrun.
  unfold modify_this in Hrun. cbn [this kern] in Hrun.
  destruct (Z.eqb_spec error 0) as [Herr|Herr]; cbn [negb] in Hrun;
    [|discriminate].
  destruct (Hok Herr) as (data & Hvnop & Hlen & Hbuf).
  exists data. split; [exact Hvnop|]. split; [exact Hlen|].
  inversion Hrun. subst m'. cbn [this linkedit_buf set_linkedit_buf].
  rewrite Hbuf. eexists. reflexivity.
Qed.

(** Without the [uio], [readFileData] returns 0 and the buffer as it was,
    and [readLinkedit] reports success for the buffer as allocated. *)
Lemma readLinkedit_uio_null (vp : vnode) (m : Machine) (junk : list byte) :
  file_buf (this m) = None ->
  sys_buffer_create (kern m) (linkedit_size (this m)) = Some junk ->
  sys_uio_create (kern m)
    (wrap64 (fat_offset (this m) + linkedit_fileoff (this m))) = false ->
  exists m',
    readLinkedit vp m = Ret KERN_SUCCESS m'
    /\ linkedit_buf (this m') = Some (resize (linkedit_size (this m)) junk).
Proof.
  intros Hfb Hjunk Huio. unfold readLinkedit.
  unfold bind at 1. unfold get_this at 1.
  unfold bind at 1. unfold Buffer_create, bind, get_kern, ret.
  rewrite Hjunk. cbn [option_map]. unfold modify_this at 1.
  rewrite Hfb. unfold readFileData, bind, get_kern.
  cbn [kern this]. rewrite Huio. cbn [negb]. unfold ret, modify_this.
  cbn [Z.eqb negb this]. eexists. split; reflexivity.
Qed.

(** C7, at the input that breaks it.  When [uio_create] returns null,
    [readFileData] logs it and returns its [error], still 0: [readLinkedit]
    reports success for a buffer into which nothing was read, and so does
    [init]. *)
Theorem readLinkedit_succeeds_without_reading :
  (exists m',
      readLinkedit demo_good_vnode demo_no_uio = Ret KERN_SUCCESS m'
      /\ linkedit_buf (this m') = Some (zeros 44)
      /\ Some demo_linkedit = slice demo_file 8192 44)
  /\
  (exists m',
      demo_init 3 ["/good/path"]%string demo_boot_no_uio = Ret KERN_SUCCESS m'
      /\ linkedit_buf (this m') = Some (zeros 44)).
Proof.
  split.
  - destruct (returns_Ret
                (readLinkedit demo_good_vnode demo_no_uio)
                (fun r m' =>
                   (r =? KERN_SUCCESS)
                   && option_eqb (list_eqb Byte.eqb) (linkedit_buf (this m'))
                                 (Some (zeros 44))))
      as (r & m' & Hrun & Hp); [vm_compute; reflexivity|].
    apply andb_prop in Hp. destruct Hp as [Hr Hbuf].
    apply Z.eqb_eq in Hr. subst r. exists m'. split; [exact Hrun|].
    split; [|vm_compute; reflexivity].
    destruct (linkedit_buf (this m')) as [b|]; [|discriminate].
    f_equal. apply list_eqb_byte. exact Hbuf.
  - destruct (returns_Ret
                (demo_init 3 ["/good/path"]%string demo_boot_no_uio)
                (fun r m' =>
                   (r =? KERN_SUCCESS)
                   && option_eqb (list_eqb Byte.eqb) (linkedit_buf (this m'))
                                 (Some (zeros 44))))
      as (r & m' & Hrun & Hp); [vm_compute; reflexivity|].
    apply andb_prop in Hp. destruct Hp as [Hr Hbuf].
    apply Z.eqb_eq in Hr. subst r. exists m'. split; [exact Hrun|].
    destruct (linkedit_buf (this m')) as [b|]; [|discriminate].
    f_equal. apply list_eqb_byte. exact Hbuf.
Qed.

(** * Further properties *)

(** ** Frames *)

Lemma preserves_ret {A B} (f : Machine -> B) (a : A) : preserves f (ret a).
Proof. intros m b m' H. inversion H. reflexivity. Qed.

Lemma preserves_bind {A B C} (f : Machine -> C) (c : M A) (k : A -> M B) :
  preserves f c -> (forall a, preserves f (k a)) -> preserves f (bind c k).
Proof.
  intros Hc Hk m b m' H. apply bind_Ret_inv in H.
  destruct H as (a & m1 & H1 & H2).
  rewrite (Hk a m1 b m' H2). exact (Hc m a m1 H1).
Qed.

Lemma preserves_if {A C} (f : Machine -> C) (b : bool) (c1 c2 : M A) :
  preserves f c1 -> preserves f c2 -> preserves f (if b then c1 else c2).
Proof. destruct b; auto. Qed.

Lemma preserves_reads_only {A C} (f : Machine -> C) (c : M A) :
  (forall m t, f (with_trace m t) = f m) -> reads_only c -> preserves f c.
Proof.
  intros Hf Hc m a m' H. destruct (Hc m) as [t [[a' Ha] | Hf']].
  - rewrite Ha in H. inversion H. apply Hf.
  - rewrite Hf' in H. discriminate.
Qed.

Lemma preserves_modify {C} (f : Machine -> C) (g : MachInfo -> MachInfo) :
  (forall m, f (mkMachine (g (this m)) (cr0 m) (interrupts m) (iocounts m)
                          (contexts m) (trace m) (kern m)) = f m) ->
  preserves f (modify_this g).
Proof. intros Hf m a m' H. inversion H. apply Hf. Qed.

Lemma preserves_get_this {C} (f : Machine -> C) : preserves f get_this.
Proof. intros m a m' H. inversion H. reflexivity. Qed.

Lemma preserves_get_kern {C} (f : Machine -> C) : preserves f get_kern.
Proof. intros m a m' H. inversion H. reflexivity. Qed.

(** ** [strncmp] of stored bytes against a literal *)

Lemma strncmp_from_stored_step r v a (l : list byte) i n m :
  strncmp_from (At r v a) (Lit l) i (S n) m =
  match v (a + i) with
  | None => Fault (with_trace m (trace m ++ [EvLoad r (a + i) 1]))
  | Some b =>
      let c2 := Z_of_byte (nth (Z.to_nat i) l x00) in
      let m' := with_trace m (trace m ++ [EvLoad r (a + i) 1]) in
      if negb (Z_of_byte b =? c2) then Ret (Z_of_byte b - c2) m'
      else if Z_of_byte b =? 0 then Ret 0 m'
      else strncmp_from (At r v a) (Lit l) (i + 1) n m'
  end.
Proof.
  cbn [strncmp_from cstr_get]. unfold bind at 1. rewrite load8_eq.
  destruct (v (a + i)) as [b|]; [|reflexivity].
  unfold bind at 1. unfold ret at 1. cbv zeta.
  destruct (negb _); [reflexivity|]. destruct (_ =? 0); reflexivity.
Qed.

(** Comparing the bytes stored at [a] with a literal shorter than the
    bound: the run ends at a return, of zero exactly when the literal and
    its terminator are what is stored, or at a fault on a byte that cannot
    be read, in which case they are not. *)
Lemma strncmp_from_literal r v a (suf : list byte) :
  forall (pre : list byte) (n : nat) (m : Machine),
    c_string suf ->
    (List.length suf < n)%nat ->
    exists t,
      (exists c,
          strncmp_from (At r v a) (Lit (pre ++ suf))
                       (Z.of_nat (List.length pre)) n m
          = Ret c (with_trace m (trace m ++ t))
          /\ (c = 0 <-> cstring_at v (a + Z.of_nat (List.length pre)) suf = true))
      \/
      (strncmp_from (At r v a) (Lit (pre ++ suf))
                    (Z.of_nat (List.length pre)) n m
       = Fault (with_trace m (trace m ++ t))
       /\ cstring_at v (a + Z.of_nat (List.length pre)) suf = false).
Proof.
  induction suf as [|x suf IH]; intros pre n m Hsuf Hn;
    (destruct n as [|n]; [cbn [List.length] in Hn; lia|]);
    rewrite strncmp_from_stored_step;
    rewrite Nat2Z.id, app_nth2, Nat.sub_diag by lia; cbn [nth];
    destruct (v (a + Z.of_nat (List.length pre))) as [b|] eqn:Hv.
  - change (Z_of_byte x00) with 0. cbv zeta.
    destruct (Z.eqb_spec (Z_of_byte b) 0) as [E|E]; cbn [negb].
    + eexists. left. eexists. split; [reflexivity|].
      cbn [cstring_at]. rewrite Hv. split; [intros _; lia | reflexivity].
    + eexists. left. eexists. split; [reflexivity|].
      cbn [cstring_at]. rewrite Hv. split; [lia|].
      intros H. apply Z.eqb_eq in H. contradiction.
  - eexists. right. split; [reflexivity|]. cbn [cstring_at]. rewrite Hv.
    reflexivity.
  - inversion Hsuf as [|? ? Hx Hsuf']; subst. cbv zeta.
    destruct (Z.eqb_spec (Z_of_byte b) (Z_of_byte x)) as [E|E]; cbn [negb].
    + rewrite E. destruct (Z.eqb_spec (Z_of_byte x) 0) as [E0|_];
        [contradiction|].
      specialize (IH (pre ++ [x]) n
                     (with_trace m
                        (trace m
                         ++ [EvLoad r (a + Z.of_nat (List.length pre)) 1]))
                     Hsuf').
      rewrite length_app in IH. cbn [List.length] in IH.
      rewrite Nat2Z.inj_add in IH. change (Z.of_nat 1) with 1 in IH.
      rewrite Z.add_assoc, <- app_assoc in IH. cbn [app] in IH.
      cbn [List.length] in Hn.
      destruct (IH ltac:(lia)) as [t [[c [Hrun Hiff]] | [Hrun Hno]]].
      * exists ([EvLoad r (a + Z.of_nat (List.length pre)) 1] ++ t).
        left. exists c. rewrite Hrun.
        cbn [with_trace this cr0 interrupts iocounts contexts trace kern].
        rewrite <- app_assoc. split; [reflexivity|].
        rewrite Hiff. cbn [cstring_at]. rewrite Hv, E, Z.eqb_refl.
        destruct (Z.eqb_spec (Z_of_byte x) 0); [contradiction|].
        cbn [negb andb]. tauto.
      * exists ([EvLoad r (a + Z.of_nat (List.length pre)) 1] ++ t).
        right. rewrite Hrun.
        cbn [with_trace this cr0 interrupts iocounts contexts trace kern].
        rewrite <- app_assoc. split; [reflexivity|].
        cbn [cstring_at]. rewrite Hv, Hno. apply andb_false_r.
    + eexists. left. eexists. split; [reflexivity|].
      cbn [cstring_at]. rewrite Hv. split; [lia|].
      intros H. apply andb_prop in H. destruct H as [H _].
      apply andb_prop in H. destruct H as [H _].
      apply Z.eqb_eq in H. contradiction.
  - eexists. right. split; [reflexivity|]. cbn [cstring_at]. rewrite Hv.
    reflexivity.
Qed.

Lemma c_string_str_TEXT : c_string str_TEXT.
Proof. repeat constructor; discriminate. Qed.

Lemma c_string_str_LINKEDIT : c_string str_LINKEDIT.
Proof. repeat constructor; discriminate. Qed.

(** [strncmp(p, "__TEXT", 16)] on stored bytes. *)
Lemma strncmp_TEXT r v a m :
  exists t,
    (exists c,
        strncmp (At r v a) (Lit str_TEXT) 16 m
        = Ret c (with_trace m (trace m ++ t))
        /\ ((c =? 0) = cstring_at v a str_TEXT))
    \/
    (strncmp (At r v a) (Lit str_TEXT) 16 m
     = Fault (with_trace m (trace m ++ t))
     /\ cstring_at v a str_TEXT = false).
Proof.
  destruct (strncmp_from_literal r v a str_TEXT [] 16%nat m c_string_str_TEXT)
    as [t [[c [Hrun Hiff]] | [Hrun Hno]]].
  { vm_compute. lia. }
  - exists t. left. exists c. split; [exact Hrun|].
    cbn [List.length Z.of_nat] in Hiff. rewrite Z.add_0_r in Hiff.
    destruct (Z.eqb_spec c 0) as [E|E];
      destruct (cstring_at v a str_TEXT); try reflexivity.
    + apply Hiff in E. discriminate.
    + exfalso. apply E, Hiff. reflexivity.
  - exists t. right. split; [exact Hrun|].
    cbn [List.length Z.of_nat] in Hno. rewrite Z.add_0_r in Hno. exact Hno.
Qed.

(** ** [findKernelBase] and [calculateInt80Address] *)

Lemma load_Ret_inv r v a w m z m' :
  load r v a w m = Ret z m' ->
  view_le v a w = Some z /\ m' = with_trace m (trace m ++ [EvLoad r a w]).
Proof.
  rewrite load_eq. destruct (view_le v a w); [|discriminate].
  intros H. inversion H. split; reflexivity.
Qed.

Lemma findKernelBase_scan_finds (mem : view) :
  forall (n : nat) (tmp : Z) (m : Machine) (a : Z) (m' : Machine),
    tmp = Z.of_nat n ->
    tmp < 2 ^ 64 ->
    findKernelBase_scan mem n tmp m = Ret a m' ->
    (forall b, a < b <= tmp -> kernel_signature mem b = false)
    /\ (a = 0 \/ (0 < a <= tmp /\ kernel_signature mem a = true))
    /\ exists t, m' = with_trace m (trace m ++ t).
Proof.
  induction n as [|n IH]; intros tmp m a m' Htmp Hlt Hrun.
  - inversion Hrun. subst. split; [intros b Hb; cbn in Hb; lia|].
    split; [left; reflexivity|]. exists []. symmetry. apply with_trace_app_nil.
  - cbn [findKernelBase_scan] in Hrun.
    apply bind_Ret_inv in Hrun. destruct Hrun as (magic & m1 & Hmagic & Hrun).
    apply load_Ret_inv in Hmagic. destruct Hmagic as [Hmagic ->].
    apply bind_Ret_inv in Hrun. destruct Hrun as (found & m2 & Hfound & Hrun).
    assert (Hsig : found = kernel_signature mem tmp
                   /\ exists t, m2 = with_trace m (trace m ++ t)).
    { unfold kernel_signature. rewrite Hmagic.
      destruct (magic =? MH_MAGIC_64).
      - apply bind_Ret_inv in Hfound.
        destruct Hfound as (c & m3 & Hcmp & Hret).
        match type of Hcmp with
        | strncmp (At ?r ?v ?p) _ _ ?mm = _ =>
            destruct (strncmp_TEXT r v p mm) as [t [[c' [Hc Hiff]] | [Hc _]]]
        end; rewrite Hc in Hcmp; [|discriminate].
        inversion Hcmp. subst c' m3. inversion Hret. subst found m2.
        split; [exact Hiff|].
        cbn [with_trace this cr0 interrupts iocounts contexts trace kern].
        rewrite <- app_assoc. eexists. reflexivity.
      - inversion Hfound. split; [reflexivity|]. eexists. reflexivity. }
    destruct Hsig as [Hsig [t2 ->]].
    assert (Hpos : 0 < tmp) by lia.
    destruct found.
    + inversion Hrun. subst a m'. split; [intros b Hb; lia|].
      split; [right; split; [lia | symmetry; exact Hsig]|].
      eexists. reflexivity.
    + unfold wrap64 in Hrun. rewrite Z.mod_small in Hrun by lia.
      destruct (Z.gtb_spec (tmp - 1) tmp) as [|_]; [lia|].
      destruct (IH (tmp - 1) _ a m' ltac:(lia) ltac:(lia) Hrun)
        as (Habove & Hres & t3 & ->).
      split.
      { intros b Hb. destruct (Z.eq_dec b tmp) as [->|Hne].
        - symmetry. exact Hsig.
        - apply Habove. lia. }
      split.
      { destruct Hres as [-> | [Hr Hs]]; [left; reflexivity|].
        right. split; [lia | exact Hs]. }
      cbn [with_trace this cr0 interrupts iocounts contexts trace kern].
      rewrite <- app_assoc. eexists. reflexivity.
Qed.

Lemma calculateInt80Address_inv (m : Machine) (start : Z) (m1 : Machine) :
  calculateInt80Address m = Ret start m1 ->
  0 <= start < 2 ^ 64 /\ exists t, m1 = with_trace m (trace m ++ t).
Proof.
  intros H. split.
  - unfold calculateInt80Address in H.
    repeat (apply bind_Ret_inv in H; destruct H as (? & ? & _ & H)).
    inversion H. apply Z.mod_pos_bound. lia.
  - assert (R : reads_only calculateInt80Address).
    { unfold calculateInt80Address, getIDTAddress.
      repeat (first [ apply reads_only_ret | apply reads_only_load
                    | apply reads_only_get_kern | apply reads_only_emit
                    | apply reads_only_bind; [|intros ?] ]). }
    destruct (R m) as [t [[a Ha] | Hf]]; rewrite H in *.
    + inversion Ha. exists t. reflexivity.
    + discriminate.
Qed.

(** X1: [findKernelBase] returns the highest address, not above the
    address of the interrupt [0x80] handler, at which the magic number of
    a 64-bit header is followed by a first command named "__TEXT"; it
    returns 0 when there is none down to address 1, and it changes nothing
    but the trace. *)
Theorem findKernelBase_highest_signature (m : Machine) (a : Z) (m' : Machine) :
  findKernelBase m = Ret a m' ->
  exists start m1,
    calculateInt80Address m = Ret start m1
    /\ 0 <= a <= start
    /\ (a <> 0 -> kernel_signature (kmem (kern m)) a = true)
    /\ (forall b, a < b <= start -> kernel_signature (kmem (kern m)) b = false)
    /\ exists t, m' = with_trace m (trace m ++ t).
Proof.
  intros Hrun. unfold findKernelBase in Hrun.
  apply bind_Ret_inv in Hrun. destruct Hrun as (start & m1 & Hstart & Hrun).
  exists start, m1. split; [exact Hstart|].
  apply calculateInt80Address_inv in Hstart.
  destruct Hstart as [Hrange [t1 ->]].
  unfold bind at 1 in Hrun. unfold get_kern at 1 in Hrun.
  cbn [kern with_trace] in Hrun.
  apply findKernelBase_scan_finds in Hrun; [|lia|lia].
  destruct Hrun as (Habove & Hres & t2 & ->).
  split; [destruct Hres as [-> | [Hr _]]; lia|].
  split; [intros Hne; destruct Hres as [-> | [_ Hs]]; [contradiction | exact Hs]|].
  split; [exact Habove|].
  cbn [with_trace this cr0 interrupts iocounts contexts trace kern].
  rewrite <- app_assoc. eexists. reflexivity.
Qed.

Lemma demo_boot_finds_base :
  exists m', findKernelBase demo_boot = Ret 0x5000 m'.
Proof.
  destruct (returns_Ret (findKernelBase demo_boot)
              (fun a _ => a =? 0x5000))
    as (a & m' & Hrun & Hp); [vm_compute; reflexivity|].
  apply Z.eqb_eq in Hp. subst a. exists m'. exact Hrun.
Defined.

Lemma findKernelBase_highest_signature_witness :
  kernel_signature demo_kmem 0x5000 = true
  /\ exists start, 0x5000 <= start
                   /\ forall b, 0x5000 < b <= start ->
                                kernel_signature demo_kmem b = false.
Proof.
  destruct demo_boot_finds_base as [m' Hrun].
  destruct (findKernelBase_highest_signature demo_boot 0x5000 m' Hrun)
    as (start & m1 & _ & Hle & Hsig & Habove & _).
  split; [apply Hsig; discriminate|].
  exists start. split; [lia | exact Habove].
Defined.

Lemma shiftl_mul_pow2 (x n : Z) : 0 <= n -> Z.shiftl x n = x * 2 ^ n.
Proof. intros Hn. apply Z.shiftl_mul_pow2. exact Hn. Qed.

(** X2: [calculateInt80Address] puts together again a 64-bit handler
    address that the gate [0x80] of the IDT holds split in three, low
    16 bits, middle 16 bits and high 32 bits: whatever the address, none
    of its bits is lost in the shifts and the sum. *)
Theorem calculateInt80Address_reassembles (m : Machine) (handler : Z) :
  let gate := idtr_base (kern m) + sizeof_descriptor_idt * 0x80 in
  u64 handler ->
  view_le (kmem (kern m)) (gate + descriptor_idt_offset_low) 2
  = Some (handler mod 2 ^ 16) ->
  view_le (kmem (kern m)) (gate + descriptor_idt_offset_middle) 2
  = Some ((handler / 2 ^ 16) mod 2 ^ 16) ->
  view_le (kmem (kern m)) (gate + descriptor_idt_offset_high) 4
  = Some (handler / 2 ^ 32) ->
  exists t, calculateInt80Address m = Ret handler (with_trace m (trace m ++ t)).
Proof.
  intros gate Hu Hlow Hmid Hhigh. subst gate.
  unfold calculateInt80Address, getIDTAddress.
  unfold bind, emit, get_kern, ret, load32, load16.
  cbn [this cr0 interrupts iocounts contexts trace kern].
  rewrite !load_eq.
  cbn [this cr0 interrupts iocounts contexts trace kern with_trace].
  rewrite Hhigh. rewrite load_eq.
  cbn [this cr0 interrupts iocounts contexts trace kern with_trace].
  rewrite Hmid. rewrite load_eq.
  cbn [this cr0 interrupts iocounts contexts trace kern with_trace].
  rewrite Hlow.
  unfold u64 in Hu.
  assert (H16 : 0 <= handler mod 2 ^ 16 < 2 ^ 16)
    by (apply Z.mod_pos_bound; lia).
  assert (Hm16 : 0 <= (handler / 2 ^ 16) mod 2 ^ 16 < 2 ^ 16)
    by (apply Z.mod_pos_bound; lia).
  assert (Hh : 0 <= handler / 2 ^ 32 < 2 ^ 32).
  { split; [apply Z.div_pos; lia|]. apply Z.div_lt_upper_bound; lia. }
  assert (Hsplit : handler
                   = handler / 2 ^ 32 * 2 ^ 32
                     + (handler / 2 ^ 16) mod 2 ^ 16 * 2 ^ 16
                     + handler mod 2 ^ 16).
  { pose proof (Z.div_mod handler (2 ^ 16) ltac:(lia)) as E1.
    pose proof (Z.div_mod (handler / 2 ^ 16) (2 ^ 16) ltac:(lia)) as E2.
    rewrite Z.div_div in E2 by lia.
    change (2 ^ 16 * 2 ^ 16) with (2 ^ 32) in E2. lia. }
  rewrite !shiftl_mul_pow2 by lia.
  unfold wrap64, wrap32.
  rewrite (Z.mod_small (handler / 2 ^ 32 * 2 ^ 32)) by lia.
  rewrite (Z.mod_small ((handler / 2 ^ 16) mod 2 ^ 16 * 2 ^ 16)) by lia.
  rewrite <- Hsplit. rewrite Z.mod_small by lia.
  rewrite <- !app_assoc. eexists. reflexivity.
Qed.

Lemma calculateInt80Address_reassembles_witness :
  exists t, calculateInt80Address demo_boot
            = Ret 0x5100 (with_trace demo_boot (trace demo_boot ++ t)).
Proof.
  apply (calculateInt80Address_reassembles demo_boot 0x5100).
  - unfold u64. lia.
  - reflexivity.
  - reflexivity.
  - reflexivity.
Defined.

(** ** Walks over the load commands *)

Lemma getUUID_walk_first (r : region) (mem : view) :
  forall (todo : nat) (addr : Z) (m : Machine) (res : option Z) (m' : Machine),
    getUUID_walk r mem todo addr m = Ret res m' ->
    (exists t, m' = with_trace m (trace m ++ t))
    /\ match res with
       | Some p =>
           exists before rest,
             command_addresses mem todo addr
             = before ++ (p - uuid_command_uuid) :: rest
             /\ Forall (fun a => exists c, command_at mem a = Some c
                                           /\ c <> LC_UUID) before
             /\ command_at mem (p - uuid_command_uuid) = Some LC_UUID
       | None =>
           List.length (command_addresses mem todo addr) = todo
           /\ Forall (fun a => exists c, command_at mem a = Some c
                                         /\ c <> LC_UUID)
                     (command_addresses mem todo addr)
       end.
Proof.
  induction todo as [|todo IH]; intros addr m res m' Hrun.
  - inversion Hrun. subst. split.
    + exists []. symmetry. apply with_trace_app_nil.
    + split; [reflexivity | constructor].
  - cbn [getUUID_walk] in Hrun.
    apply bind_Ret_inv in Hrun. destruct Hrun as (cmd & m1 & Hcmd & Hrun).
    apply load_Ret_inv in Hcmd. destruct Hcmd as [Hcmd ->].
    destruct (Z.eqb_spec cmd LC_UUID) as [E|E].
    + inversion Hrun. subst res m'. split; [eexists; reflexivity|].
      replace (addr + uuid_command_uuid - uuid_command_uuid) with addr by lia.
      exists [], (match view_le mem (addr + load_command_cmdsize) 4 with
                  | Some cmdsize => command_addresses mem todo (addr + cmdsize)
                  | None => []
                  end).
      split; [reflexivity|]. split; [constructor|].
      unfold command_at. rewrite Hcmd, E. reflexivity.
    + apply bind_Ret_inv in Hrun. destruct Hrun as (sz & m2 & Hsz & Hrun).
      apply load_Ret_inv in Hsz. destruct Hsz as [Hsz ->].
      apply IH in Hrun. destruct Hrun as [[t ->] Hres].
      split.
      { cbn [with_trace this cr0 interrupts iocounts contexts trace kern].
        rewrite <- !app_assoc. eexists. reflexivity. }
      cbn [command_addresses]. rewrite Hsz.
      assert (Hhere : exists c, command_at mem addr = Some c /\ c <> LC_UUID).
      { exists cmd. split; [exact Hcmd | exact E]. }
      destruct res as [p|].
      * destruct Hres as (before & rest & Heq & Hbefore & Hat).
        exists (addr :: before), rest. rewrite Heq.
        split; [reflexivity|]. split; [constructor; assumption | exact Hat].
      * destruct Hres as [Hlen Hall]. cbn [List.length]. rewrite Hlen.
        split; [reflexivity | constructor; assumption].
Qed.

(** X3: [getUUID] on a header returns the address of the identifier of the
    first [LC_UUID] command among the [ncmds] commands, each found at the
    distance the one before declares; it returns null when the walk has
    passed all [ncmds] commands and none is [LC_UUID]. *)
Theorem getUUID_first_uuid_command (r : region) (mem : view) (mh : Z)
    (m : Machine) (res : option Z) (m' : Machine) :
  getUUID r mem (Some mh) m = Ret res m' ->
  exists ncmds,
    view_le mem (mh + mach_header_64_ncmds) 4 = Some ncmds
    /\ let commands := command_addresses mem (Z.to_nat ncmds)
                                         (mh + sizeof_mach_header_64) in
       match res with
       | Some p =>
           exists before rest,
             commands = before ++ (p - uuid_command_uuid) :: rest
             /\ Forall (fun a => exists c, command_at mem a = Some c
                                           /\ c <> LC_UUID) before
             /\ command_at mem (p - uuid_command_uuid) = Some LC_UUID
       | None =>
           List.length commands = Z.to_nat ncmds
           /\ Forall (fun a => exists c, command_at mem a = Some c
                                         /\ c <> LC_UUID) commands
       end.
Proof.
  intros Hrun. cbn [getUUID] in Hrun.
  apply bind_Ret_inv in Hrun. destruct Hrun as (ncmds & m1 & Hn & Hrun).
  apply load_Ret_inv in Hn. destruct Hn as [Hn ->].
  exists ncmds. split; [exact Hn|].
  apply getUUID_walk_first in Hrun. exact (proj2 Hrun).
Qed.

Lemma demo_file_uuid :
  exists m', getUUID RHeader (buf_view demo_file) (Some 0) demo_boot
             = Ret (Some 208) m'.
Proof.
  destruct (returns_Ret
              (getUUID RHeader (buf_view demo_file) (Some 0) demo_boot)
              (fun res _ => option_eqb Z.eqb res (Some 208)))
    as (res & m' & Hrun & Hp); [vm_compute; reflexivity|].
  destruct res as [p|]; [|discriminate].
  apply Z.eqb_eq in Hp. subst p. exists m'. exact Hrun.
Defined.

Lemma getUUID_first_uuid_command_witness :
  command_at (buf_view demo_file) 200 = Some LC_UUID
  /\ exists before rest,
       command_addresses (buf_view demo_file) 4 32 = before ++ 200 :: rest
       /\ Forall (fun a => exists c, command_at (buf_view demo_file) a = Some c
                                     /\ c <> LC_UUID) before.
Proof.
  destruct demo_file_uuid as [m' Hrun].
  destruct (getUUID_first_uuid_command RHeader (buf_view demo_file) 0
              demo_boot (Some 208) m' Hrun) as (ncmds & Hn & Hres).
  assert (E : ncmds = 4) by (vm_compute in Hn; congruence). subst ncmds.
  cbv zeta in Hres. destruct Hres as (before & rest & Heq & Hbefore & Hat).
  split; [exact Hat|]. exists before, rest. split; [exact Heq | exact Hbefore].
Defined.

(** ** [isCurrentKernel] *)

Lemma view_le_app (v : view) (n k : nat) :
  forall a,
    view_le v a (n + k) =
    match view_le v a n, view_le v (a + Z.of_nat n) k with
    | Some lo, Some hi => Some (lo + 256 ^ Z.of_nat n * hi)
    | _, _ => None
    end.
Proof.
  induction n as [|n IH]; intros a.
  - cbn [Nat.add view_le Z.of_nat]. rewrite Z.add_0_r.
    destruct (view_le v a k); [|reflexivity].
    f_equal. change (256 ^ 0) with 1. lia.
  - cbn [Nat.add view_le]. rewrite IH.
    rewrite Nat2Z.inj_succ.
    replace (a + 1 + Z.of_nat n) with (a + Z.succ (Z.of_nat n)) by lia.
    destruct (v a) as [b|]; [|reflexivity].
    destruct (view_le v (a + 1) n) as [lo|]; [|reflexivity].
    destruct (view_le v (a + Z.succ (Z.of_nat n)) k) as [hi|]; [|reflexivity].
    f_equal. rewrite Z.pow_succ_r by lia. ring.
Qed.

Lemma view_le_16 (v : view) (a : Z) :
  view_le v a 16 =
  match view_le v a 8, view_le v (a + 8) 8 with
  | Some lo, Some hi => Some (lo + 2 ^ 64 * hi)
  | _, _ => None
  end.
Proof. exact (view_le_app v 8 8 a). Qed.

Lemma reads_only_getUUID_walk r mem todo :
  forall addr, reads_only (getUUID_walk r mem todo addr).
Proof.
  induction todo as [|todo IH]; intros addr; cbn [getUUID_walk].
  - apply reads_only_ret.
  - apply reads_only_bind; [apply reads_only_load|]. intros cmd.
    destruct (cmd =? LC_UUID); [apply reads_only_ret|].
    apply reads_only_bind; [apply reads_only_load|]. intros sz. apply IH.
Qed.

Lemma reads_only_getUUID r mem header : reads_only (getUUID r mem header).
Proof.
  destruct header as [mh|]; cbn [getUUID]; [|apply reads_only_ret].
  apply reads_only_bind; [apply reads_only_load|]. intros n.
  apply reads_only_getUUID_walk.
Qed.

Lemma reads_only_Ret_inv {A} (c : M A) (m : Machine) (a : A) (m' : Machine) :
  reads_only c -> c m = Ret a m' ->
  exists t, m' = with_trace m (trace m ++ t).
Proof.
  intros Hc H. destruct (Hc m) as [t [[a' Ha] | Hf]]; rewrite H in *.
  - inversion Ha. exists t. reflexivity.
  - discriminate.
Qed.

(** X4: [isCurrentKernel] answers true exactly when [getUUID] finds an
    identifier both in the header read from the file and in the header at
    the base that [findKernelBase] returns, and the two 16-byte
    identifiers are equal.  In particular it answers false when no base
    is found.  The handle is not changed. *)
Theorem isCurrentKernel_compares_uuids (kernelHeader : list byte)
    (m : Machine) (b : bool) (m' : Machine) :
  isCurrentKernel kernelHeader m = Ret b m' ->
  exists base m1 uuid1 m2 uuid2 m3,
    findKernelBase m = Ret base m1
    /\ getUUID RHeader (buf_view kernelHeader) (Some 0) m1 = Ret uuid1 m2
    /\ getUUID RKernel (kmem (kern m)) (pointer_of_address base) m2
       = Ret uuid2 m3
    /\ (b = true <->
        exists p1 p2 id,
          uuid1 = Some p1 /\ uuid2 = Some p2
          /\ view_le (buf_view kernelHeader) p1 16 = Some id
          /\ view_le (kmem (kern m)) p2 16 = Some id)
    /\ (base = 0 -> b = false)
    /\ this m' = this m.
Proof.
  intros Hrun. unfold isCurrentKernel in Hrun.
  apply bind_Ret_inv in Hrun. destruct Hrun as (base & m1 & Hbase & Hrun).
  destruct (reads_only_Ret_inv _ _ _ _ reads_only_findKernelBase Hbase)
    as [t1 E1].
  unfold bind at 1 in Hrun. unfold get_kern at 1 in Hrun.
  assert (Hk : kern m1 = kern m) by (rewrite E1; reflexivity).
  rewrite Hk in Hrun.
  apply bind_Ret_inv in Hrun. destruct Hrun as (uuid1 & m2 & Hu1 & Hrun).
  destruct (reads_only_Ret_inv _ _ _ _ (reads_only_getUUID _ _ _) Hu1)
    as [t2 E2].
  apply bind_Ret_inv in Hrun. destruct Hrun as (uuid2 & m3 & Hu2 & Hrun).
  destruct (reads_only_Ret_inv _ _ _ _ (reads_only_getUUID _ _ _) Hu2)
    as [t3 E3].
  exists base, m1, uuid1, m2, uuid2, m3.
  split; [exact Hbase|]. split; [exact Hu1|]. split; [exact Hu2|].
  assert (Hnull : base = 0 -> uuid2 = None).
  { intros ->. cbn in Hu2. inversion Hu2. reflexivity. }
  assert (Hthis3 : this m3 = this m) by (rewrite E3, E2, E1; reflexivity).
  destruct uuid1 as [p1|]; [destruct uuid2 as [p2|]|].
  - apply bind_Ret_inv in Hrun. destruct Hrun as (a0 & m4 & Ha0 & Hrun).
    apply load_Ret_inv in Ha0. destruct Ha0 as [Ha0 ->].
    apply bind_Ret_inv in Hrun. destruct Hrun as (b0 & m5 & Hb0 & Hrun).
    apply load_Ret_inv in Hb0. destruct Hb0 as [Hb0 ->].
    pose proof (view_le_range _ _ _ _ Ha0) as Ra0.
    pose proof (view_le_range _ _ _ _ Hb0) as Rb0.
    change (256 ^ Z.of_nat 8) with (2 ^ 64) in Ra0, Rb0.
    destruct (Z.eqb_spec a0 b0) as [E|E].
    + apply bind_Ret_inv in Hrun. destruct Hrun as (a1 & m6 & Ha1 & Hrun).
      apply load_Ret_inv in Ha1. destruct Ha1 as [Ha1 ->].
      apply bind_Ret_inv in Hrun. destruct Hrun as (b1 & m7 & Hb1 & Hrun).
      apply load_Ret_inv in Hb1. destruct Hb1 as [Hb1 ->].
      inversion Hrun. subst b m'.
      split; [|split; [intros ->; discriminate (Hnull eq_refl) | exact Hthis3]].
      split.
      * intros Heq. apply Z.eqb_eq in Heq. subst.
        exists p1, p2, (b0 + 2 ^ 64 * b1).
        rewrite !view_le_16, Ha0, Hb0, Ha1, Hb1. repeat split; reflexivity.
      * intros (q1 & q2 & id & H1 & H2 & H3 & H4).
        inversion H1. inversion H2. subst q1 q2.
        rewrite view_le_16, Ha0, Ha1 in H3.
        rewrite view_le_16, Hb0, Hb1 in H4.
        pose proof (view_le_range _ _ _ _ Ha1) as Ra1.
        pose proof (view_le_range _ _ _ _ Hb1) as Rb1.
        apply Z.eqb_eq.
        assert (a0 + 2 ^ 64 * a1 = b0 + 2 ^ 64 * b1) by congruence. lia.
    + inversion Hrun. subst b m'.
      split; [|split; [intros ->; discriminate (Hnull eq_refl) | exact Hthis3]].
      split; [discriminate|].
      intros (q1 & q2 & id & H1 & H2 & H3 & H4).
      inversion H1. inversion H2. subst q1 q2. exfalso.
      rewrite view_le_16, Ha0 in H3. rewrite view_le_16, Hb0 in H4.
      destruct (view_le (buf_view kernelHeader) (p1 + 8) 8) as [a1|];
        [|discriminate].
      destruct (view_le (kmem (kern m)) (p2 + 8) 8) as [b1|]; [|discriminate].
      assert (a0 + 2 ^ 64 * a1 = b0 + 2 ^ 64 * b1) by congruence. lia.
  - inversion Hrun. subst b m'.
    split; [|split; [reflexivity | exact Hthis3]].
    split; [discriminate|].
    intros (q1 & q2 & id & _ & H2 & _). discriminate.
  - assert (b = false /\ m' = m3) as [-> ->]
      by (destruct uuid2; inversion Hrun; split; reflexivity).
    split; [|split; [reflexivity | exact Hthis3]].
    split; [discriminate|].
    intros (q1 & q2 & id & H1 & _). discriminate.
Qed.

Lemma demo_file_is_current :
  exists m', isCurrentKernel demo_file demo_boot = Ret true m'.
Proof.
  destruct (returns_Ret (isCurrentKernel demo_file demo_boot)
              (fun b _ => b))
    as (b & m' & Hrun & Hp); [vm_compute; reflexivity|].
  subst b. exists m'. exact Hrun.
Defined.

Lemma isCurrentKernel_compares_uuids_witness :
  exists p1 p2 id,
    view_le (buf_view demo_file) p1 16 = Some id
    /\ view_le demo_kmem p2 16 = Some id.
Proof.
  destruct demo_file_is_current as [m' Hrun].
  destruct (isCurrentKernel_compares_uuids demo_file demo_boot true m' Hrun)
    as (base & m1 & u1 & m2 & u2 & m3 & _ & _ & _ & Hiff & _).
  destruct (proj1 Hiff eq_refl) as (p1 & p2 & id & _ & _ & H1 & H2).
  exists p1, p2, id. split; assumption.
Defined.

(** ** [processMachHeader]: what it leaves alone *)

Lemma preserves_processMachHeader_walk {C} (f : Machine -> C) r header todo :
  (forall m t, f (with_trace m t) = f m) ->
  (forall m g,
      unparsed_fields (g (this m)) = unparsed_fields (this m) ->
      f (mkMachine (g (this m)) (cr0 m) (interrupts m) (iocounts m)
                   (contexts m) (trace m) (kern m)) = f m) ->
  forall addr, preserves f (processMachHeader_walk r header todo addr).
Proof.
  intros Htrace Hparsed.
  assert (Hmod : forall g, (forall h, unparsed_fields (g h) = unparsed_fields h) ->
                           preserves f (modify_this g)).
  { intros g Hg m a m' H. inversion H. apply Hparsed. apply Hg. }
  assert (Hread : forall A (c : M A), reads_only c -> preserves f c).
  { intros A c Hc. apply preserves_reads_only; assumption. }
  induction todo as [|todo IH]; intros addr; cbn [processMachHeader_walk].
  - apply preserves_ret.
  - apply preserves_bind; [apply Hread, reads_only_load|]. intros cmd.
    apply preserves_bind.
    { destruct (cmd =? LC_SEGMENT_64).
      - apply preserves_bind; [apply Hread, reads_only_strncmp_from|].
        intros isText. destruct (isText =? 0).
        + apply preserves_bind; [apply Hread, reads_only_load|].
          intros v. apply Hmod. reflexivity.
        + apply preserves_bind; [apply Hread, reads_only_strncmp_from|].
          intros isLinkedit. destruct (isLinkedit =? 0);
            [|apply preserves_ret].
          apply preserves_bind; [apply Hread, reads_only_load|]. intros v1.
          apply preserves_bind; [apply Hmod; reflexivity|]. intros _.
          apply preserves_bind; [apply Hread, reads_only_load|]. intros v2.
          apply Hmod. reflexivity.
      - destruct (cmd =? LC_SYMTAB); [|apply preserves_ret].
        apply preserves_bind; [apply Hread, reads_only_load|]. intros v1.
        apply preserves_bind; [apply Hmod; reflexivity|]. intros _.
        apply preserves_bind; [apply Hread, reads_only_load|]. intros v2.
        apply preserves_bind; [apply Hmod; reflexivity|]. intros _.
        apply preserves_bind; [apply Hread, reads_only_load|]. intros v3.
        apply Hmod. reflexivity. }
    intros _. apply preserves_bind; [apply Hread, reads_only_load|].
    intros sz. apply IH.
Qed.

Lemma preserves_processMachHeader {C} (f : Machine -> C) r mem header :
  (forall m t, f (with_trace m t) = f m) ->
  (forall m g,
      unparsed_fields (g (this m)) = unparsed_fields (this m) ->
      f (mkMachine (g (this m)) (cr0 m) (interrupts m) (iocounts m)
                   (contexts m) (trace m) (kern m)) = f m) ->
  preserves f (processMachHeader r mem header).
Proof.
  intros Htrace Hparsed. unfold processMachHeader.
  apply preserves_bind.
  - apply preserves_reads_only; [exact Htrace | apply reads_only_load].
  - intros n. apply preserves_processMachHeader_walk; assumption.
Qed.

(** X5: whatever the header holds, [processMachHeader] assigns nothing but
    the static text address, the offset and size of [__LINKEDIT] and the
    three fields of the symbol table: the slide and its flag, the running
    addresses, the two buffers, the container offset and the memory size
    are as before, and so are the processor state and the VFS references. *)
Theorem processMachHeader_frame (r : region) (mem : view) (header : Z)
    (m m' : Machine) :
  processMachHeader r mem header m = Ret tt m' ->
  unparsed_fields (this m') = unparsed_fields (this m)
  /\ surroundings m' = surroundings m.
Proof.
  intros Hrun. split.
  - revert Hrun.
    apply (preserves_processMachHeader
             (fun m => unparsed_fields (this m)) r mem header).
    + intros; reflexivity.
    + intros m0 g Hg. exact Hg.
  - revert Hrun.
    apply (preserves_processMachHeader surroundings r mem header).
    + intros; reflexivity.
    + intros; reflexivity.
Qed.

Lemma demo_file_parses :
  exists m', processMachHeader RHeader (buf_view demo_file) 0 demo_ready
             = Ret tt m'.
Proof.
  destruct (returns_Ret
              (processMachHeader RHeader (buf_view demo_file) 0 demo_ready)
              (fun _ _ => true))
    as ([] & m' & Hrun & _); [vm_compute; reflexivity|].
  exists m'. exact Hrun.
Defined.

Lemma processMachHeader_frame_witness :
  exists m',
    processMachHeader RHeader (buf_view demo_file) 0 demo_ready = Ret tt m'
    /\ kaslr_slide (this m') = 0x4000
    /\ linkedit_buf (this m') = Some demo_linkedit.
Proof.
  destruct demo_file_parses as [m' Hrun]. exists m'.
  split; [exact Hrun|].
  destruct (processMachHeader_frame RHeader (buf_view demo_file) 0
              demo_ready m' Hrun) as [Hfields _].
  unfold unparsed_fields in Hfields. inversion Hfields.
  split; reflexivity.
Defined.

(** ** [getRunningAddresses]: what it finds and what it leaves *)

Lemma getRunningAddresses_walk_locates (mem : view) (mh : Z) :
  forall (todo : nat) (addr : Z) (m m' : Machine),
    getRunningAddresses_walk mem mh todo addr m = Ret tt m' ->
    surroundings m' = surroundings m
    /\ (this m' = this m
        \/ exists before a rest v,
             command_addresses mem todo addr = before ++ a :: rest
             /\ Forall (fun b => text_segment_at mem b = false) before
             /\ text_segment_at mem a = true
             /\ view_le mem (a + segment_command_64_vmaddr) 8 = Some v
             /\ this m' = set_running_mh mh (set_running_text_addr v (this m))).
Proof.
  induction todo as [|todo IH]; intros addr m m' Hrun.
  - inversion Hrun. split; [reflexivity | left; reflexivity].
  - cbn [getRunningAddresses_walk] in Hrun.
    apply bind_Ret_inv in Hrun. destruct Hrun as (cmd & m1 & Hcmd & Hrun).
    apply load_Ret_inv in Hcmd. destruct Hcmd as [Hcmd ->].
    apply bind_Ret_inv in Hrun. destruct Hrun as (found & m2 & Hfound & Hrun).
    assert (Hsig : found = text_segment_at mem addr
                   /\ exists t, m2 = with_trace m (trace m ++ t)).
    { unfold text_segment_at, command_at. rewrite Hcmd.
      destruct (cmd =? LC_SEGMENT_64).
      - apply bind_Ret_inv in Hfound.
        destruct Hfound as (c & m3 & Hcmp & Hret).
        match type of Hcmp with
        | strncmp (At ?r ?v ?p) _ _ ?mm = _ =>
            destruct (strncmp_TEXT r v p mm) as [t [[c' [Hc Hiff]] | [Hc _]]]
        end; rewrite Hc in Hcmp; [|discriminate].
        inversion Hcmp. subst c' m3. inversion Hret. subst found m2.
        split; [exact Hiff|].
        cbn [with_trace this cr0 interrupts iocounts contexts trace kern].
        rewrite <- app_assoc. eexists. reflexivity.
      - inversion Hfound. split; [reflexivity|]. eexists. reflexivity. }
    destruct Hsig as [Hsig [t2 ->]].
    destruct found.
    + apply bind_Ret_inv in Hrun. destruct Hrun as (v & m3 & Hv & Hrun).
      apply load_Ret_inv in Hv. destruct Hv as [Hv ->].
      unfold bind, modify_this in Hrun. inversion Hrun. subst m'.
      split; [reflexivity|]. right.
      exists [], addr,
        (match view_le mem (addr + load_command_cmdsize) 4 with
         | Some cmdsize => command_addresses mem todo (addr + cmdsize)
         | None => []
         end), v.
      split; [reflexivity|]. split; [constructor|].
      split; [symmetry; exact Hsig|]. split; [exact Hv | reflexivity].
    + apply bind_Ret_inv in Hrun. destruct Hrun as (sz & m3 & Hsz & Hrun).
      apply load_Ret_inv in Hsz. destruct Hsz as [Hsz ->].
      apply IH in Hrun. destruct Hrun as [Hsur Hres].
      split; [rewrite Hsur; reflexivity|].
      destruct Hres as [Hsame | (before & a & rest & v & Heq & Hb & Ha & Hv & Hthis)].
      * left. rewrite Hsame. reflexivity.
      * right. exists (addr :: before), a, rest, v.
        cbn [command_addresses]. rewrite Hsz, Heq.
        split; [reflexivity|].
        split; [constructor; [symmetry; exact Hsig | exact Hb]|].
        split; [exact Ha|]. split; [exact Hv | exact Hthis].
Qed.

(** A call with a supplied base that has to compute the slide, on a handle
    that has no running header yet. *)
Lemma getRunningAddresses_supplied (slide size : Z) (m m' : Machine) :
  kaslr_slide_set (this m) = false ->
  running_mh (this m) = 0 ->
  slide <> 0 ->
  getRunningAddresses slide size m = Ret KERN_SUCCESS m' ->
  running_mh (this m') = slide
  /\ memory_size (this m')
     = (if size >? 0 then size else memory_size (this m))
  /\ exists ncmds before a rest,
       view_le (kmem (kern m)) (slide + mach_header_64_ncmds) 4 = Some ncmds
       /\ command_addresses (kmem (kern m)) (Z.to_nat ncmds)
                            (slide + sizeof_mach_header_64)
          = before ++ a :: rest
       /\ Forall (fun b => text_segment_at (kmem (kern m)) b = false) before
       /\ text_segment_at (kmem (kern m)) a = true
       /\ view_le (kmem (kern m)) (a + segment_command_64_vmaddr) 8
          = Some (running_text_addr (this m')).
Proof.
  intros Hunset Hmh Hslide Hrun. unfold getRunningAddresses in Hrun.
  apply bind_Ret_inv in Hrun. destruct Hrun as (h & m0 & Hget & Hrun).
  inversion Hget. subst h m0. clear Hget. rewrite Hunset in Hrun.
  apply bind_Ret_inv in Hrun. destruct Hrun as ([] & m1 & Hsize & Hrun).
  assert (H1 : this m1 = (if size >? 0 then set_memory_size size (this m)
                          else this m)
               /\ kern m1 = kern m).
  { destruct (size >? 0); inversion Hsize; split; reflexivity. }
  destruct H1 as [Hthis1 Hkern1].
  destruct (Z.eqb_spec slide 0) as [|_]; [contradiction|].
  cbn [negb] in Hrun.
  unfold bind at 1 in Hrun. unfold ret at 1 in Hrun.
  destruct (Z.eqb_spec slide 0) as [|_]; [contradiction|].
  cbn [negb] in Hrun.
  apply bind_Ret_inv in Hrun. destruct Hrun as ([] & m3 & Hwalk & Hrun).
  unfold bind at 1 in Hwalk. unfold get_kern at 1 in Hwalk.
  apply bind_Ret_inv in Hwalk. destruct Hwalk as (ncmds & m2 & Hn & Hwalk).
  apply load_Ret_inv in Hn. destruct Hn as [Hn ->].
  apply getRunningAddresses_walk_locates in Hwalk.
  destruct Hwalk as [_ Hres].
  cbn [with_trace this cr0 interrupts iocounts contexts trace kern] in Hres.
  unfold bind at 1 in Hrun. unfold get_this at 1 in Hrun.
  destruct Hres as [Hsame | (before & a & rest & v & Heq & Hb & Ha & Hv & Hthis)].
  - exfalso. rewrite Hsame, Hthis1 in Hrun.
    assert (E : running_mh (if size >? 0 then set_memory_size size (this m)
                            else this m) = 0)
      by (destruct (size >? 0); exact Hmh).
    rewrite E in Hrun. rewrite andb_false_r in Hrun. discriminate.
  - rewrite Hkern1 in *.
    assert (Hfinal : running_mh (this m') = slide
                     /\ running_text_addr (this m') = v
                     /\ memory_size (this m') = memory_size (this m1)).
    { destruct (negb _ && negb _); [|discriminate].
      destruct (slide =? 0); inversion Hrun as [Hm']; cbn [this];
        rewrite Hthis; repeat split; reflexivity. }
    destruct Hfinal as (F1 & F2 & F3).
    split; [exact F1|]. split.
    { rewrite F3, Hthis1. destruct (size >? 0); reflexivity. }
    exists ncmds, before, a, rest. rewrite F2.
    repeat split; assumption.
Qed.

(** X6: when [getRunningAddresses] is given a base and the handle has no
    running header yet, success means that the header at that base was
    walked to its first segment command named "__TEXT": the running text
    address is the [vmaddr] of that command, and the running header is the
    supplied base. *)
Theorem getRunningAddresses_locates_text (slide size : Z) (m m' : Machine) :
  kaslr_slide_set (this m) = false ->
  running_mh (this m) = 0 ->
  slide <> 0 ->
  getRunningAddresses slide size m = Ret KERN_SUCCESS m' ->
  running_mh (this m') = slide
  /\ exists ncmds before a rest,
       view_le (kmem (kern m)) (slide + mach_header_64_ncmds) 4 = Some ncmds
       /\ command_addresses (kmem (kern m)) (Z.to_nat ncmds)
                            (slide + sizeof_mach_header_64)
          = before ++ a :: rest
       /\ Forall (fun b => text_segment_at (kmem (kern m)) b = false) before
       /\ text_segment_at (kmem (kern m)) a = true
       /\ view_le (kmem (kern m)) (a + segment_command_64_vmaddr) 8
          = Some (running_text_addr (this m')).
Proof.
  intros Hunset Hmh Hslide Hrun.
  destruct (getRunningAddresses_supplied slide size m m' Hunset Hmh Hslide Hrun)
    as (H1 & _ & H3).
  split; [exact H1 | exact H3].
Qed.

Lemma getRunningAddresses_locates_text_witness :
  exists m',
    getRunningAddresses 0x5000 0 demo_loaded = Ret KERN_SUCCESS m'
    /\ running_mh (this m') = 0x5000
    /\ exists a, text_segment_at demo_kmem a = true
                 /\ view_le demo_kmem (a + segment_command_64_vmaddr) 8
                    = Some (running_text_addr (this m')).
Proof.
  destruct demo_loaded_supplied as (m' & Hrun & _). exists m'.
  split; [exact Hrun|].
  destruct (getRunningAddresses_locates_text 0x5000 0 demo_loaded m'
              eq_refl eq_refl ltac:(discriminate) Hrun)
    as (Hmh & ncmds & before & a & rest & _ & _ & _ & Ha & Hv).
  split; [exact Hmh|]. exists a. split; [exact Ha | exact Hv].
Defined.

(** X7: after such a call [getRunningPosition] reports the supplied base
    as the header, and as the size the size passed to the call, or, when
    that was 0, the memory size the handle had, or [HeaderSize] when that
    is 0 too. *)
Theorem getRunningPosition_after_supplied_base (HeaderSize slide size : Z)
    (m m' : Machine) :
  kaslr_slide_set (this m) = false ->
  running_mh (this m) = 0 ->
  slide <> 0 ->
  getRunningAddresses slide size m = Ret KERN_SUCCESS m' ->
  getRunningPosition HeaderSize m'
  = Ret (slide,
         if size >? 0 then size
         else if memory_size (this m) >? 0 then memory_size (this m)
              else HeaderSize) m'.
Proof.
  intros Hunset Hmh Hslide Hrun.
  destruct (getRunningAddresses_supplied slide size m m' Hunset Hmh Hslide Hrun)
    as (H1 & H2 & _).
  unfold getRunningPosition, bind, get_this, ret. rewrite H1, H2.
  destruct (Z.gtb_spec size 0) as [Hs|Hs]; [|reflexivity].
  destruct (Z.gtb_spec size 0); [reflexivity | lia].
Qed.

Lemma getRunningPosition_after_supplied_base_witness :
  exists m',
    getRunningAddresses 0x5000 0x2000 demo_loaded = Ret KERN_SUCCESS m'
    /\ getRunningPosition demo_HeaderSize m' = Ret (0x5000, 0x2000) m'.
Proof.
  destruct (returns_Ret (getRunningAddresses 0x5000 0x2000 demo_loaded)
              (fun a _ => a =? KERN_SUCCESS))
    as (a & m' & Hrun & Hp); [vm_compute; reflexivity|].
  apply Z.eqb_eq in Hp. subst a. exists m'. split; [exact Hrun|].
  exact (getRunningPosition_after_supplied_base demo_HeaderSize 0x5000 0x2000
           demo_loaded m' eq_refl eq_refl ltac:(discriminate) Hrun).
Defined.

(** X8: a call of [getRunningAddresses] that does not succeed returns
    [KERN_FAILURE] and leaves the slide unknown: the flag is still clear
    and the slide and the static text address are untouched. *)
Theorem getRunningAddresses_failure (slide size : Z) (r : Z) (m m' : Machine) :
  getRunningAddresses slide size m = Ret r m' ->
  r <> KERN_SUCCESS ->
  r = KERN_FAILURE
  /\ kaslr_slide_set (this m') = false
  /\ kaslr_slide (this m') = kaslr_slide (this m)
  /\ disk_text_addr (this m') = disk_text_addr (this m).
Proof.
  intros Hrun Hr. unfold getRunningAddresses in Hrun.
  apply bind_Ret_inv in Hrun. destruct Hrun as (h & m0 & Hget & Hrun).
  inversion Hget. subst h m0. clear Hget.
  destruct (kaslr_slide_set (this m)) eqn:Hset.
  { inversion Hrun. subst r. contradiction. }
  apply bind_Ret_inv in Hrun. destruct Hrun as ([] & m1 & Hsize & Hrun).
  apply bind_Ret_inv in Hrun. destruct Hrun as (base & m2 & Hbase & Hrun).
  apply bind_Ret_inv in Hrun. destruct Hrun as ([] & m3 & Hwalk & Hrun).
  pose (f := fun m : Machine =>
               (kaslr_slide_set (this m), kaslr_slide (this m),
                disk_text_addr (this m))).
  assert (Hkeep : f m3 = f m).
  { transitivity (f m2).
    - revert Hwalk. destruct (negb (base =? 0)); [|apply preserves_ret].
      apply preserves_bind; [apply preserves_get_kern|]. intros k.
      apply preserves_bind;
        [apply preserves_reads_only;
         [intros; reflexivity | apply reads_only_load]|].
      intros ncmds. intros mm [] mm' Hw.
      apply getRunningAddresses_walk_locates in Hw. destruct Hw as [_ Hw].
      unfold f.
      destruct Hw as [-> | (? & ? & ? & ? & _ & _ & _ & _ & ->)]; reflexivity.
    - transitivity (f m1).
      + revert Hbase. destruct (negb (slide =? 0)); [apply preserves_ret|].
        apply preserves_reads_only;
          [intros; reflexivity | apply reads_only_findKernelBase].
      + revert Hsize. destruct (size >? 0); [|apply preserves_ret].
        apply preserves_modify. intros; reflexivity. }
  unfold f in Hkeep. rewrite Hset in Hkeep. inversion Hkeep as [[K1 K2 K3]].
  unfold bind at 1 in Hrun. unfold get_this at 1 in Hrun.
  destruct (negb _ && negb _).
  - exfalso. destruct (slide =? 0); inversion Hrun; subst r; contradiction.
  - inversion Hrun. subst r m'. repeat split; assumption.
Qed.

Lemma getRunningAddresses_failure_witness :
  exists m',
    getRunningAddresses 0x6000 0 demo_loaded = Ret KERN_FAILURE m'
    /\ kaslr_slide_set (this m') = false.
Proof.
  destruct (returns_Ret (getRunningAddresses 0x6000 0 demo_loaded)
              (fun a _ => a =? KERN_FAILURE))
    as (a & m' & Hrun & Hp); [vm_compute; reflexivity|].
  apply Z.eqb_eq in Hp. subst a. exists m'. split; [exact Hrun|].
  apply (getRunningAddresses_failure 0x6000 0 KERN_FAILURE demo_loaded m' Hrun).
  discriminate.
Defined.

(** ** The write-protect bit *)

Lemma CR0_WP_bit (i : Z) : Z.testbit CR0_WP i = (16 =? i).
Proof. change CR0_WP with (2 ^ 16). apply Z.pow2_bits_eqb. lia. Qed.

Lemma land_CR0_WP (v : Z) :
  (Z.land v CR0_WP =? 0) = negb (Z.testbit v 16).
Proof.
  destruct (Z.testbit v 16) eqn:Hbit; cbn [negb].
  - apply Z.eqb_neq. intros H.
    assert (E : Z.testbit (Z.land v CR0_WP) 16 = true).
    { rewrite Z.land_spec, Hbit, CR0_WP_bit. reflexivity. }
    rewrite H in E. rewrite Z.bits_0 in E. discriminate.
  - apply Z.eqb_eq. apply Z.bits_inj'. intros n Hn.
    rewrite Z.land_spec, CR0_WP_bit, Z.bits_0.
    destruct (Z.eqb_spec 16 n) as [<-|_]; [rewrite Hbit|];
      auto using andb_false_r.
Qed.

Lemma set_WP_bits (c i : Z) :
  Z.testbit (Z.lor c CR0_WP) i = if 16 =? i then true else Z.testbit c i.
Proof.
  rewrite Z.lor_spec, CR0_WP_bit.
  destruct (16 =? i); [apply orb_true_r | apply orb_false_r].
Qed.

Lemma clear_WP_bits (c i : Z) :
  Z.testbit (Z.land c (Z.lnot CR0_WP)) i
  = if 16 =? i then false else Z.testbit c i.
Proof.
  rewrite Z.land_spec. destruct (Z.leb_spec 0 i) as [Hi|Hi].
  - rewrite Z.lnot_spec, CR0_WP_bit by exact Hi.
    destruct (16 =? i); [apply andb_false_r | apply andb_true_r].
  - rewrite !(Z.testbit_neg_r _ i) by exact Hi.
    destruct (Z.eqb_spec 16 i); [lia | reflexivity].
Qed.

(** X9: [setWPBit] writes to [cr0] a value that differs from the one it
    read in the write-protect bit at most: bit 16 is the requested one
    and every other bit is as it was.  It returns success exactly when
    bit 16 of [cr0], read again after the write, is the requested one;
    the interrupt flag and the handle are not touched. *)
Theorem setWPBit_changes_only_WP (enable : bool) (m : Machine) :
  exists r m' written,
    setWPBit enable m = Ret r m'
    /\ cr0 m' = mov_cr0 (kern m) (cr0 m) written
    /\ Z.testbit written 16 = enable
    /\ (forall i, i <> 16 -> Z.testbit written i = Z.testbit (cr0 m) i)
    /\ (r = KERN_SUCCESS <-> Z.testbit (cr0 m') 16 = enable)
    /\ (r = KERN_SUCCESS \/ r = KERN_FAILURE)
    /\ interrupts m' = interrupts m
    /\ this m' = this m.
Proof.
  destruct enable;
    unfold setWPBit, get_cr0, set_cr0, bind, emit, ret;
    cbn [negb this cr0 interrupts iocounts contexts trace kern andb];
    rewrite ?andb_false_r, ?andb_true_r, ?land_CR0_WP, ?negb_involutive.
  - destruct (Z.testbit (mov_cr0 (kern m) (cr0 m) (Z.lor (cr0 m) CR0_WP)) 16)
      eqn:Hbit;
      cbn [negb andb this cr0 interrupts iocounts contexts trace kern];
      rewrite ?land_CR0_WP, ?Hbit; cbn [negb andb];
      eexists _, _, (Z.lor (cr0 m) CR0_WP);
      (split; [reflexivity|]); (split; [reflexivity|]);
      (split; [rewrite set_WP_bits; reflexivity|]);
      (split; [intros i Hi; rewrite set_WP_bits;
               destruct (Z.eqb_spec 16 i); [lia | reflexivity]|]);
      cbn [cr0 interrupts this]; rewrite Hbit.
    + split; [tauto|]. split; [left; reflexivity|]. split; reflexivity.
    + split; [split; discriminate|]. split; [right; reflexivity|].
      split; reflexivity.
  - destruct (Z.testbit (mov_cr0 (kern m) (cr0 m)
                                 (Z.land (cr0 m) (Z.lnot CR0_WP))) 16)
      eqn:Hbit;
      cbn [negb andb this cr0 interrupts iocounts contexts trace kern];
      rewrite ?land_CR0_WP, ?Hbit; cbn [negb andb];
      eexists _, _, (Z.land (cr0 m) (Z.lnot CR0_WP));
      (split; [reflexivity|]); (split; [reflexivity|]);
      (split; [rewrite clear_WP_bits; reflexivity|]);
      (split; [intros i Hi; rewrite clear_WP_bits;
               destruct (Z.eqb_spec 16 i); [lia | reflexivity]|]);
      cbn [cr0 interrupts this]; rewrite Hbit.
    + split; [split; discriminate|]. split; [right; reflexivity|].
      split; reflexivity.
    + split; [tauto|]. split; [left; reflexivity|]. split; reflexivity.
Qed.

(** On a processor that takes what is written to [cr0],
    [setKernelWriting] succeeds. *)
Lemma setKernelWriting_taken (enable : bool) (m : Machine) :
  (forall c v, mov_cr0 (kern m) c v = v) ->
  exists m',
    setKernelWriting enable m = Ret KERN_SUCCESS m'
    /\ cr0 m' = (if enable then Z.land (cr0 m) (Z.lnot CR0_WP)
                 else Z.lor (cr0 m) CR0_WP)
    /\ interrupts m' = negb enable
    /\ this m' = this m
    /\ kern m' = kern m.
Proof.
  intros Hhw.
  destruct enable;
    unfold setKernelWriting, setWPBit, cli, sti, get_cr0, set_cr0, bind,
           emit, ret;
    cbn [negb this cr0 interrupts iocounts contexts trace kern andb];
    rewrite ?andb_false_r, ?andb_true_r, ?Hhw, ?land_CR0_WP,
            ?negb_involutive, ?set_WP_bits, ?clear_WP_bits;
    cbn [Z.eqb negb andb this cr0 interrupts iocounts contexts trace kern];
    rewrite ?Hhw, ?land_CR0_WP, ?clear_WP_bits;
    cbn [Z.eqb negb andb KERN_SUCCESS
         this cr0 interrupts iocounts contexts trace kern];
    eexists; repeat split.
Qed.

(** X10: on a processor that takes what is written to [cr0] and has write
    protection on, opening the window with [setKernelWriting(true)] and
    closing it with [setKernelWriting(false)] both succeed; inside the
    window interrupts are disabled and the bit is clear, and after it
    interrupts are enabled and [cr0] is exactly what it was. *)
Theorem setKernelWriting_window (m : Machine) :
  (forall c v, mov_cr0 (kern m) c v = v) ->
  Z.testbit (cr0 m) 16 = true ->
  exists m1 m2,
    setKernelWriting true m = Ret KERN_SUCCESS m1
    /\ interrupts m1 = false
    /\ Z.testbit (cr0 m1) 16 = false
    /\ setKernelWriting false m1 = Ret KERN_SUCCESS m2
    /\ interrupts m2 = true
    /\ cr0 m2 = cr0 m
    /\ this m2 = this m.
Proof.
  intros Hhw Hwp.
  destruct (setKernelWriting_taken true m Hhw)
    as (m1 & Hrun1 & Hcr1 & Hint1 & Hthis1 & Hkern1).
  assert (Hhw1 : forall c v, mov_cr0 (kern m1) c v = v)
    by (rewrite Hkern1; exact Hhw).
  destruct (setKernelWriting_taken false m1 Hhw1)
    as (m2 & Hrun2 & Hcr2 & Hint2 & Hthis2 & _).
  exists m1, m2. split; [exact Hrun1|]. split; [exact Hint1|].
  split; [rewrite Hcr1, clear_WP_bits; reflexivity|].
  split; [exact Hrun2|]. split; [exact Hint2|].
  split; [|rewrite Hthis2; exact Hthis1].
  rewrite Hcr2, Hcr1. apply Z.bits_inj'. intros n _.
  rewrite set_WP_bits, clear_WP_bits.
  destruct (Z.eqb_spec 16 n) as [<-|_]; [symmetry; exact Hwp | reflexivity].
Qed.

Lemma setKernelWriting_window_witness :
  exists m1 m2,
    setKernelWriting true demo_ready = Ret KERN_SUCCESS m1
    /\ setKernelWriting false m1 = Ret KERN_SUCCESS m2
    /\ cr0 m2 = 0x80010033.
Proof.
  destruct (setKernelWriting_window demo_ready)
    as (m1 & m2 & H1 & _ & _ & H2 & _ & Hcr & _).
  - intros c v. reflexivity.
  - reflexivity.
  - exists m1, m2. split; [exact H1|]. split; [exact H2 | exact Hcr].
Defined.

(** ** [readFileData] and [readLinkedit] *)

(** X11: what [readFileData] returns.  It never changes the machine.
    Without a [uio] it returns 0 with the buffer as it was.  With one, it
    returns 0 exactly when [uio_addiov] and [VNOP_READ] return 0 and the
    read transferred the [sz] bytes asked for, and then these are the first
    [sz] bytes of the buffer. *)
Theorem readFileData_outcome (buffer : list byte) (off sz : Z) (vp : vnode)
    (m : Machine) :
  0 <= sz ->
  exists error buffer',
    readFileData buffer off sz vp m = Ret (error, buffer') m
    /\ (sys_uio_create (kern m) off = false -> error = 0 /\ buffer' = buffer)
    /\ (sys_uio_create (kern m) off = true ->
        (error = 0 <->
         sys_uio_addiov (kern m) sz = 0
         /\ fst (sys_VNOP_READ (kern m) vp off sz) = 0
         /\ sz <= Z.of_nat (List.length (snd (sys_VNOP_READ (kern m) vp off sz))))
        /\ (error = 0 ->
            firstn (Z.to_nat sz) buffer'
            = firstn (Z.to_nat sz) (snd (sys_VNOP_READ (kern m) vp off sz)))).
Proof.
  intros Hsz. unfold readFileData, bind, get_kern.
  destruct (sys_uio_create (kern m) off) eqn:Huio; cbn [negb].
  2:{ eexists _, _. split; [reflexivity|]. split; [auto|]. discriminate. }
  destruct (Z.eqb_spec (sys_uio_addiov (kern m) sz) 0) as [Hadd|Hadd];
    cbn [negb].
  2:{ eexists _, _. split; [reflexivity|]. split; [discriminate|].
      intros _. split; [|contradiction]. split; [contradiction|].
      intros (H & _). contradiction. }
  destruct (sys_VNOP_READ (kern m) vp off sz) as [error data]. cbn [fst snd].
  pose proof (length_firstn (Z.to_nat sz) data) as Hlen.
  destruct (Z.eqb_spec error 0) as [Herr|Herr]; cbn [negb].
  2:{ eexists _, _. split; [reflexivity|]. split; [discriminate|].
      intros _. split; [|contradiction]. split; [contradiction|].
      intros (_ & H & _). contradiction. }
  destruct (Z.eqb_spec (sz - Z.of_nat (List.length (firstn (Z.to_nat sz) data))) 0)
    as [Hres|Hres]; cbn [negb].
  - eexists _, _. split; [reflexivity|]. split; [discriminate|].
    intros _. split.
    + split; [intros _; repeat split; [assumption | assumption | lia]
             | intros _; assumption].
    + intros _. rewrite firstn_app.
      replace (Z.to_nat sz - List.length (firstn (Z.to_nat sz) data))%nat
        with 0%nat by lia.
      cbn [firstn]. rewrite app_nil_r. apply firstn_all2. lia.
  - eexists _, _. split; [reflexivity|]. split; [discriminate|].
    intros _. unfold EINVAL. split; [|discriminate].
    split; [discriminate|]. intros (_ & _ & H). lia.
Qed.

Lemma readFileData_outcome_witness :
  exists buffer',
    readFileData (zeros 44) 8192 44 demo_good_vnode demo_boot
    = Ret (0, buffer') demo_boot
    /\ firstn (Z.to_nat 44) buffer' = demo_linkedit.
Proof.
  destruct (readFileData_outcome (zeros 44) 8192 44 demo_good_vnode demo_boot)
    as (error & buffer' & Hrun & _ & Huio); [lia|].
  destruct (Huio eq_refl) as [Hiff Hdata].
  assert (E : error = 0).
  { apply Hiff. split; [reflexivity|]. split; [reflexivity|].
    vm_compute. discriminate. }
  subst error. exists buffer'. split; [exact Hrun|].
  rewrite (Hdata eq_refl). vm_compute. reflexivity.
Defined.

Lemma length_resize (n : Z) (junk : list byte) :
  List.length (resize n junk) = Z.to_nat n.
Proof.
  unfold resize, zeros. rewrite length_app, length_firstn, repeat_length. lia.
Qed.

(** X12: [readLinkedit] on a handle whose image was decompressed into
    [file_buf].  When the link-edit buffer cannot be allocated the call
    returns [KERN_FAILURE] with [linkedit_buf] null.  When it is allocated
    and the region of [__LINKEDIT] lies inside [file_buf], the call returns
    [KERN_SUCCESS], [linkedit_buf] is exactly that region of [file_buf] and
    nothing else of the machine has changed, whatever the vnode and the
    file services are.  When it is allocated and the region does not lie
    inside [file_buf], the copy reads outside [file_buf]. *)
Theorem readLinkedit_from_file_buf (vp : vnode) (m : Machine)
    (fb : list byte) :
  file_buf (this m) = Some fb ->
  0 <= linkedit_fileoff (this m) ->
  0 <= linkedit_size (this m) ->
  (sys_buffer_create (kern m) (linkedit_size (this m)) = None ->
   readLinkedit vp m = Ret KERN_FAILURE (with_linkedit_buf m None))
  /\
  (forall junk,
      sys_buffer_create (kern m) (linkedit_size (this m)) = Some junk ->
      (linkedit_fileoff (this m) + linkedit_size (this m)
       <= Z.of_nat (List.length fb) ->
       readLinkedit vp m
       = Ret KERN_SUCCESS
             (with_linkedit_buf m
                (Some (firstn (Z.to_nat (linkedit_size (this m)))
                              (skipn (Z.to_nat (linkedit_fileoff (this m)))
                                     fb)))))
      /\
      (Z.of_nat (List.length fb)
       < linkedit_fileoff (this m) + linkedit_size (this m) ->
       readLinkedit vp m
       = Fault (with_linkedit_buf m
                  (Some (resize (linkedit_size (this m)) junk))))).
Proof.
  intros Hfb Hoff Hsize. split.
  { intros Hnone. unfold readLinkedit. unfold bind at 1. unfold get_this at 1.
    unfold bind at 1. unfold Buffer_create at 1. unfold bind at 1.
    unfold get_kern at 1. unfold ret at 1. rewrite Hnone.
    cbn [option_map]. reflexivity. }
  intros junk Hjunk.
  assert (Hrun : readLinkedit vp m =
                 bind (memcpy (resize (linkedit_size (this m)) junk) fb
                              (linkedit_fileoff (this m))
                              (linkedit_size (this m)))
                      (fun buf => bind (modify_this (set_linkedit_buf (Some buf)))
                                       (fun _ => ret KERN_SUCCESS))
                      (with_linkedit_buf m
                         (Some (resize (linkedit_size (this m)) junk)))).
  { unfold readLinkedit. unfold bind at 1. unfold get_this at 1.
    unfold bind at 1. unfold Buffer_create at 1. unfold bind at 1.
    unfold get_kern at 1. unfold ret at 1. rewrite Hjunk.
    cbn [option_map]. unfold bind at 1. unfold modify_this at 1.
    rewrite Hfb. reflexivity. }
  rewrite Hrun. clear Hrun. unfold bind at 1. unfold memcpy, slice.
  destruct (Z.leb_spec 0 (linkedit_fileoff (this m))) as [_|]; [|lia].
  destruct (Z.leb_spec 0 (linkedit_size (this m))) as [_|]; [|lia].
  cbn [andb]. split; intros Hrange.
  - destruct (Z.leb_spec (linkedit_fileoff (this m) + linkedit_size (this m))
                         (Z.of_nat (List.length fb))) as [_|]; [|lia].
    unfold ret at 1. unfold bind, modify_this, ret, with_linkedit_buf.
    cbn [this cr0 interrupts iocounts contexts trace kern].
    set (bytes := firstn (Z.to_nat (linkedit_size (this m)))
                         (skipn (Z.to_nat (linkedit_fileoff (this m))) fb)).
    assert (Hlen : List.length bytes = Z.to_nat (linkedit_size (this m))).
    { unfold bytes. rewrite length_firstn, length_skipn. lia. }
    rewrite (skipn_all2 (resize (linkedit_size (this m)) junk))
      by (rewrite length_resize, Hlen; lia).
    rewrite app_nil_r. reflexivity.
  - destruct (Z.leb_spec (linkedit_fileoff (this m) + linkedit_size (this m))
                         (Z.of_nat (List.length fb))) as [|_]; [lia|].
    reflexivity.
Qed.

Lemma readLinkedit_from_file_buf_witness :
  readLinkedit demo_good_vnode demo_decompressed
  = Ret KERN_SUCCESS (with_linkedit_buf demo_decompressed (Some demo_linkedit)).
Proof.
  destruct (readLinkedit_from_file_buf demo_good_vnode demo_decompressed
              demo_file eq_refl)
    as [_ Hsome]; [simpl; lia | simpl; lia |].
  destruct (Hsome [] eq_refl) as [Hin _].
  rewrite Hin by (vm_compute; discriminate).
  assert (E : firstn (Z.to_nat (linkedit_size (this demo_decompressed)))
                     (skipn (Z.to_nat (linkedit_fileoff (this demo_decompressed)))
                            demo_file)
              = demo_linkedit) by (vm_compute; reflexivity).
  rewrite E. reflexivity.
Defined.

(** X13: after [deinit] no name resolves: [solveSymbol] returns 0 for
    every name, without a load, whatever the handle held before. *)
Theorem deinit_then_solveSymbol (symbol : list byte) (m : Machine) :
  exists m',
    (deinit ;; solveSymbol symbol) m = Ret 0 m'
    /\ linkedit_buf (this m') = None
    /\ trace m' = trace m
    /\ surroundings m' = surroundings m.
Proof.
  unfold deinit. unfold bind at 1. unfold modify_this.
  rewrite solveSymbol_unmet by (left; reflexivity).
  eexists. split; [reflexivity|]. repeat split.
Qed.

(** ** [readMachHeader] *)

Lemma header_read_trans (m m1 m' : Machine) (r : Z) (b : list byte) :
  surroundings m1 = surroundings m ->
  unread_fields (this m1) = unread_fields (this m) ->
  header_read m1 r b m' -> header_read m r b m'.
Proof.
  intros Hs Hf (H1 & H2 & H3 & H4).
  split; [exact H1|]. split; [exact H2|].
  split; [rewrite H3; exact Hs | rewrite H4; exact Hf].
Qed.

Lemma header_read_failure (m m' : Machine) (b : list byte) :
  surroundings m' = surroundings m ->
  unread_fields (this m') = unread_fields (this m) ->
  header_read m KERN_FAILURE b m'.
Proof.
  intros Hs Hf. split; [right; reflexivity|].
  split; [discriminate|]. split; assumption.
Qed.

Lemma readFileData_pure (buffer : list byte) (off sz : Z) (vp : vnode)
    (m : Machine) :
  exists error buffer', readFileData buffer off sz vp m = Ret (error, buffer') m.
Proof.
  unfold readFileData, bind, get_kern.
  destruct (negb (sys_uio_create (kern m) off)); [eexists _, _; reflexivity|].
  destruct (negb (sys_uio_addiov (kern m) sz =? 0));
    [eexists _, _; reflexivity|].
  destruct (sys_VNOP_READ (kern m) vp off sz) as [error data].
  destruct (negb (error =? 0)); [eexists _, _; reflexivity|].
  destruct (negb _); eexists _, _; reflexivity.
Qed.

Lemma readFileData_Ret_inv buffer off sz vp m e b m' :
  readFileData buffer off sz vp m = Ret (e, b) m' -> m' = m.
Proof.
  intros H. destruct (readFileData_pure buffer off sz vp m) as (e' & b' & Hp).
  rewrite Hp in H. inversion H. reflexivity.
Qed.

Lemma Buffer_create_Ret_inv n m o m' :
  Buffer_create n m = Ret o m' -> m' = m.
Proof. unfold Buffer_create, bind, get_kern, ret. intros H. inversion H. reflexivity. Qed.

Lemma memcpy_Ret_inv dst src off n m b m' :
  memcpy dst src off n m = Ret b m' -> m' = m.
Proof.
  unfold memcpy. destruct (slice src off n); intros H; inversion H.
  reflexivity.
Qed.

Lemma reads_only_readMachHeader_arch buffer todo :
  forall i, reads_only (readMachHeader_arch buffer todo i).
Proof.
  induction todo as [|todo IH]; intros i; cbn [readMachHeader_arch].
  - apply reads_only_ret.
  - apply reads_only_bind; [apply reads_only_load|]. intros cputype.
    destruct (_ =? _); [|apply IH].
    apply reads_only_bind; [apply reads_only_load|]. intros o.
    apply reads_only_ret.
Qed.

Section ReadHeader.

Variable HeaderSize : Z.
Variable CompressedMagic : Z.
Variable sizeof_CompressedHeader : Z.
Variable CompressedHeader_compression : Z.
Variable CompressedHeader_decompressed : Z.
Variable CompressedHeader_compressed : Z.

Lemma readMachHeader_header_read (fuel : nat) :
  forall buffer vp off m r buffer' m',
    readMachHeader HeaderSize CompressedMagic sizeof_CompressedHeader
                   CompressedHeader_compression CompressedHeader_decompressed
                   CompressedHeader_compressed fuel buffer vp off m
    = Ret (r, buffer') m' ->
    header_read m r buffer' m'.
Proof.
  induction fuel as [|fuel IH]; intros buffer vp off m r buffer' m' Hrun.
  - discriminate.
  - cbn [readMachHeader] in Hrun.
    apply bind_Ret_inv in Hrun. destruct Hrun as ([e b1] & m1 & Hread & Hrun).
    apply readFileData_Ret_inv in Hread. subst m1.
    destruct (negb (e =? 0)).
    { inversion Hrun. subst. apply header_read_failure; reflexivity. }
    revert Hrun.
    match goal with
    | |- ?f fuel b1 m = _ -> _ => set (loop := f)
    end.
    assert (Hloop : forall n b m0 r0 b0 m0',
               loop n b m0 = Ret (r0, b0) m0' -> header_read m0 r0 b0 m0').
    { clear b1 m r buffer' m' e.
      induction n as [|n IHn]; intros b m r b' m' Hrun.
      - discriminate.
      - unfold loop in Hrun. lazy beta iota fix in Hrun. fold loop in Hrun.
        apply bind_Ret_inv in Hrun.
        destruct Hrun as (magic & m1 & Hmagic & Hrun).
        apply load_Ret_inv in Hmagic. destruct Hmagic as [Hmagic ->].
        destruct (Z.eqb_spec magic MH_MAGIC_64) as [Emh|_].
        { unfold bind, modify_this, ret in Hrun. inversion Hrun. subst.
          split; [left; reflexivity|]. split; [intros _; exact Hmagic|].
          split; reflexivity. }
        destruct (magic =? FAT_MAGIC).
        { apply bind_Ret_inv in Hrun.
          destruct Hrun as (nfat & m2 & Hnfat & Hrun).
          apply load_Ret_inv in Hnfat. destruct Hnfat as [_ ->].
          apply bind_Ret_inv in Hrun.
          destruct Hrun as (arch & m3 & Harch & Hrun).
          apply (reads_only_Ret_inv _ _ _ _
                   (reads_only_readMachHeader_arch _ _ _)) in Harch.
          destruct Harch as [t ->].
          destruct arch as [offset|].
          - apply IH in Hrun.
            eapply header_read_trans; [| |exact Hrun]; reflexivity.
          - inversion Hrun. subst. apply header_read_failure; reflexivity. }
        destruct (magic =? CompressedMagic).
        2:{ inversion Hrun. subst. apply header_read_failure; reflexivity. }
        apply bind_Ret_inv in Hrun.
        destruct Hrun as (compressed & m2 & Hc & Hrun).
        apply load_Ret_inv in Hc. destruct Hc as [_ ->].
        apply bind_Ret_inv in Hrun.
        destruct Hrun as (cb & m3 & Hcb & Hrun).
        apply Buffer_create_Ret_inv in Hcb. subst m3.
        destruct cb as [compressedBuf|].
        2:{ inversion Hrun. subst. apply header_read_failure; reflexivity. }
        apply bind_Ret_inv in Hrun.
        destruct Hrun as ([e cbuf] & m4 & Hread & Hrun).
        apply readFileData_Ret_inv in Hread. subst m4.
        destruct (negb (e =? KERN_SUCCESS)).
        { inversion Hrun. subst. apply header_read_failure; reflexivity. }
        apply bind_Ret_inv in Hrun.
        destruct Hrun as (compression & m5 & Hl1 & Hrun).
        apply load_Ret_inv in Hl1. destruct Hl1 as [_ ->].
        apply bind_Ret_inv in Hrun.
        destruct Hrun as (decompressed & m6 & Hl2 & Hrun).
        apply load_Ret_inv in Hl2. destruct Hl2 as [_ ->].
        unfold bind at 1 in Hrun. unfold get_kern at 1 in Hrun.
        unfold bind at 1 in Hrun. unfold modify_this at 1 in Hrun.
        cbn [this cr0 interrupts iocounts contexts trace kern with_trace]
          in Hrun.
        destruct (sys_decompressData (kern m) compression
                                     (OSSwapInt32 decompressed) cbuf)
          as [f|].
        2:{ inversion Hrun. subst. apply header_read_failure; reflexivity. }
        apply bind_Ret_inv in Hrun.
        destruct Hrun as (b2 & m7 & Hcpy & Hrun).
        apply memcpy_Ret_inv in Hcpy. subst m7.
        apply IHn in Hrun.
        eapply header_read_trans; [| |exact Hrun]; reflexivity. }
    intros Hrun. apply Hloop in Hrun. exact Hrun.
Qed.

(** X14: a header read that returns has returned [KERN_SUCCESS] or
    [KERN_FAILURE], and it returns [KERN_SUCCESS] only with a buffer that
    starts with the magic number of a 64-bit header, however many
    containers were unwrapped on the way.  It assigns no field of the handle
    but the decompressed image and the container offset, and takes or drops
    no VFS reference. *)
Theorem readMachHeader_success_is_mach64 (fuel : nat) (buffer : list byte)
    (vp : vnode) (off : Z) (m : Machine) (r : Z) (buffer' : list byte)
    (m' : Machine) :
  readMachHeader HeaderSize CompressedMagic sizeof_CompressedHeader
                 CompressedHeader_compression CompressedHeader_decompressed
                 CompressedHeader_compressed fuel buffer vp off m
  = Ret (r, buffer') m' ->
  (r = KERN_SUCCESS \/ r = KERN_FAILURE)
  /\ (r = KERN_SUCCESS ->
      view_le (buf_view buffer') 0 4 = Some MH_MAGIC_64)
  /\ surroundings m' = surroundings m
  /\ unread_fields (this m') = unread_fields (this m).
Proof. intros Hrun. exact (readMachHeader_header_read fuel _ _ _ _ _ _ _ Hrun). Qed.

(** X15: when [uio_create] gives a [uio] for the read, a file from which
    fewer than [HeaderSize] bytes can be read is rejected before its
    contents are looked at: the header read returns [KERN_FAILURE] in the
    state it was called in. *)
Theorem readMachHeader_short_file (fuel : nat) (buffer : list byte)
    (vp : vnode) (off : Z) (m : Machine) :
  sys_uio_create (kern m) off = true ->
  Z.of_nat (List.length (snd (sys_VNOP_READ (kern m) vp off HeaderSize)))
  < HeaderSize ->
  exists buffer',
    readMachHeader HeaderSize CompressedMagic sizeof_CompressedHeader
                   CompressedHeader_compression CompressedHeader_decompressed
                   CompressedHeader_compressed (S fuel) buffer vp off m
    = Ret (KERN_FAILURE, buffer') m.
Proof.
  intros Huio Hshort. cbn [readMachHeader]. unfold bind at 1.
  destruct (readFileData_with_uio buffer off HeaderSize vp m Huio)
    as (error & buffer' & Hread & Hok).
  rewrite Hread. destruct (Z.eqb_spec error 0) as [E|E]; cbn [negb].
  - exfalso. destruct (Hok E) as (data & Hvnop & Hlen & _).
    rewrite Hvnop in Hshort. cbn [snd] in Hshort.
    rewrite length_firstn in Hlen. lia.
  - exists buffer'. reflexivity.
Qed.

End ReadHeader.

Lemma demo_header_read :
  exists buffer' m',
    readMachHeader demo_HeaderSize 0x706D6F63 0x180 4 12 16 3
                   (zeros (Z.to_nat demo_HeaderSize)) demo_good_vnode 0
                   demo_boot
    = Ret (KERN_SUCCESS, buffer') m'.
Proof.
  destruct (returns_Ret
              (readMachHeader demo_HeaderSize 0x706D6F63 0x180 4 12 16 3
                              (zeros (Z.to_nat demo_HeaderSize))
                              demo_good_vnode 0 demo_boot)
              (fun rb _ => fst rb =? KERN_SUCCESS))
    as ([r b] & m' & Hrun & Hp); [vm_compute; reflexivity|].
  cbn [fst] in Hp. apply Z.eqb_eq in Hp. subst r.
  exists b, m'. exact Hrun.
Defined.

Lemma readMachHeader_success_is_mach64_witness :
  exists buffer' m',
    readMachHeader demo_HeaderSize 0x706D6F63 0x180 4 12 16 3
                   (zeros (Z.to_nat demo_HeaderSize)) demo_good_vnode 0
                   demo_boot
    = Ret (KERN_SUCCESS, buffer') m'
    /\ view_le (buf_view buffer') 0 4 = Some MH_MAGIC_64
    /\ iocounts m' = [].
Proof.
  destruct demo_header_read as (b & m' & Hrun). exists b, m'.
  split; [exact Hrun|].
  destruct (readMachHeader_success_is_mach64 _ _ _ _ _ _ _ _ _ _ _ _ _ _ Hrun)
    as (_ & Hmagic & Hsur & _).
  split; [apply Hmagic; reflexivity|].
  unfold surroundings in Hsur. inversion Hsur. reflexivity.
Defined.

Lemma readMachHeader_short_file_witness :
  exists buffer',
    readMachHeader demo_HeaderSize 0x706D6F63 0x180 4 12 16 1
                   (zeros (Z.to_nat demo_HeaderSize)) 1 0 demo_boot
    = Ret (KERN_FAILURE, buffer') demo_boot.
Proof.
  apply readMachHeader_short_file.
  - reflexivity.
  - vm_compute. reflexivity.
Defined.

(** ** [init] *)

Lemma reads_only_isCurrentKernel kernelHeader :
  reads_only (isCurrentKernel kernelHeader).
Proof.
  unfold isCurrentKernel.
  apply reads_only_bind; [apply reads_only_findKernelBase|]. intros kernelBase.
  apply reads_only_bind; [apply reads_only_get_kern|]. intros k.
  apply reads_only_bind; [apply reads_only_getUUID|]. intros uuid1.
  apply reads_only_bind; [apply reads_only_getUUID|]. intros uuid2.
  destruct uuid1 as [p1|]; [|apply reads_only_ret].
  destruct uuid2 as [p2|]; [|apply reads_only_ret].
  apply reads_only_bind; [apply reads_only_load|]. intros a0.
  apply reads_only_bind; [apply reads_only_load|]. intros b0.
  destruct (a0 =? b0); [|apply reads_only_ret].
  apply reads_only_bind; [apply reads_only_load|]. intros a1.
  apply reads_only_bind; [apply reads_only_load|]. intros b1.
  apply reads_only_ret.
Qed.

Lemma preserves_unchanged {A C} (f : Machine -> C) (c : M A) :
  (forall m a m', c m = Ret a m' -> m' = m) -> preserves f c.
Proof. intros Hc m a m' H. rewrite (Hc m a m' H). reflexivity. Qed.

Lemma preserves_readFileData {C} (f : Machine -> C) buffer off sz vp :
  preserves f (readFileData buffer off sz vp).
Proof.
  apply preserves_unchanged. intros m [e b] m'. apply readFileData_Ret_inv.
Qed.

Lemma preserves_Buffer_create {C} (f : Machine -> C) n :
  preserves f (Buffer_create n).
Proof. apply preserves_unchanged. intros m a m'. apply Buffer_create_Ret_inv. Qed.

Lemma preserves_memcpy {C} (f : Machine -> C) dst src off n :
  preserves f (memcpy dst src off n).
Proof. apply preserves_unchanged. intros m a m'. apply memcpy_Ret_inv. Qed.

Lemma preserves_vnode_lookup {C} (f : Machine -> C) path :
  (forall m t, f (with_trace m t) = f m) ->
  (forall m l, f (mkMachine (this m) (cr0 m) (interrupts m) l (contexts m)
                            (trace m) (kern m)) = f m) ->
  preserves f (vnode_lookup path).
Proof.
  intros Ht Hio m o m' H. unfold vnode_lookup, bind, emit, get_kern in H.
  cbn [kern] in H.
  destruct (sys_vnode_lookup (kern m) path) as [vp|]; inversion H.
  - etransitivity; [|exact (Ht m (trace m ++ [EvVnodeLookup path]))].
    exact (Hio (with_trace m (trace m ++ [EvVnodeLookup path]))
               (vp :: iocounts m)).
  - exact (Ht m (trace m ++ [EvVnodeLookup path])).
Qed.

Lemma preserves_vnode_put {C} (f : Machine -> C) vp :
  (forall m t, f (with_trace m t) = f m) ->
  (forall m l, f (mkMachine (this m) (cr0 m) (interrupts m) l (contexts m)
                            (trace m) (kern m)) = f m) ->
  preserves f (vnode_put vp).
Proof.
  intros Ht Hio m o m' H. unfold vnode_put, bind, emit in H. inversion H.
  etransitivity; [|exact (Ht m (trace m ++ [EvVnodePut vp]))].
  exact (Hio (with_trace m (trace m ++ [EvVnodePut vp]))
             (drop_one vp (iocounts m))).
Qed.

(** [readLinkedit] assigns [linkedit_buf] and nothing else; when it returns
    [KERN_SUCCESS] the buffer holds [linkedit_size] bytes. *)
Lemma readFileData_length buffer off sz vp m e b m' :
  readFileData buffer off sz vp m = Ret (e, b) m' ->
  List.length buffer = Z.to_nat sz -> List.length b = Z.to_nat sz.
Proof.
  unfold readFileData, bind, get_kern. intros H Hlen.
  destruct (negb (sys_uio_create (kern m) off)); [inversion H; subst; exact Hlen|].
  destruct (negb (sys_uio_addiov (kern m) sz =? 0));
    [inversion H; subst; exact Hlen|].
  destruct (sys_VNOP_READ (kern m) vp off sz) as [error data].
  assert (L : List.length
                (firstn (Z.to_nat sz) data
                 ++ skipn (List.length (firstn (Z.to_nat sz) data)) buffer)
              = Z.to_nat sz).
  { rewrite length_app, length_skipn, length_firstn. lia. }
  destruct (negb (error =? 0)); [inversion H; subst; exact L|].
  destruct (negb _); inversion H; subst; exact L.
Qed.

Lemma memcpy_length dst src off n m b m' :
  memcpy dst src off n m = Ret b m' ->
  List.length dst = Z.to_nat n -> List.length b = Z.to_nat n.
Proof.
  unfold memcpy, slice. intros H Hlen.
  destruct ((0 <=? off) && (0 <=? n) && (off + n <=? Z.of_nat (List.length src)))
    eqn:Hin; [|discriminate].
  apply andb_prop in Hin. destruct Hin as [Hin H3].
  apply andb_prop in Hin. destruct Hin as [H1 H2].
  apply Z.leb_le in H1, H2, H3.
  inversion H. rewrite length_app, length_skipn, length_firstn, length_skipn.
  lia.
Qed.

Lemma readLinkedit_inv (vp : vnode) (m : Machine) (r : Z) (m' : Machine) :
  readLinkedit vp m = Ret r m' ->
  exists lb,
    m' = mkMachine (set_linkedit_buf lb (this m)) (cr0 m) (interrupts m)
                   (iocounts m) (contexts m) (trace m) (kern m)
    /\ (r = KERN_SUCCESS \/ r = KERN_FAILURE)
    /\ (r = KERN_SUCCESS ->
        exists b, lb = Some b
                  /\ List.length b = Z.to_nat (linkedit_size (this m))).
Proof.
  unfold readLinkedit. unfold bind at 1. unfold get_this at 1.
  intros H. apply bind_Ret_inv in H. destruct H as (b & m1 & Hb & H).
  pose proof (Buffer_create_Ret_inv _ _ _ _ Hb) as ->.
  unfold Buffer_create, bind, get_kern, ret in Hb.
  assert (Hbuf : b = option_map (resize (linkedit_size (this m)))
                       (sys_buffer_create (kern m) (linkedit_size (this m))))
    by congruence.
  clear Hb.
  unfold bind at 1 in H. unfold modify_this at 1 in H.
  destruct b as [buf|].
  2:{ inversion H. exists None. split; [reflexivity|].
      split; [right; reflexivity|]. discriminate. }
  assert (Hlen : List.length buf = Z.to_nat (linkedit_size (this m))).
  { destruct (sys_buffer_create (kern m) (linkedit_size (this m)));
      [|discriminate].
    cbn [option_map] in Hbuf. inversion Hbuf. apply length_resize. }
  destruct (file_buf (this m)) as [fb|].
  - apply bind_Ret_inv in H. destruct H as (buf' & m2 & Hcpy & H).
    pose proof (memcpy_Ret_inv _ _ _ _ _ _ _ Hcpy) as ->.
    apply memcpy_length in Hcpy; [|exact Hlen].
    unfold bind, modify_this, ret in H. inversion H.
    exists (Some buf'). split; [reflexivity|].
    split; [left; reflexivity|]. intros _. exists buf'. split; [reflexivity|].
    exact Hcpy.
  - apply bind_Ret_inv in H. destruct H as ([e buf'] & m2 & Hread & H).
    pose proof (readFileData_Ret_inv _ _ _ _ _ _ _ _ Hread) as ->.
    apply readFileData_length in Hread; [|exact Hlen].
    unfold bind at 1 in H. unfold modify_this at 1 in H.
    destruct (negb (e =? 0)); inversion H.
    + exists (Some buf'). split; [reflexivity|].
      split; [right; reflexivity|]. discriminate.
    + exists (Some buf'). split; [reflexivity|].
      split; [left; reflexivity|]. intros _. exists buf'.
      split; [reflexivity | exact Hread].
Qed.

Lemma processor_with_trace (m : Machine) (t : list event) :
  processor (with_trace m t) = processor m.
Proof. reflexivity. Qed.

Lemma contexts_with_trace (m : Machine) (t : list event) :
  contexts (with_trace m t) = contexts m.
Proof. reflexivity. Qed.

Lemma preserves_readLinkedit {C} (f : Machine -> C) (vp : vnode) :
  (forall m g, f (mkMachine (g (this m)) (cr0 m) (interrupts m) (iocounts m)
                            (contexts m) (trace m) (kern m)) = f m) ->
  preserves f (readLinkedit vp).
Proof.
  intros Hf m r m' H. apply readLinkedit_inv in H.
  destruct H as (lb & -> & _). apply Hf.
Qed.

Section InitProps.

Variable HeaderSize : Z.
Variable CompressedMagic : Z.
Variable sizeof_CompressedHeader : Z.
Variable CompressedHeader_compression : Z.
Variable CompressedHeader_decompressed : Z.
Variable CompressedHeader_compressed : Z.

Lemma preserves_readMachHeader {C} (f : Machine -> C) fuel buffer vp off :
  (forall m m', surroundings m' = surroundings m -> f m' = f m) ->
  preserves f (readMachHeader HeaderSize CompressedMagic sizeof_CompressedHeader
                 CompressedHeader_compression CompressedHeader_decompressed
                 CompressedHeader_compressed fuel buffer vp off).
Proof.
  intros Hf m [r b] m' H. apply readMachHeader_header_read in H.
  destruct H as (_ & _ & Hs & _). apply Hf. exact Hs.
Qed.

(** The loop over the candidates leaves one VFS context behind when it
    stops at a candidate, and none when it runs out of them. *)
Lemma init_search_contexts (fuel : nat) (paths : list string) :
  forall machHeader m found machHeader' m',
    init_search HeaderSize CompressedMagic sizeof_CompressedHeader
                CompressedHeader_compression CompressedHeader_decompressed
                CompressedHeader_compressed fuel machHeader paths m
    = Ret (found, machHeader') m' ->
    processor m' = processor m
    /\ contexts m' = match found with
                     | Some _ => S (contexts m)
                     | None => contexts m
                     end.
Proof.
  induction paths as [|path rest IH];
    intros machHeader m found machHeader' m' H; cbn [init_search] in H.
  - inversion H. split; reflexivity.
  - unfold bind at 1 in H. unfold vfs_context_create at 1 in H.
    set (m0 := mkMachine (this m) (cr0 m) (interrupts m) (iocounts m)
                         (S (contexts m)) (trace m) (kern m)) in H.
    apply bind_Ret_inv in H. destruct H as (vp & m1 & Hlook & H).
    assert (H1 : processor m1 = processor m0 /\ contexts m1 = contexts m0).
    { split.
      - apply (preserves_vnode_lookup processor path) in Hlook;
          [exact Hlook | reflexivity | reflexivity].
      - apply (preserves_vnode_lookup contexts path) in Hlook;
          [exact Hlook | reflexivity | reflexivity]. }
    clear Hlook.
    apply bind_Ret_inv in H. destruct H as ([found1 mh1] & m2 & Hbody & H).
    assert (H2 : processor m2 = processor m1 /\ contexts m2 = contexts m1).
    { destruct vp as [vnode|]; [|inversion Hbody; split; reflexivity].
      apply bind_Ret_inv in Hbody.
      destruct Hbody as ([readError mh2] & m3 & Hread & Hbody).
      assert (H3 : processor m3 = processor m1 /\ contexts m3 = contexts m1).
      { split.
        - apply (preserves_readMachHeader processor) in Hread;
            [exact Hread|].
          intros a a' Hs. unfold surroundings in Hs. unfold processor.
          congruence.
        - apply (preserves_readMachHeader contexts) in Hread;
            [exact Hread|].
          intros a a' Hs. unfold surroundings in Hs. congruence. }
      clear Hread. destruct H3 as [<- <-].
      destruct (readError =? KERN_SUCCESS);
        [|inversion Hbody; split; reflexivity].
      unfold bind at 1 in Hbody. unfold get_this at 1 in Hbody.
      apply bind_Ret_inv in Hbody.
      destruct Hbody as (mismatch & m4 & Hcur & Hbody).
      assert (H4 : exists t, m4 = with_trace m3 (trace m3 ++ t)).
      { destruct (isKernel (this m3)).
        - apply (reads_only_Ret_inv _ _ _ _) in Hcur; [exact Hcur|].
          apply reads_only_bind; [apply reads_only_isCurrentKernel|].
          intros cur. apply reads_only_ret.
        - inversion Hcur. exists []. rewrite with_trace_app_nil.
          reflexivity. }
      destruct H4 as [t ->]. clear Hcur.
      destruct mismatch; [|inversion Hbody; split; reflexivity].
      apply bind_Ret_inv in Hbody. destruct Hbody as ([] & m5 & Hput & Hbody).
      inversion Hbody. subst. split.
      - apply (preserves_vnode_put processor) in Hput;
          [exact Hput | reflexivity | reflexivity].
      - apply (preserves_vnode_put contexts) in Hput;
          [exact Hput | reflexivity | reflexivity]. }
    clear Hbody. destruct H1 as [Hp1 Hc1], H2 as [Hp2 Hc2].
    destruct found1 as [vnode|].
    + inversion H. subst. split; [rewrite Hp2, Hp1; reflexivity|].
      rewrite Hc2, Hc1. reflexivity.
    + unfold bind at 1 in H. unfold vfs_context_rele at 1 in H.
      apply IH in H. destruct H as [Hp Hc]. split.
      * rewrite Hp. change (processor m2 = processor m).
        rewrite Hp2, Hp1. reflexivity.
      * rewrite Hc. cbn [contexts]. rewrite Hc2, Hc1.
        destruct found; reflexivity.
Qed.

(** X16: when no candidate path can be looked up, [init] returns
    [KERN_FAILURE] after one lookup of each candidate, in order.  The
    handle is left as it was, no iocount has been taken, and every context
    created has been released. *)
Theorem init_no_candidate_opens (fuel : nat) (paths : list string)
    (m : Machine) :
  has_credential (kern m) = true ->
  sys_buffer_create (kern m) HeaderSize <> None ->
  (forall path, In path paths -> sys_vnode_lookup (kern m) path = None) ->
  init HeaderSize CompressedMagic sizeof_CompressedHeader
       CompressedHeader_compression CompressedHeader_decompressed
       CompressedHeader_compressed fuel paths m
  = Ret KERN_FAILURE (with_trace m (trace m ++ map EvVnodeLookup paths)).
Proof.
  intros Hcred Hbuf Hnone.
  assert (Hsearch : forall machHeader m0,
             kern m0 = kern m ->
             init_search HeaderSize CompressedMagic sizeof_CompressedHeader
                         CompressedHeader_compression
                         CompressedHeader_decompressed
                         CompressedHeader_compressed fuel machHeader paths m0
             = Ret (None, machHeader)
                   (with_trace m0 (trace m0 ++ map EvVnodeLookup paths))).
  { induction paths as [|path rest IH]; intros machHeader m0 Hk;
      cbn [init_search map].
    - rewrite with_trace_app_nil. reflexivity.
    - assert (Hl : sys_vnode_lookup (kern m0) path = None)
        by (rewrite Hk; apply Hnone; left; reflexivity).
      unfold bind at 1. unfold vfs_context_create at 1.
      unfold bind at 1. unfold vnode_lookup. unfold bind at 1.
      unfold emit at 1. unfold bind at 1. unfold get_kern at 1.
      cbn [kern]. rewrite Hl.
      unfold ret at 1. unfold bind at 1. unfold ret at 1.
      unfold bind at 1. unfold vfs_context_rele at 1.
      cbn [this cr0 interrupts iocounts contexts trace kern Nat.pred].
      rewrite IH.
      + unfold with_trace.
        cbn [this cr0 interrupts iocounts contexts trace kern].
        rewrite <- app_assoc. reflexivity.
      + intros p Hp. apply Hnone. right. exact Hp.
      + exact Hk. }
  unfold init. unfold bind at 1. unfold get_kern at 1. rewrite Hcred.
  cbn [negb]. unfold bind at 1. unfold Buffer_create, bind, get_kern, ret.
  destruct (sys_buffer_create (kern m) HeaderSize) as [junk|];
    [|contradiction].
  cbn [option_map]. rewrite Hsearch by reflexivity. reflexivity.
Qed.

(** X17: a handle [init] has returned [KERN_SUCCESS] for is ready for
    symbol lookup: the header gave a non-zero offset for [__LINKEDIT] and
    for the symbol table, the link-edit buffer is allocated and holds
    [linkedit_size] bytes, and the decompressed image has been let go. *)
Theorem init_success_loaded (fuel : nat) (paths : list string)
    (m m' : Machine) :
  init HeaderSize CompressedMagic sizeof_CompressedHeader
       CompressedHeader_compression CompressedHeader_decompressed
       CompressedHeader_compressed fuel paths m
  = Ret KERN_SUCCESS m' ->
  (exists b, linkedit_buf (this m') = Some b
             /\ List.length b = Z.to_nat (linkedit_size (this m')))
  /\ file_buf (this m') = None
  /\ linkedit_fileoff (this m') <> 0
  /\ symboltable_fileoff (this m') <> 0.
Proof.
  unfold init. unfold bind at 1. unfold get_kern at 1. intros H.
  destruct (negb (has_credential (kern m))); [discriminate|].
  apply bind_Ret_inv in H. destruct H as (mh & m1 & _ & H).
  destruct mh as [machHeader|]; [|discriminate].
  apply bind_Ret_inv in H. destruct H as ([found mh1] & m2 & _ & H).
  destruct found as [vnode|]; [|discriminate].
  apply bind_Ret_inv in H. destruct H as ([] & m3 & _ & H).
  unfold bind at 1 in H. unfold get_this at 1 in H.
  apply bind_Ret_inv in H. destruct H as (error & m4 & Hlink & H).
  unfold bind, vfs_context_rele, vnode_put, emit, modify_this, ret in H.
  cbn [this cr0 interrupts iocounts contexts trace kern] in H.
  inversion H. subst error. clear H. cbn [this].
  destruct (Z.eqb_spec (linkedit_fileoff (this m3)) 0) as [E1|E1];
    cbn [negb andb] in Hlink; [discriminate|].
  destruct (Z.eqb_spec (symboltable_fileoff (this m3)) 0) as [E2|E2];
    cbn [negb andb] in Hlink; [discriminate|].
  apply readLinkedit_inv in Hlink.
  destruct Hlink as (lb & -> & _ & Hok).
  destruct (Hok eq_refl) as (b & -> & Hlen).
  cbn [this set_file_buf set_linkedit_buf linkedit_buf file_buf linkedit_size
       linkedit_fileoff symboltable_fileoff].
  split; [exists b; split; [reflexivity | exact Hlen]|].
  split; [reflexivity|]. split; assumption.
Qed.

(** X18: however [init] returns, it has released every VFS context it
    created and has left the processor state alone; what it returns is
    [KERN_SUCCESS] or [KERN_FAILURE]. *)
Theorem init_releases_contexts (fuel : nat) (paths : list string)
    (m : Machine) (r : Z) (m' : Machine) :
  init HeaderSize CompressedMagic sizeof_CompressedHeader
       CompressedHeader_compression CompressedHeader_decompressed
       CompressedHeader_compressed fuel paths m
  = Ret r m' ->
  contexts m' = contexts m
  /\ processor m' = processor m
  /\ (r = KERN_SUCCESS \/ r = KERN_FAILURE).
Proof.
  unfold init. unfold bind at 1. unfold get_kern at 1. intros H.
  destruct (negb (has_credential (kern m))).
  { inversion H. subst. repeat split. right. reflexivity. }
  apply bind_Ret_inv in H. destruct H as (mh & m1 & Hmh & H).
  apply Buffer_create_Ret_inv in Hmh. subst m1.
  destruct mh as [machHeader|].
  2:{ inversion H. subst. repeat split. right. reflexivity. }
  apply bind_Ret_inv in H. destruct H as ([found mh1] & m2 & Hsearch & H).
  apply init_search_contexts in Hsearch. destruct Hsearch as [Hp2 Hc2].
  destruct found as [vnode|].
  2:{ inversion H. subst. split; [exact Hc2|]. split; [exact Hp2|].
      right. reflexivity. }
  apply bind_Ret_inv in H. destruct H as ([] & m3 & Hparse & H).
  assert (H3 : processor m3 = processor m2 /\ contexts m3 = contexts m2).
  { split.
    - apply (preserves_processMachHeader processor) in Hparse;
        [exact Hparse | reflexivity | reflexivity].
    - apply (preserves_processMachHeader contexts) in Hparse;
        [exact Hparse | reflexivity | reflexivity]. }
  clear Hparse. destruct H3 as [Hp3 Hc3].
  unfold bind at 1 in H. unfold get_this at 1 in H.
  apply bind_Ret_inv in H. destruct H as (error & m4 & Hlink & H).
  assert (H4 : processor m4 = processor m3 /\ contexts m4 = contexts m3
               /\ (error = KERN_SUCCESS \/ error = KERN_FAILURE)).
  { destruct (negb (linkedit_fileoff (this m3) =? 0)
              && negb (symboltable_fileoff (this m3) =? 0)).
    - apply readLinkedit_inv in Hlink. destruct Hlink as (lb & -> & Hr & _).
      repeat split. exact Hr.
    - inversion Hlink. subst. repeat split. right. reflexivity. }
  clear Hlink. destruct H4 as (Hp4 & Hc4 & Hr).
  unfold bind, vfs_context_rele, vnode_put, emit, modify_this, ret in H.
  cbn [this cr0 interrupts iocounts contexts trace kern] in H.
  inversion H. subst r. cbn [contexts].
  split; [rewrite Hc4, Hc3, Hc2; reflexivity|].
  split; [|exact Hr].
  unfold processor in *. cbn [cr0 interrupts kern]. congruence.
Qed.

End InitProps.

Lemma init_no_candidate_opens_witness :
  init demo_HeaderSize 0x706D6F63 0x180 4 12 16 3
       ["/bad/path"; "/mach_kernel"]%string demo_boot
  = Ret KERN_FAILURE
        (with_trace demo_boot [EvVnodeLookup "/bad/path";
                               EvVnodeLookup "/mach_kernel"]).
Proof.
  apply (init_no_candidate_opens demo_HeaderSize 0x706D6F63 0x180 4 12 16 3
           ["/bad/path"; "/mach_kernel"]%string demo_boot).
  - reflexivity.
  - vm_compute. discriminate.
  - intros path [<-|[<-|[]]]; reflexivity.
Defined.

Lemma demo_init_succeeds :
  exists m',
    init demo_HeaderSize 0x706D6F63 0x180 4 12 16 3
         ["/bad/path"; "/good/path"]%string demo_boot
    = Ret KERN_SUCCESS m'.
Proof.
  destruct (returns_Ret
              (init demo_HeaderSize 0x706D6F63 0x180 4 12 16 3
                    ["/bad/path"; "/good/path"]%string demo_boot)
              (fun r _ => r =? KERN_SUCCESS))
    as (r & m' & Hrun & Hp); [vm_compute; reflexivity|].
  apply Z.eqb_eq in Hp. subst r. exists m'. exact Hrun.
Defined.

Lemma init_success_loaded_witness :
  exists m',
    init demo_HeaderSize 0x706D6F63 0x180 4 12 16 3
         ["/bad/path"; "/good/path"]%string demo_boot
    = Ret KERN_SUCCESS m'
    /\ (exists b, linkedit_buf (this m') = Some b
                  /\ List.length b = Z.to_nat (linkedit_size (this m')))
    /\ file_buf (this m') = None.
Proof.
  destruct demo_init_succeeds as (m' & Hrun). exists m'.
  split; [exact Hrun|].
  destruct (init_success_loaded demo_HeaderSize 0x706D6F63 0x180 4 12 16 3
              ["/bad/path"; "/good/path"]%string demo_boot m' Hrun)
    as (Hbuf & Hfile & _).
  split; assumption.
Defined.

Lemma init_releases_contexts_witness :
  exists m',
    init demo_HeaderSize 0x706D6F63 0x180 4 12 16 3
         ["/bad/path"; "/good/path"]%string demo_boot
    = Ret KERN_SUCCESS m'
    /\ contexts m' = 0%nat
    /\ cr0 m' = 0x80010033.
Proof.
  destruct demo_init_succeeds as (m' & Hrun). exists m'.
  split; [exact Hrun|].
  destruct (init_releases_contexts demo_HeaderSize 0x706D6F63 0x180 4 12 16 3
              ["/bad/path"; "/good/path"]%string demo_boot KERN_SUCCESS m'
              Hrun)
    as (Hctx & Hproc & _).
  split; [exact Hctx|]. unfold processor in Hproc.
  inversion Hproc. reflexivity.
Defined.

(** ** The slide and the running text address *)

Lemma with_this_this (m : Machine) : with_this m (this m) = m.
Proof. destruct m. reflexivity. Qed.

Lemma handle_blind_ret {A} (a : A) : handle_blind (ret a).
Proof. intros m h. reflexivity. Qed.

Lemma handle_blind_bind {A B} (c : M A) (k : A -> M B) :
  handle_blind c -> (forall a, handle_blind (k a)) -> handle_blind (bind c k).
Proof.
  intros Hc Hk m h. unfold bind. rewrite Hc.
  destruct (c m) as [a m1|m1|]; cbn [res_with_this];
    [apply Hk | reflexivity | reflexivity].
Qed.

Lemma handle_blind_emit e : handle_blind (emit e).
Proof. intros m h. reflexivity. Qed.

Lemma handle_blind_get_kern : handle_blind get_kern.
Proof. intros m h. reflexivity. Qed.

Lemma handle_blind_load r v a w : handle_blind (load r v a w).
Proof.
  unfold load. apply handle_blind_bind; [apply handle_blind_emit|].
  intros _. destruct (view_le v a w); intros m h; reflexivity.
Qed.

Lemma handle_blind_cstr_get s i : handle_blind (cstr_get s i).
Proof.
  destruct s; [apply handle_blind_ret | apply handle_blind_load].
Qed.

Lemma handle_blind_strncmp_from s1 s2 n :
  forall i, handle_blind (strncmp_from s1 s2 i n).
Proof.
  induction n as [|n IH]; intros i; cbn [strncmp_from].
  - apply handle_blind_ret.
  - apply handle_blind_bind; [apply handle_blind_cstr_get|]. intros c1.
    apply handle_blind_bind; [apply handle_blind_cstr_get|]. intros c2.
    destruct (negb (c1 =? c2)); [apply handle_blind_ret|].
    destruct (c1 =? 0); [apply handle_blind_ret | apply IH].
Qed.

Lemma handle_blind_findKernelBase_scan mem n :
  forall tmp, handle_blind (findKernelBase_scan mem n tmp).
Proof.
  induction n as [|n IH]; intros tmp; cbn [findKernelBase_scan].
  - apply handle_blind_ret.
  - apply handle_blind_bind; [apply handle_blind_load|]. intros magic.
    apply handle_blind_bind.
    { destruct (magic =? MH_MAGIC_64); [|apply handle_blind_ret].
      apply handle_blind_bind; [apply handle_blind_strncmp_from|].
      intros c. apply handle_blind_ret. }
    intros found. destruct found; [apply handle_blind_ret|].
    destruct (_ >? _); [apply handle_blind_ret | apply IH].
Qed.

(** [findKernelBase] finds the same base whatever the handle holds. *)
Lemma handle_blind_findKernelBase : handle_blind findKernelBase.
Proof.
  unfold findKernelBase, calculateInt80Address, getIDTAddress.
  repeat (first [ apply handle_blind_ret | apply handle_blind_load
                | apply handle_blind_get_kern | apply handle_blind_emit
                | apply handle_blind_findKernelBase_scan
                | apply handle_blind_bind; [|intros ?] ]).
Qed.

(** Where the running text address of a successful call comes from: the
    base is the supplied one, or the one [findKernelBase] returns in the
    machine the call was made in; the header at that base has been walked
    to its first "__TEXT" segment command, unless the handle already held
    both running addresses and the walk found no such command. *)
Lemma getRunningAddresses_base (slide size : Z) (m m' : Machine) :
  kaslr_slide_set (this m) = false ->
  getRunningAddresses slide size m = Ret KERN_SUCCESS m' ->
  exists base,
    (if slide =? 0 then exists m1, findKernelBase m = Ret base m1
     else base = slide)
    /\ ((base <> 0
         /\ text_found_at (kmem (kern m)) base (running_text_addr (this m'))
         /\ running_mh (this m') = base)
        \/ (running_text_addr (this m) <> 0
            /\ running_mh (this m) <> 0
            /\ running_text_addr (this m') = running_text_addr (this m)
            /\ running_mh (this m') = running_mh (this m))).
Proof.
  intros Hunset Hrun. unfold getRunningAddresses in Hrun.
  apply bind_Ret_inv in Hrun. destruct Hrun as (h & m0 & Hget & Hrun).
  inversion Hget. subst h m0. clear Hget. rewrite Hunset in Hrun.
  apply bind_Ret_inv in Hrun. destruct Hrun as ([] & m1 & Hsize & Hrun).
  assert (H1 : exists h1, m1 = with_this m h1
                          /\ running_text_addr h1 = running_text_addr (this m)
                          /\ running_mh h1 = running_mh (this m)).
  { destruct (size >? 0); inversion Hsize; subst m1.
    - exists (set_memory_size size (this m)). repeat split.
    - exists (this m). split; [symmetry; apply with_this_this|].
      split; reflexivity. }
  destruct H1 as (h1 & -> & Hrta1 & Hrmh1). clear Hsize.
  apply bind_Ret_inv in Hrun. destruct Hrun as (base & m2 & Hbase & Hrun).
  exists base.
  assert (H2 : (if slide =? 0 then exists m1, findKernelBase m = Ret base m1
                else base = slide)
               /\ this m2 = h1 /\ kern m2 = kern m).
  { destruct (slide =? 0); cbn [negb] in Hbase.
    - pose proof (reads_only_Ret_inv _ _ _ _ reads_only_findKernelBase Hbase)
        as [t ->].
      rewrite handle_blind_findKernelBase in Hbase.
      destruct (findKernelBase m) as [b mb|mb|]; try discriminate.
      cbn [res_with_this] in Hbase.
      assert (E : b = base) by congruence. subst b.
      split; [exists mb; reflexivity|]. split; reflexivity.
    - inversion Hbase. subst. split; [reflexivity|]. split; reflexivity. }
  clear Hbase. destruct H2 as (Hfound & Hthis2 & Hkern2).
  split; [exact Hfound|]. clear Hfound.
  apply bind_Ret_inv in Hrun. destruct Hrun as ([] & m3 & Hwalk & Hrun).
  assert (H3 : (base <> 0
                /\ exists v,
                     text_found_at (kmem (kern m)) base v
                     /\ this m3 = set_running_mh base
                                    (set_running_text_addr v h1))
               \/ this m3 = h1).
  { destruct (Z.eqb_spec base 0) as [E|E]; cbn [negb] in Hwalk.
    - right. inversion Hwalk. subst. reflexivity.
    - unfold bind at 1 in Hwalk. unfold get_kern at 1 in Hwalk.
      rewrite Hkern2 in Hwalk.
      apply bind_Ret_inv in Hwalk. destruct Hwalk as (ncmds & m2' & Hn & Hwalk).
      apply load_Ret_inv in Hn. destruct Hn as [Hn ->].
      apply getRunningAddresses_walk_locates in Hwalk.
      destruct Hwalk as [_ Hres].
      cbn [with_trace this] in Hres. rewrite Hthis2 in Hres.
      destruct Hres
        as [Hsame | (before & a & rest & v & Heq & Hb & Ha & Hv & Hthis)].
      + right. exact Hsame.
      + left. split; [exact E|]. exists v. split; [|exact Hthis].
        exists ncmds, before, a, rest. repeat split; assumption. }
  clear Hwalk.
  unfold bind at 1 in Hrun. unfold get_this at 1 in Hrun.
  destruct (Z.eqb_spec (running_text_addr (this m3)) 0) as [|Hrt];
    [discriminate|].
  destruct (Z.eqb_spec (running_mh (this m3)) 0) as [|Hmh]; [discriminate|].
  cbn [negb andb] in Hrun.
  assert (Hfinal : running_text_addr (this m') = running_text_addr (this m3)
                   /\ running_mh (this m') = running_mh (this m3)).
  { destruct (slide =? 0); inversion Hrun; split; reflexivity. }
  destruct Hfinal as [F1 F2]. rewrite F1, F2.
  destruct H3 as [(Hbase & v & Hfound & Hthis3) | Hthis3];
    rewrite Hthis3 in *.
  - left. split; [exact Hbase|]. split; [exact Hfound | reflexivity].
  - right. rewrite Hrta1 in *. rewrite Hrmh1 in *. repeat split; assumption.
Qed.

(** C3, amended: when [getRunningAddresses] computes the slide, with no
    base supplied it is the running text address minus the static text
    address of the file, in 64-bit arithmetic, where the running text
    address is the [vmaddr] of the first "__TEXT" segment command of the
    header at the base that [findKernelBase] discovers; with a base
    supplied it is the supplied base itself, whatever text address the
    header at that base declares, the header being walked in the same way.
    The running header is the base.  Only a handle that already held both
    running addresses keeps them when the walk finds no such command. *)
Theorem getRunningAddresses_slide (slide size : Z) (m m' : Machine) :
  kaslr_slide_set (this m) = false ->
  getRunningAddresses slide size m = Ret KERN_SUCCESS m' ->
  kaslr_slide_set (this m') = true /\
  running_text_addr (this m') <> 0 /\
  disk_text_addr (this m') = disk_text_addr (this m) /\
  kaslr_slide (this m') =
    (if slide =? 0
     then wrap64 (running_text_addr (this m') - disk_text_addr (this m'))
     else slide) /\
  exists base,
    (if slide =? 0 then exists m1, findKernelBase m = Ret base m1
     else base = slide)
    /\ ((base <> 0
         /\ text_found_at (kmem (kern m)) base (running_text_addr (this m'))
         /\ running_mh (this m') = base)
        \/ (running_text_addr (this m) <> 0
            /\ running_mh (this m) <> 0
            /\ running_text_addr (this m') = running_text_addr (this m)
            /\ running_mh (this m') = running_mh (this m))).
Proof.
  intros Hunset Hrun.
  destruct (getRunningAddresses_computed slide size m m' Hunset Hrun)
    as (H1 & H2 & _ & H3 & H4).
  split; [exact H1|]. split; [exact H2|]. split; [exact H3|].
  split; [exact H4|].
  exact (getRunningAddresses_base slide size m m' Hunset Hrun).
Qed.

Lemma getRunningAddresses_slide_witness :
  (exists m' base,
      getRunningAddresses 0 0 demo_loaded = Ret KERN_SUCCESS m'
      /\ kaslr_slide (this m') = 0x4000
      /\ (exists m1, findKernelBase demo_loaded = Ret base m1)
      /\ text_found_at demo_kmem base 0x5000
      /\ running_text_addr (this m') = 0x5000
      /\ running_mh (this m') = base)
  /\
  (exists m', getRunningAddresses 0x5000 0 demo_loaded = Ret KERN_SUCCESS m'
              /\ kaslr_slide (this m') = 0x5000
              /\ text_found_at demo_kmem 0x5000 (running_text_addr (this m'))).
Proof.
  split.
  - destruct demo_loaded_discovers as (m' & Hrun & Hrt).
    destruct (getRunningAddresses_slide 0 0 demo_loaded m' eq_refl Hrun)
      as (_ & _ & Hdisk & Hslide & base & Hbase & Htie).
    exists m', base. split; [exact Hrun|].
    split; [rewrite Hslide, Hrt, Hdisk; reflexivity|].
    split; [exact Hbase|].
    destruct Htie as [(_ & Hfound & Hmh) | (_ & Hheld & _)].
    + rewrite Hrt in Hfound. split; [exact Hfound|].
      split; [exact Hrt | exact Hmh].
    + exfalso. apply Hheld. reflexivity.
  - destruct demo_loaded_supplied as (m' & Hrun & _). exists m'.
    split; [exact Hrun|].
    destruct (getRunningAddresses_slide 0x5000 0 demo_loaded m' eq_refl Hrun)
      as (_ & _ & _ & Hslide & base & Hbase & Htie).
    split; [exact Hslide|].
    cbn [Z.eqb] in Hbase. subst base.
    destruct Htie as [(_ & Hfound & _) | (_ & Hheld & _)].
    + exact Hfound.
    + exfalso. apply Hheld. reflexivity.
Defined.
